(** * zeek-viz: the in-memory log store and its aggregation engine

    A shallow embedding of the Go packages [models] and [handlers] of
    zeek-viz, followed by the properties of the record parser, the filter
    pipeline, the three aggregators and the session store: first the
    properties C1 to C10 of the specification, then the properties X1 to
    X30 read off the code.

    Conventions of the embedding:
    - Go [string]s are byte sequences: they are [string]s here, one [ascii]
      per byte.
    - Go [int] and [int64] are 64-bit two's complement integers: they are
      [Z]s kept in range by [Go.wrap64] wherever the code adds.
    - A finite [float64] is the integer number of units of 2^-1074 it holds
      (module [F64]); encoding/json never produces a NaN or an infinity.
    - Go maps are [gmap]s.  The order of a [range] over a map and the order
      [sort.Slice] leaves between elements that compare equal are chosen by
      the runtime: the functions that depend on them take the choice as an
      argument, a [Go.shuffle].
    - [log.Printf] calls are kept where a property mentions them (the line
      parser) as a list of log events returned next to the result. *)

From stdpp Require Import gmap strings list sorting.
From Stdlib Require Import ZArith Ascii.

Set Warnings "-register-all".

Local Open Scope string_scope.
Local Open Scope Z_scope.
Local Open Scope list_scope.

(** ** The Go runtime and the standard-library functions the code calls *)

Module Go.

(** [int] and [int64]: 64-bit two's complement. *)
Definition minInt64 : Z := - 2 ^ 63.
Definition maxInt64 : Z := 2 ^ 63 - 1.

Definition wrap64 (z : Z) : Z := (z + 2 ^ 63) mod 2 ^ 64 - 2 ^ 63.

Definition inInt64 (z : Z) : bool := (minInt64 <=? z) && (z <=? maxInt64).

(** [int32(z)] of an integer: its low 32 bits, two's complement. *)
Definition wrap32 (z : Z) : Z := (z + 2 ^ 31) mod 2 ^ 32 - 2 ^ 31.

(** [len(s)] of a string, and the slice expression [s[:n]]. *)
Definition len (s : string) : Z := Z.of_nat (String.length s).

Definition slice_to (s : string) (n : Z) : string :=
  String.substring 0 (Z.to_nat n) s.

(** The choices the runtime makes: a [shuffle] reorders any list.  It
    stands for the iteration order of a [range] over a map and for the
    order in which [sort.Slice] leaves elements that compare equal.  Every
    function below that takes a [shuffle] applies it to lists of different
    element types, so that one [shuffle] per call covers independent
    choices at each place; the properties hold for every [shuffle] that
    [permutes]. *)
Definition shuffle : Type := ∀ A : Type, list A → list A.

Definition permutes (rho : shuffle) : Prop :=
  ∀ (A : Type) (l : list A), rho A l ≡ₚ l.

Definition in_order : shuffle := fun _ l => l.
Definition backwards : shuffle := fun _ l => reverse l.

(** [for k, v := range m]: the entries of [m] in the order the runtime
    picked. *)
Definition range `{Countable K} {V : Type}
    (rho : shuffle) (m : gmap K V) : list (K * V) :=
  rho _ (map_to_list m).

(** [sort.Slice(s, less)] for a [less] that is a strict weak order,
    given as its reflexive counterpart [le x y = !less(y, x)]: the result
    is sorted and is a permutation of [s]; the order of elements that
    compare equal is the runtime's. *)
Definition sort_Slice {A : Type} (rho : shuffle)
    (le : A → A → Prop) `{!RelDecision le} (s : list A) : list A :=
  merge_sort le (rho _ s).

End Go.

(** ** float64 *)

Module F64.

(** A finite binary64 number is [m * 2^e] with [|m| < 2^53] and
    [-1074 <= e <= 971], hence an integer multiple of 2^-1074.  The
    embedding keeps that integer; comparisons are the integer ones and the
    two zeros coincide. *)
Definition unit : Z := 2 ^ 1074.

(** Round-to-nearest-even of the non-negative quotient [a / b]. *)
Definition rne (a b : Z) : Z :=
  let q := a / b in
  let r := a mod b in
  if 2 * r <? b then q
  else if b <? 2 * r then q + 1
  else if Z.even q then q else q + 1.

(** The binary64 nearest to [n / d] units, for [0 <= n] and [0 < d]:
    below 2^53 units the numbers are one unit apart, above they keep 53
    significant bits. *)
Definition round_pos (n d : Z) : Z :=
  let s := Z.max 0 (Z.log2 (n / d) - 52) in
  rne n (d * 2 ^ s) * 2 ^ s.

Definition round (n d : Z) : Z :=
  if n <? 0 then - round_pos (- n) d else round_pos n d.

(** Rounding that lands on 2^1024 or beyond is an infinity. *)
Definition overflows (x : Z) : bool := 2 ^ (1024 + 1074) <=? Z.abs x.

(** [float64(i)] for an [int]. *)
Definition of_int (i : Z) : Z := round (i * unit) 1.

(** [int64(f)] and [int(f)]: truncation toward zero.  When the truncated
    value does not fit, Go leaves the result to the implementation; amd64
    yields the minimum int64, which is what is kept here. *)
Definition to_int64 (f : Z) : Z :=
  let t := Z.quot f unit in
  if Go.inInt64 t then t else Go.minInt64.

(** [x / y] for a non-zero [y]. *)
Definition div (x y : Z) : Z :=
  if y <? 0 then round (- x * unit) (- y) else round (x * unit) y.

(** [x - y]; [None] when the difference rounds to an infinity. *)
Definition sub (x y : Z) : option Z :=
  let r := round (x - y) 1 in
  if overflows r then None else Some r.

(** [x * y]; [None] when the product rounds to an infinity. *)
Definition mul (x y : Z) : option Z :=
  let r := round (x * y) unit in
  if overflows r then None else Some r.

Definition ltb (x y : Z) : bool := x <? y.
Definition eqb (x y : Z) : bool := x =? y.

End F64.

(** ** Package time *)

Module time.

(** A [time.Time] built by [time.Unix], as its methods [Unix] and
    [Nanosecond] show it: the seconds since the epoch and the nanoseconds
    within the second. *)
Record Time : Type := Make {
  unixSec : Z;
  nsec : Z
}.

(** [time.Unix(sec, nsec)]: a nanosecond count outside [0, 999999999] is
    carried into the seconds, and the rest is stored as an int32. *)
Definition Unix (sec nsec : Z) : Time :=
  let '(sec, nsec) :=
    if (nsec <? 0) || (10 ^ 9 <=? nsec) then
      let n := Z.quot nsec (10 ^ 9) in
      let sec := Go.wrap64 (sec + n) in
      let nsec := Go.wrap64 (nsec - Go.wrap64 (n * 10 ^ 9)) in
      if nsec <? 0 then (Go.wrap64 (sec - 1), Go.wrap64 (nsec + 10 ^ 9))
      else (sec, nsec)
    else (sec, nsec) in
  {| unixSec := sec; nsec := Go.wrap32 nsec |}.

End time.

(** ** Bytes of a string *)

Module Bytes.

Definition code (c : ascii) : Z := Z.of_N (N_of_ascii c).
Definition char (b : Z) : ascii := ascii_of_N (Z.to_N b).

Fixpoint of_string (s : string) : list Z :=
  match s with
  | EmptyString => []
  | String c r => code c :: of_string r
  end.

Fixpoint to_string (l : list Z) : string :=
  match l with
  | [] => EmptyString
  | b :: r => String (char b) (to_string r)
  end.

End Bytes.

(** ** Package strings *)

Module strings.

(** One leading white-space rune of [l], as [unicode.IsSpace] sees it
    through the UTF-8 decoder: the six ASCII spaces, U+0085, U+00A0,
    U+1680, U+2000 to U+200A, U+2028, U+2029, U+202F, U+205F and U+3000.
    Returns what follows the rune. *)
Definition dropSpaceRune (l : list Z) : option (list Z) :=
  match l with
  | 9 :: r | 10 :: r | 11 :: r | 12 :: r | 13 :: r | 32 :: r => Some r
  | 194 :: 133 :: r | 194 :: 160 :: r => Some r
  | 225 :: 154 :: 128 :: r => Some r
  | 226 :: 128 :: b :: r =>
      if ((128 <=? b) && (b <=? 138)) || (b =? 168) || (b =? 169) || (b =? 175)
      then Some r else None
  | 226 :: 129 :: 159 :: r => Some r
  | 227 :: 128 :: 128 :: r => Some r
  | _ => None
  end.

Fixpoint trimLeftSpace (fuel : nat) (l : list Z) : list Z :=
  match fuel with
  | O => l
  | S fuel' =>
      match dropSpaceRune l with
      | Some r => trimLeftSpace fuel' r
      | None => l
      end
  end.

(** [strings.TrimSpace(s) == ""]: trimming stops at the first rune that is
    not white space, so the trimmed string is empty exactly when trimming
    on the left consumes everything. *)
Definition TrimSpace_is_empty (s : string) : bool :=
  match trimLeftSpace (String.length s) (Bytes.of_string s) with
  | [] => true
  | _ :: _ => false
  end.

End strings.

(** ** Package strconv *)

Module strconv.

Definition digit (c : ascii) : option Z :=
  let b := Bytes.code c in
  if (48 <=? b) && (b <=? 57) then Some (b - 48) else None.

(** The value of a non-empty run of decimal digits. *)
Fixpoint digits (acc : Z) (s : string) : option Z :=
  match s with
  | EmptyString => Some acc
  | String c r =>
      match digit c with
      | Some d => digits (acc * 10 + d) r
      | None => None
      end
  end.

Definition ParseUint10 (s : string) : option Z :=
  match s with
  | EmptyString => None
  | _ => digits 0 s
  end.

(** [strconv.ParseInt(s, 10, 64)]: an optional sign and decimal digits;
    [None] for the syntax error and for the range error alike. *)
Definition ParseInt (s : string) : option Z :=
  let '(neg, s0) :=
    match s with
    | String "+" r => (false, r)
    | String "-" r => (true, r)
    | _ => (false, s)
    end in
  match ParseUint10 s0 with
  | None => None
  | Some un =>
      if neg then (if un <=? 2 ^ 63 then Some (- un) else None)
      else (if un <? 2 ^ 63 then Some un else None)
  end.

Fixpoint fmtDigits (fuel : nat) (n : Z) (acc : string) : string :=
  match fuel with
  | O => acc
  | S fuel' =>
      let acc' := String (Bytes.char (48 + n mod 10)) acc in
      if n <? 10 then acc' else fmtDigits fuel' (n / 10) acc'
  end.

(** The verb [%d] of package fmt on an integer. *)
Definition FormatInt (z : Z) : string :=
  let n := Z.abs z in
  let body := fmtDigits (S (Z.to_nat (Z.log2 n))) n "" in
  if z <? 0 then String "-" body else body.

End strconv.

(** ** Packages crypto/sha256 and encoding/hex *)

Module sha256.

Definition mask : Z := 2 ^ 32 - 1.
Definition add32 (x y : Z) : Z := (x + y) mod 2 ^ 32.
Definition rotr (x n : Z) : Z :=
  Z.land (Z.lor (Z.shiftr x n) (Z.shiftl x (32 - n))) mask.
Definition not32 (x : Z) : Z := Z.lxor x mask.

Definition K : list Z :=
    [1116352408; 1899447441; 3049323471; 3921009573; 961987163; 1508970993;
     2453635748; 2870763221; 3624381080; 310598401; 607225278; 1426881987;
     1925078388; 2162078206; 2614888103; 3248222580; 3835390401; 4022224774;
     264347078; 604807628; 770255983; 1249150122; 1555081692; 1996064986;
     2554220882; 2821834349; 2952996808; 3210313671; 3336571891; 3584528711;
     113926993; 338241895; 666307205; 773529912; 1294757372; 1396182291;
     1695183700; 1986661051; 2177026350; 2456956037; 2730485921; 2820302411;
     3259730800; 3345764771; 3516065817; 3600352804; 4094571909; 275423344;
     430227734; 506948616; 659060556; 883997877; 958139571; 1322822218;
     1537002063; 1747873779; 1955562222; 2024104815; 2227730452; 2361852424;
     2428436474; 2756734187; 3204031479; 3329325298].

Definition H0 : list Z :=
    [1779033703; 3144134277; 1013904242; 2773480762;
     1359893119; 2600822924; 528734635; 1541459225].

(** Big-endian bytes of [x], [n] of them. *)
Fixpoint be_bytes (n : nat) (x : Z) : list Z :=
  match n with
  | O => []
  | S n' => (Z.shiftr x (8 * Z.of_nat n')) mod 256 :: be_bytes n' x
  end.

(** The message, the byte 0x80, zeros up to 56 modulo 64, and the bit
    length on eight bytes. *)
Definition pad (msg : list Z) : list Z :=
  let n := Z.of_nat (length msg) in
  let zeros := Z.to_nat ((55 - n) mod 64) in
  msg ++ 128 :: replicate zeros 0 ++ be_bytes 8 (8 * n).

Fixpoint be_words (fuel : nat) (l : list Z) : list Z :=
  match fuel, l with
  | S fuel', a :: b :: c :: d :: r =>
      (((a * 256 + b) * 256 + c) * 256 + d) :: be_words fuel' r
  | _, _ => []
  end.

Definition sig0 (x : Z) : Z :=
  Z.lxor (Z.lxor (rotr x 7) (rotr x 18)) (Z.shiftr x 3).
Definition sig1 (x : Z) : Z :=
  Z.lxor (Z.lxor (rotr x 17) (rotr x 19)) (Z.shiftr x 10).
Definition Sig0 (x : Z) : Z :=
  Z.lxor (Z.lxor (rotr x 2) (rotr x 13)) (rotr x 22).
Definition Sig1 (x : Z) : Z :=
  Z.lxor (Z.lxor (rotr x 6) (rotr x 11)) (rotr x 25).
Definition Ch (x y z : Z) : Z :=
  Z.lxor (Z.land x y) (Z.land (not32 x) z).
Definition Maj (x y z : Z) : Z :=
  Z.lxor (Z.lxor (Z.land x y) (Z.land x z)) (Z.land y z).

(** The message schedule, most recent word first: [w] holds
    [w(i-1), w(i-2), ...]. *)
Fixpoint schedule (n : nat) (w : list Z) : list Z :=
  match n with
  | O => w
  | S n' =>
      let wi := add32 (add32 (sig1 (nth 1 w 0)) (nth 6 w 0))
                      (add32 (sig0 (nth 14 w 0)) (nth 15 w 0)) in
      schedule n' (wi :: w)
  end.

Record state : Type := State {
  ha : Z; hb : Z; hc : Z; hd : Z; he : Z; hf : Z; hg : Z; hh : Z }.

Definition round (s : state) (kw : Z * Z) : state :=
  let t1 := add32 (add32 (add32 (hh s) (Sig1 (he s)))
                         (add32 (Ch (he s) (hf s) (hg s)) kw.1)) kw.2 in
  let t2 := add32 (Sig0 (ha s)) (Maj (ha s) (hb s) (hc s)) in
  State (add32 t1 t2) (ha s) (hb s) (hc s) (add32 (hd s) t1) (he s) (hf s) (hg s).

Definition block (s : state) (b : list Z) : state :=
  let w := reverse (schedule 48 (reverse (be_words 16 b))) in
  let r := fold_left round (zip K w) s in
  State (add32 (ha s) (ha r)) (add32 (hb s) (hb r)) (add32 (hc s) (hc r))
        (add32 (hd s) (hd r)) (add32 (he s) (he r)) (add32 (hf s) (hf r))
        (add32 (hg s) (hg r)) (add32 (hh s) (hh r)).

Fixpoint blocks (fuel : nat) (s : state) (l : list Z) : state :=
  match fuel, l with
  | S fuel', _ :: _ => blocks fuel' (block s (take 64 l)) (drop 64 l)
  | _, _ => s
  end.

Definition init : state :=
  State (nth 0 H0 0) (nth 1 H0 0) (nth 2 H0 0) (nth 3 H0 0)
        (nth 4 H0 0) (nth 5 H0 0) (nth 6 H0 0) (nth 7 H0 0).

Definition digest (s : state) : list Z :=
  be_bytes 4 (ha s) ++ be_bytes 4 (hb s) ++ be_bytes 4 (hc s) ++
  be_bytes 4 (hd s) ++ be_bytes 4 (he s) ++ be_bytes 4 (hf s) ++
  be_bytes 4 (hg s) ++ be_bytes 4 (hh s).

(** [sha256.Sum256(data)]: the 32 bytes of the digest. *)
Definition Sum256 (data : list Z) : list Z :=
  let p := pad data in
  digest (blocks (length p) init p).

End sha256.

Module hex.

Definition hexdigit (n : Z) : ascii :=
  if n <? 10 then Bytes.char (48 + n) else Bytes.char (87 + n).

(** [hex.EncodeToString]: two lower-case digits per byte. *)
Fixpoint EncodeToString (l : list Z) : string :=
  match l with
  | [] => EmptyString
  | b :: r => String (hexdigit (b / 16)) (String (hexdigit (b mod 16)) (EncodeToString r))
  end.

End hex.

(** ** Package unicode/utf8 *)

Module utf8.

Definition cont (b : Z) : bool := (128 <=? b) && (b <=? 191).
Definition between (lo b hi : Z) : bool := (lo <=? b) && (b <=? hi).

(** Width of the well-formed encoding that starts [l], 0 when the first
    byte does not start one ([utf8.DecodeRune] then yields the error rune
    with width 1). *)
Definition width (l : list Z) : nat :=
  match l with
  | b0 :: r =>
      if b0 <? 128 then 1%nat
      else if between 194 b0 223 then
        match r with b1 :: _ => if cont b1 then 2%nat else 0%nat | _ => 0%nat end
      else if between 224 b0 239 then
        match r with
        | b1 :: b2 :: _ =>
            let lo := if b0 =? 224 then 160 else 128 in
            let hi := if b0 =? 237 then 159 else 191 in
            if between lo b1 hi && cont b2 then 3%nat else 0%nat
        | _ => 0%nat
        end
      else if between 240 b0 244 then
        match r with
        | b1 :: b2 :: b3 :: _ =>
            let lo := if b0 =? 240 then 144 else 128 in
            let hi := if b0 =? 244 then 143 else 191 in
            if between lo b1 hi && cont b2 && cont b3 then 4%nat else 0%nat
        | _ => 0%nat
        end
      else 0%nat
  | [] => 0%nat
  end.

Definition RuneError : Z := 65533.

(** [utf8.EncodeRune]; surrogates and runes beyond U+10FFFF are written as
    the error rune. *)
Definition EncodeRune (r : Z) : list Z :=
  let r := if between 55296 r 57343 || (1114111 <? r) || (r <? 0)
           then RuneError else r in
  if r <? 128 then [r]
  else if r <? 2048 then [192 + r / 64; 128 + r mod 64]
  else if r <? 65536 then
    [224 + r / 4096; 128 + (r / 64) mod 64; 128 + r mod 64]
  else [240 + r / 262144; 128 + (r / 4096) mod 64;
        128 + (r / 64) mod 64; 128 + r mod 64].

End utf8.

(** ** Package encoding/json, as far as [json.Unmarshal] into a
    [map[string]any] goes *)

Module json.

(** What the scanner accepts: the JSON grammar of RFC 8259.  A number is
    kept as written, [mant * 10 ^ exp10] with its sign. *)
Inductive value : Type :=
| VNull
| VTrue
| VFalse
| VNumber (neg : bool) (mant : Z) (exp10 : Z)
| VString (s : string)
| VArray (l : list value)
| VObject (l : list (string * value)).

(** What an [any] holds once decoded. *)
Inductive any : Type :=
| Nil
| Bool (b : bool)
| Float64 (f : Z)
| Str (s : string)
| Slice (l : list any)
| Map (m : list (string * any)).

Inductive error : Type :=
| SyntaxError
| UnmarshalTypeError.

Definition maxNestingDepth : Z := 10000.

Definition isSpace (c : ascii) : bool :=
  let b := Bytes.code c in (b =? 32) || (b =? 9) || (b =? 13) || (b =? 10).

Fixpoint skipSpace (s : string) : string :=
  match s with
  | String c r => if isSpace c then skipSpace r else s
  | EmptyString => s
  end.

Definition hexval (c : ascii) : option Z :=
  let b := Bytes.code c in
  if (48 <=? b) && (b <=? 57) then Some (b - 48)
  else if (97 <=? b) && (b <=? 102) then Some (b - 87)
  else if (65 <=? b) && (b <=? 70) then Some (b - 55)
  else None.

(** [getu4] without the leading backslash and u: four hex digits. *)
Definition hex4 (s : string) : option (Z * string) :=
  match s with
  | String a (String b (String c (String d r))) =>
      match hexval a, hexval b, hexval c, hexval d with
      | Some x, Some y, Some z, Some w =>
          Some (((x * 16 + y) * 16 + z) * 16 + w, r)
      | _, _, _, _ => None
      end
  | _ => None
  end.

(** A backslash-u escape whose code unit [rr] has been read; [r] follows
    it.  A high surrogate takes the low surrogate escape that follows it;
    a surrogate on its own becomes the error rune. *)
Definition escapedRune (rr : Z) (r : string) : Z * string :=
  if utf8.between 55296 rr 57343 then
    match r with
    | String "\" (String "u" r1) =>
        match hex4 r1 with
        | Some (rr1, r2) =>
            if utf8.between 55296 rr 56319 && utf8.between 56320 rr1 57343
            then (65536 + (rr - 55296) * 1024 + (rr1 - 56320), r2)
            else (utf8.RuneError, r)
        | None => (utf8.RuneError, r)
        end
    | _ => (utf8.RuneError, r)
    end
  else (rr, r).

(** The byte a two-character escape stands for: the quote, the
    backslash, the slash, and b, f, n, r, t. *)
Definition escapeByte (e : ascii) : option Z :=
  if Bytes.code e =? 34 then Some 34
  else
    match e with
    | "\"%char => Some 92
    | "/"%char => Some 47
    | "b"%char => Some 8
    | "f"%char => Some 12
    | "n"%char => Some 10
    | "r"%char => Some 13
    | "t"%char => Some 9
    | _ => None
    end.

(** The inside of a string literal, after the opening quote, up to the
    closing one (byte 34); [acc] holds the decoded bytes, last first.
    Control characters are refused; bytes that are not well-formed UTF-8
    are replaced by the error rune. *)
Fixpoint stringBody (fuel : nat) (s : string) (acc : list Z)
    : option (string * string) :=
  match fuel with
  | O => None
  | S fuel' =>
      match s with
      | EmptyString => None
      | String c r =>
          let b := Bytes.code c in
          if b =? 34 then Some (Bytes.to_string (reverse acc), r)
          else if b =? 92 then
            match r with
            | String e r1 =>
                match escapeByte e with
                | Some x => stringBody fuel' r1 (x :: acc)
                | None =>
                    match e with
                    | "u"%char =>
                        match hex4 r1 with
                        | Some (rr, r2) =>
                            let '(rune, r3) := escapedRune rr r2 in
                            stringBody fuel' r3
                              (reverse (utf8.EncodeRune rune) ++ acc)
                        | None => None
                        end
                    | _ => None
                    end
                end
            | EmptyString => None
            end
          else if b <? 32 then None
          else if b <? 128 then stringBody fuel' r (b :: acc)
          else
            let l := Bytes.of_string s in
            match utf8.width l with
            | O => stringBody fuel' r
                     (reverse (utf8.EncodeRune utf8.RuneError) ++ acc)
            | n => stringBody fuel' (Bytes.to_string (drop n l))
                     (reverse (take n l) ++ acc)
            end
      end
  end.

(** A run of decimal digits: its value on top of [acc], how many there
    were, and what follows. *)
Fixpoint digitRun (s : string) (acc : Z) (n : Z) : Z * Z * string :=
  match s with
  | String c r =>
      match strconv.digit c with
      | Some d => digitRun r (acc * 10 + d) (n + 1)
      | None => (acc, n, s)
      end
  | EmptyString => (acc, n, s)
  end.

(** A number literal: an optional minus, 0 or a run of digits that does
    not start with 0, an optional fraction, an optional exponent. *)
Definition number (s : string) : option (value * string) :=
  let '(neg, s1) :=
    match s with String "-" r => (true, r) | _ => (false, s) end in
  let int_part :=
    match s1 with
    | String "0" r => Some (0, r)
    | _ => let '(m, n, r) := digitRun s1 0 0 in
           if n =? 0 then None else Some (m, r)
    end in
  match int_part with
  | None => None
  | Some (m, s2) =>
      let frac :=
        match s2 with
        | String "." r =>
            let '(m', n, r') := digitRun r m 0 in
            if n =? 0 then None else Some (m', n, r')
        | _ => Some (m, 0, s2)
        end in
      match frac with
      | None => None
      | Some (m', nfrac, s3) =>
          let with_exp (r : string) :=
            let '(eneg, r1) :=
              match r with
              | String "+" r' => (false, r')
              | String "-" r' => (true, r')
              | _ => (false, r)
              end in
            let '(e, n, r2) := digitRun r1 0 0 in
            if n =? 0 then None
            else Some (VNumber neg m' ((if eneg then - e else e) - nfrac), r2) in
          match s3 with
          | String "e" r => with_exp r
          | String "E" r => with_exp r
          | _ => Some (VNumber neg m' (- nfrac), s3)
          end
      end
  end.

(** One value at the head of [s] and what follows it.  [depth] counts the
    arrays and objects already open; byte 34 is the quote that opens a
    string. *)
Fixpoint parseValue (fuel : nat) (depth : Z) (s : string) {struct fuel}
    : option (value * string) :=
  match fuel with
  | O => None
  | S fuel' =>
      match s with
      | EmptyString => None
      | String c r0 =>
          if Bytes.code c =? 34 then
            match stringBody (String.length r0) r0 [] with
            | Some (t, r') => Some (VString t, r')
            | None => None
            end
          else
            match s with
            | String "{" r =>
                if maxNestingDepth <=? depth then None
                else
                  match skipSpace r with
                  | String "}" r' => Some (VObject [], r')
                  | r1 => parseMembers fuel' (depth + 1) r1 []
                  end
            | String "[" r =>
                if maxNestingDepth <=? depth then None
                else
                  match skipSpace r with
                  | String "]" r' => Some (VArray [], r')
                  | r1 => parseElements fuel' (depth + 1) r1 []
                  end
            | String "n" (String "u" (String "l" (String "l" r))) =>
                Some (VNull, r)
            | String "t" (String "r" (String "u" (String "e" r))) =>
                Some (VTrue, r)
            | String "f" (String "a" (String "l" (String "s" (String "e" r)))) =>
                Some (VFalse, r)
            | _ => number s
            end
      end
  end
with parseElements (fuel : nat) (depth : Z) (s : string) (acc : list value)
    {struct fuel} : option (value * string) :=
  match fuel with
  | O => None
  | S fuel' =>
      match parseValue fuel' depth s with
      | Some (v, r) =>
          match skipSpace r with
          | String "," r' => parseElements fuel' depth (skipSpace r') (v :: acc)
          | String "]" r' => Some (VArray (reverse (v :: acc)), r')
          | _ => None
          end
      | None => None
      end
  end
with parseMembers (fuel : nat) (depth : Z) (s : string)
    (acc : list (string * value)) {struct fuel} : option (value * string) :=
  match fuel with
  | O => None
  | S fuel' =>
      match s with
      | EmptyString => None
      | String c r =>
          if negb (Bytes.code c =? 34) then None
          else
            match stringBody (String.length r) r [] with
            | Some (k, r1) =>
                match skipSpace r1 with
                | String ":" r2 =>
                    match parseValue fuel' depth (skipSpace r2) with
                    | Some (v, r3) =>
                        match skipSpace r3 with
                        | String "," r4 =>
                            parseMembers fuel' depth (skipSpace r4)
                              ((k, v) :: acc)
                        | String "}" r4 =>
                            Some (VObject (reverse ((k, v) :: acc)), r4)
                        | _ => None
                        end
                    | None => None
                    end
                | _ => None
                end
            | None => None
            end
      end
  end.

(** [checkValid] and the scan of one document: a single value between
    optional white space, nothing after it. *)
Definition parse (data : string) : option value :=
  match parseValue (2 * String.length data + 1) 0 (skipSpace data) with
  | Some (v, r) =>
      match skipSpace r with
      | EmptyString => Some v
      | _ => None
      end
  | None => None
  end.

(** [convertNumber]: [strconv.ParseFloat(s, 64)], an error when the
    literal rounds to an infinity. *)
Definition convertNumber (neg : bool) (mant exp10 : Z) : option Z :=
  let f :=
    if 0 <=? exp10 then F64.round (mant * 10 ^ exp10 * F64.unit) 1
    else F64.round (mant * F64.unit) (10 ^ (- exp10)) in
  if F64.overflows f then None else Some (if neg then - f else f).

(** [valueInterface]: the Go value of a scanned value; [None] when a
    number in it is out of range (the error the decoder saves). *)
Fixpoint valueInterface (v : value) : option any :=
  match v with
  | VNull => Some Nil
  | VTrue => Some (Bool true)
  | VFalse => Some (Bool false)
  | VNumber neg m e => Float64 <$> convertNumber neg m e
  | VString s => Some (Str s)
  | VArray l =>
      Slice <$>
        (fix elements (l : list value) : option (list any) :=
           match l with
           | [] => Some []
           | v :: r =>
               match valueInterface v, elements r with
               | Some a, Some r' => Some (a :: r')
               | _, _ => None
               end
           end) l
  | VObject l =>
      Map <$>
        (fix members (l : list (string * value)) : option (list (string * any)) :=
           match l with
           | [] => Some []
           | (k, v) :: r =>
               match valueInterface v, members r with
               | Some a, Some r' => Some ((k, a) :: r')
               | _, _ => None
               end
           end) l
  end.

(** [json.Unmarshal(data, &raw)] for [var raw map[string]any].  A JSON
    null leaves the nil map and is no error; an object fills the map, the
    last of several equal keys winning; any other value is a type error,
    and so is a number out of range anywhere in the object. *)
Definition Unmarshal (data : string) : error + gmap string any :=
  match parse data with
  | None => inl SyntaxError
  | Some VNull => inr ∅
  | Some (VObject l) =>
      match valueInterface (VObject l) with
      | Some (Map m) => inr (list_to_map (reverse m))
      | _ => inl UnmarshalTypeError
      end
  | Some _ => inl UnmarshalTypeError
  end.

End json.

(** ** Package models *)

Module models.

(** Nanoseconds per second: the constant 1e9, a float64 where it is used. *)
Definition nanosPerSecond : Z := F64.of_int (10 ^ 9).

(** The type assertions [v.(string)], [v.(float64)] and [v.(bool)] on the
    result of a map lookup; a missing key is the nil interface and fails
    them all. *)
Definition assertString (v : option json.any) : option string :=
  match v with Some (json.Str s) => Some s | _ => None end.

Definition assertFloat64 (v : option json.any) : option Z :=
  match v with Some (json.Float64 f) => Some f | _ => None end.

Definition assertBool (v : option json.any) : option bool :=
  match v with Some (json.Bool b) => Some b | _ => None end.

(** [Connection]: a Zeek connection log entry.  [Timestamp] and [Duration]
    are float64 values (module [F64]). *)
Module Connection.

Record t : Type := Make {
  Timestamp : Z;
  UID : string;
  OrigHost : string;
  OrigPort : Z;
  RespHost : string;
  RespPort : Z;
  Protocol : string;
  Service : string;
  Duration : Z;
  OrigBytes : Z;
  RespBytes : Z;
  ConnState : string;
  LocalOrig : bool;
  LocalResp : bool;
  MissedBytes : Z;
  History : string;
  OrigPackets : Z;
  OrigIPBytes : Z;
  RespPackets : Z;
  RespIPBytes : Z;
  IPProtocol : Z
}.

(** The zero value [Connection{}]. *)
Definition zero : t :=
  {| Timestamp := 0;
     UID := "";
     OrigHost := "";
     OrigPort := 0;
     RespHost := "";
     RespPort := 0;
     Protocol := "";
     Service := "";
     Duration := 0;
     OrigBytes := 0;
     RespBytes := 0;
     ConnState := "";
     LocalOrig := false;
     LocalResp := false;
     MissedBytes := 0;
     History := "";
     OrigPackets := 0;
     OrigIPBytes := 0;
     RespPackets := 0;
     RespIPBytes := 0;
     IPProtocol := 0 |}.

(** [TotalBytes] returns the sum of orig_bytes and resp_bytes. *)
Definition TotalBytes (c : t) : Z := Go.wrap64 (OrigBytes c + RespBytes c).

(** [GetTime] returns the timestamp as a time.Time:
    [time.Unix(int64(ts), int64((ts - float64(int64(ts))) * nanosPerSecond))].
    A product that is an infinity converts like a value out of range. *)
Definition GetTime (c : t) : time.Time :=
  let sec := F64.to_int64 (Timestamp c) in
  let nanos :=
    match F64.sub (Timestamp c) (F64.of_int sec) with
    | Some frac =>
        match F64.mul frac nanosPerSecond with
        | Some f => F64.to_int64 f
        | None => Go.minInt64
        end
    | None => Go.minInt64
    end in
  time.Unix sec nanos.

End Connection.

Import Connection.

(** [parseStringFields] extracts string fields from raw JSON data. *)
Definition parseStringFields (raw : gmap string json.any) (conn : Connection.t)
    : Connection.t :=
  {|
     Timestamp := Timestamp conn;
     UID := default (UID conn) (assertString (raw !! "uid"));
     OrigHost := default (OrigHost conn) (assertString (raw !! "id.orig_h"));
     OrigPort := OrigPort conn;
     RespHost := default (RespHost conn) (assertString (raw !! "id.resp_h"));
     RespPort := RespPort conn;
     Protocol := default (Protocol conn) (assertString (raw !! "proto"));
     Service := default (Service conn) (assertString (raw !! "service"));
     Duration := Duration conn;
     OrigBytes := OrigBytes conn;
     RespBytes := RespBytes conn;
     ConnState := default (ConnState conn) (assertString (raw !! "conn_state"));
     LocalOrig := LocalOrig conn;
     LocalResp := LocalResp conn;
     MissedBytes := MissedBytes conn;
     History := default (History conn) (assertString (raw !! "history"));
     OrigPackets := OrigPackets conn;
     OrigIPBytes := OrigIPBytes conn;
     RespPackets := RespPackets conn;
     RespIPBytes := RespIPBytes conn;
     IPProtocol := IPProtocol conn |}.

(** [parseTimestampAndPorts] extracts timestamp and port fields. *)
Definition parseTimestampAndPorts (raw : gmap string json.any) (conn : Connection.t)
    : Connection.t :=
  {|
     Timestamp := default (Timestamp conn) (assertFloat64 (raw !! "ts"));
     UID := UID conn;
     OrigHost := OrigHost conn;
     OrigPort := default (OrigPort conn) (F64.to_int64 <$> assertFloat64 (raw !! "id.orig_p"));
     RespHost := RespHost conn;
     RespPort := default (RespPort conn) (F64.to_int64 <$> assertFloat64 (raw !! "id.resp_p"));
     Protocol := Protocol conn;
     Service := Service conn;
     Duration := Duration conn;
     OrigBytes := OrigBytes conn;
     RespBytes := RespBytes conn;
     ConnState := ConnState conn;
     LocalOrig := LocalOrig conn;
     LocalResp := LocalResp conn;
     MissedBytes := MissedBytes conn;
     History := History conn;
     OrigPackets := OrigPackets conn;
     OrigIPBytes := OrigIPBytes conn;
     RespPackets := RespPackets conn;
     RespIPBytes := RespIPBytes conn;
     IPProtocol := default (IPProtocol conn) (F64.to_int64 <$> assertFloat64 (raw !! "ip_proto")) |}.

(** [parseByteFields] extracts byte-related fields. *)
Definition parseByteFields (raw : gmap string json.any) (conn : Connection.t)
    : Connection.t :=
  {|
     Timestamp := Timestamp conn;
     UID := UID conn;
     OrigHost := OrigHost conn;
     OrigPort := OrigPort conn;
     RespHost := RespHost conn;
     RespPort := RespPort conn;
     Protocol := Protocol conn;
     Service := Service conn;
     Duration := Duration conn;
     OrigBytes := default (OrigBytes conn) (F64.to_int64 <$> assertFloat64 (raw !! "orig_bytes"));
     RespBytes := default (RespBytes conn) (F64.to_int64 <$> assertFloat64 (raw !! "resp_bytes"));
     ConnState := ConnState conn;
     LocalOrig := LocalOrig conn;
     LocalResp := LocalResp conn;
     MissedBytes := default (MissedBytes conn) (F64.to_int64 <$> assertFloat64 (raw !! "missed_bytes"));
     History := History conn;
     OrigPackets := OrigPackets conn;
     OrigIPBytes := default (OrigIPBytes conn) (F64.to_int64 <$> assertFloat64 (raw !! "orig_ip_bytes"));
     RespPackets := RespPackets conn;
     RespIPBytes := default (RespIPBytes conn) (F64.to_int64 <$> assertFloat64 (raw !! "resp_ip_bytes"));
     IPProtocol := IPProtocol conn |}.

(** [parsePacketFields] extracts packet-related fields. *)
Definition parsePacketFields (raw : gmap string json.any) (conn : Connection.t)
    : Connection.t :=
  {|
     Timestamp := Timestamp conn;
     UID := UID conn;
     OrigHost := OrigHost conn;
     OrigPort := OrigPort conn;
     RespHost := RespHost conn;
     RespPort := RespPort conn;
     Protocol := Protocol conn;
     Service := Service conn;
     Duration := Duration conn;
     OrigBytes := OrigBytes conn;
     RespBytes := RespBytes conn;
     ConnState := ConnState conn;
     LocalOrig := LocalOrig conn;
     LocalResp := LocalResp conn;
     MissedBytes := MissedBytes conn;
     History := History conn;
     OrigPackets := default (OrigPackets conn) (F64.to_int64 <$> assertFloat64 (raw !! "orig_pkts"));
     OrigIPBytes := OrigIPBytes conn;
     RespPackets := default (RespPackets conn) (F64.to_int64 <$> assertFloat64 (raw !! "resp_pkts"));
     RespIPBytes := RespIPBytes conn;
     IPProtocol := IPProtocol conn |}.

(** [parseIntegerFields] extracts integer and timestamp fields. *)
Definition parseIntegerFields (raw : gmap string json.any) (conn : Connection.t)
    : Connection.t :=
  parsePacketFields raw (parseByteFields raw (parseTimestampAndPorts raw conn)).

(** [parseFloatFields] extracts float fields from raw JSON data. *)
Definition parseFloatFields (raw : gmap string json.any) (conn : Connection.t)
    : Connection.t :=
  {|
     Timestamp := Timestamp conn;
     UID := UID conn;
     OrigHost := OrigHost conn;
     OrigPort := OrigPort conn;
     RespHost := RespHost conn;
     RespPort := RespPort conn;
     Protocol := Protocol conn;
     Service := Service conn;
     Duration := default (Duration conn) (assertFloat64 (raw !! "duration"));
     OrigBytes := OrigBytes conn;
     RespBytes := RespBytes conn;
     ConnState := ConnState conn;
     LocalOrig := LocalOrig conn;
     LocalResp := LocalResp conn;
     MissedBytes := MissedBytes conn;
     History := History conn;
     OrigPackets := OrigPackets conn;
     OrigIPBytes := OrigIPBytes conn;
     RespPackets := RespPackets conn;
     RespIPBytes := RespIPBytes conn;
     IPProtocol := IPProtocol conn |}.

(** [parseBooleanFields] extracts boolean fields from raw JSON data. *)
Definition parseBooleanFields (raw : gmap string json.any) (conn : Connection.t)
    : Connection.t :=
  {|
     Timestamp := Timestamp conn;
     UID := UID conn;
     OrigHost := OrigHost conn;
     OrigPort := OrigPort conn;
     RespHost := RespHost conn;
     RespPort := RespPort conn;
     Protocol := Protocol conn;
     Service := Service conn;
     Duration := Duration conn;
     OrigBytes := OrigBytes conn;
     RespBytes := RespBytes conn;
     ConnState := ConnState conn;
     LocalOrig := default (LocalOrig conn) (assertBool (raw !! "local_orig"));
     LocalResp := default (LocalResp conn) (assertBool (raw !! "local_resp"));
     MissedBytes := MissedBytes conn;
     History := History conn;
     OrigPackets := OrigPackets conn;
     OrigIPBytes := OrigIPBytes conn;
     RespPackets := RespPackets conn;
     RespIPBytes := RespIPBytes conn;
     IPProtocol := IPProtocol conn |}.

(** [UnmarshalConnection] parses a JSON line into a Connection. *)
Definition UnmarshalConnection (data : string) : json.error + Connection.t :=
  match json.Unmarshal data with
  | inl err => inl err
  | inr raw =>
      inr (parseBooleanFields raw
             (parseFloatFields raw
                (parseIntegerFields raw
                   (parseStringFields raw Connection.zero))))
  end.

(** [Node]: a network node (IP address) in the graph. *)
Module Node.
Record t : Type := Make {
  ID : string;
  Label : string;
  Connections : Z;
  TotalBytes : Z;
  IsLocal : bool;
  X : Z;
  Y : Z
}.
End Node.

(** [Edge]: a connection between two nodes; [Weight] is a float64. *)
Module Edge.
Record t : Type := Make {
  Source : string;
  Target : string;
  Protocol : string;
  Service : string;
  Count : Z;
  TotalBytes : Z;
  Weight : Z
}.
End Edge.

(** [TimelinePoint]: a point in the timeline. *)
Module TimelinePoint.
Record t : Type := Make {
  Timestamp : Z;
  Count : Z;
  Bytes : Z;
  Protocol : string;
  Connections : list Connection.t
}.
End TimelinePoint.

(** [NetworkGraph]: the complete network visualization data. *)
Module NetworkGraph.
Record t : Type := Make {
  Nodes : list Node.t;
  Edges : list Edge.t
}.
End NetworkGraph.

(** [TimelineData]: timeline visualization data. *)
Module TimelineData.
Record t : Type := Make {
  Points : list TimelinePoint.t;
  Start : Z;
  End_ : Z
}.
End TimelineData.

Definition localPrefixes : list string :=
  ["192.168."; "10.";
   "172.16."; "172.17."; "172.18."; "172.19.";
   "172.20."; "172.21."; "172.22."; "172.23.";
   "172.24."; "172.25."; "172.26."; "172.27.";
   "172.28."; "172.29."; "172.30."; "172.31.";
   "127."; "fe80::"; "::1"].

(** The loop body's test
    [len(ip) >= len(prefix) && ip[:len(prefix)] == prefix]. *)
Definition matchesPrefix (ip prefix : string) : bool :=
  (Go.len prefix <=? Go.len ip) &&
  bool_decide (Go.slice_to ip (Go.len prefix) = prefix).

(** [IsLocalIP] checks if an IP address is in local ranges: the loop
    returns at the first prefix that matches. *)
Definition IsLocalIP (ip : string) : bool :=
  if bool_decide (ip = "") then false
  else
    (fix loop (l : list string) : bool :=
       match l with
       | [] => false
       | prefix :: rest => if matchesPrefix ip prefix then true else loop rest
       end) localPrefixes.

End models.

(** ** Package bufio: what a [Scanner] delivers *)

Module bufio.

(** A [bufio.Scanner] over a reader, seen from its caller: the lines
    [Scan] and [Text] hand out one by one, and whether [Err] reports an
    error once [Scan] has returned false (a read error, or a line longer
    than the scanner's buffer). *)
Module Scanner.
Record t : Type := Make {
  Lines : list string;
  Err : bool
}.
End Scanner.

End bufio.

(** ** Package handlers *)

Module handlers.

Import models.

Definition maxUploadSize : Z := 50 * 2 ^ 20.
Definition timelineBucketSec : Z := 10.
Definition bytesScaleFactor : Z := F64.of_int 1000.
Definition fileIDLength : Z := 16.
Definition allProtocol : string := "all".

Inductive error : Type :=
| errFailedToOpenLogFile
| errErrorReadingData.

(** The lines the handlers write with [log.Printf] while parsing. *)
Inductive logEvent : Type :=
| LogFailedToParse (err : json.error)
| LogParsed (n : Z).

(** What a handler writes: [http.Error] with a status code, or a JSON
    body with status 200. *)
Inductive response (A : Type) : Type :=
| HttpError (status : Z) (message : string)
| Json (body : A).
Arguments HttpError {A} status message.
Arguments Json {A} body.

Definition StatusBadRequest : Z := 400.
Definition StatusNotFound : Z := 404.
Definition StatusMethodNotAllowed : Z := 405.

(** [FileData]: an uploaded file with its connections. *)
Module FileData.
Record t : Type := Make {
  Filename : string;
  UploadTime : Z;
  Size : Z;
  Connections : list Connection.t
}.
End FileData.

(** [API] handles all API endpoints. *)
Module API.
Record t : Type := Make {
  files : gmap string FileData.t;
  currentFileID : string;
  logPath : string
}.
End API.

(** [NewAPI] creates a new API handler. *)
Definition NewAPI (logPath : string) : API.t :=
  {| API.files := ∅; API.currentFileID := ""; API.logPath := logPath |}.

(** One turn of the scanning loop of [LoadConnectionsFromReader]. *)
Definition scanLine (st : list Connection.t * list logEvent) (line : string)
    : list Connection.t * list logEvent :=
  let '(connections, log) := st in
  if strings.TrimSpace_is_empty line then (connections, log)
  else
    match UnmarshalConnection line with
    | inl err => (connections, log ++ [LogFailedToParse err])
    | inr conn => (connections ++ [conn], log)
    end.

(** [LoadConnectionsFromReader] reads and parses connections from an
    io.Reader. *)
Definition LoadConnectionsFromReader (reader : bufio.Scanner.t)
    : (error + list Connection.t) * list logEvent :=
  let '(connections, log) :=
    fold_left scanLine (bufio.Scanner.Lines reader) ([], []) in
  if bufio.Scanner.Err reader then (inl errErrorReadingData, log)
  else (inr connections, log ++ [LogParsed (Z.of_nat (length connections))]).

(** [generateFileID] creates a unique ID for a file based on name and
    upload time. *)
Definition generateFileID (filename : string) (uploadTime : Z) : string :=
  let data := filename +:+ "_" +:+ strconv.FormatInt uploadTime in
  let hash := sha256.Sum256 (Bytes.of_string data) in
  Go.slice_to (hex.EncodeToString hash) fileIDLength.

(** [LoadConnections] reads and parses the connection log file;
    [opened] is what [os.Open(a.logPath)] gave and [now] is
    [time.Now().Unix()]. *)
Definition LoadConnections (a : API.t) (opened : option bufio.Scanner.t)
    (now : Z) : API.t * option error :=
  match opened with
  | None => (a, Some errFailedToOpenLogFile)
  | Some file =>
      match (LoadConnectionsFromReader file).1 with
      | inl err => (a, Some err)
      | inr connections =>
          let uploadTime := now in
          let fileID := generateFileID (API.logPath a) uploadTime in
          let fileData :=
            {| FileData.Filename := API.logPath a;
               FileData.UploadTime := uploadTime;
               FileData.Size := 0;
               FileData.Connections := connections |} in
          ({| API.files := <[fileID := fileData]> (API.files a);
              API.currentFileID := fileID;
              API.logPath := API.logPath a |}, None)
      end
  end.

(** The multipart form of an upload request: it fails to parse, it has no
    part named logfile, or it carries the file with its header. *)
Inductive uploadForm : Type :=
| FormUnparsable
| FormWithoutFile
| FormFile (Filename : string) (Size : Z) (file : bufio.Scanner.t).

Module UploadResponse.
Record t : Type := Make {
  success : bool;
  message : string;
  connections_count : Z;
  filename : string;
  file_id : string;
  total_files : Z
}.
End UploadResponse.

(** [UploadFile] handles file upload and parses the connection log;
    [now] is [time.Now().Unix()]. *)
Definition UploadFile (a : API.t) (method : string) (form : uploadForm)
    (now : Z) : API.t * response UploadResponse.t :=
  if negb (bool_decide (method = "POST"))
  then (a, HttpError StatusMethodNotAllowed "Method not allowed")
  else
    match form with
    | FormUnparsable => (a, HttpError StatusBadRequest "Failed to parse form data")
    | FormWithoutFile =>
        (a, HttpError StatusBadRequest "Failed to get file from request")
    | FormFile Filename Size file =>
        match (LoadConnectionsFromReader file).1 with
        | inl _ =>
            (a, HttpError StatusBadRequest "Failed to parse connection log file")
        | inr connections =>
            let uploadTime := now in
            let fileID := generateFileID Filename uploadTime in
            let fileData :=
              {| FileData.Filename := Filename;
                 FileData.UploadTime := uploadTime;
                 FileData.Size := Size;
                 FileData.Connections := connections |} in
            let files := <[fileID := fileData]> (API.files a) in
            ({| API.files := files;
                API.currentFileID := fileID;
                API.logPath := API.logPath a |},
             Json {| UploadResponse.success := true;
                     UploadResponse.message :=
                       "Successfully loaded " +:+
                       strconv.FormatInt (Z.of_nat (length connections)) +:+
                       " connections from " +:+ Filename;
                     UploadResponse.connections_count :=
                       Z.of_nat (length connections);
                     UploadResponse.filename := Filename;
                     UploadResponse.file_id := fileID;
                     UploadResponse.total_files := Z.of_nat (size files) |})
        end
    end.

(** [getCurrentConnections] returns connections from the currently
    selected file. *)
Definition getCurrentConnections (a : API.t) : list Connection.t :=
  if bool_decide (API.currentFileID a = "") then []
  else
    match API.files a !! API.currentFileID a with
    | None => []
    | Some fileData => FileData.Connections fileData
    end.

(** [applyTimeFilter] applies time-based filtering to connections. *)
Definition applyTimeFilter (connections : list Connection.t)
    (startTime endTime : string) : list Connection.t :=
  if bool_decide (startTime = "") || bool_decide (endTime = "")
  then connections
  else
    match strconv.ParseInt startTime, strconv.ParseInt endTime with
    | Some start, Some end_ =>
        fold_left
          (fun filtered conn =>
             let ts := F64.to_int64 (Connection.Timestamp conn) in
             if (start <=? ts) && (ts <=? end_)
             then filtered ++ [conn] else filtered)
          connections []
    | _, _ => connections
    end.

(** [applyProtocolFilter] applies protocol-based filtering to
    connections. *)
Definition applyProtocolFilter (connections : list Connection.t)
    (protocol : string) : list Connection.t :=
  if bool_decide (protocol = "") || bool_decide (protocol = allProtocol)
  then connections
  else
    fold_left
      (fun filtered conn =>
         if bool_decide (Connection.Protocol conn = protocol)
         then filtered ++ [conn] else filtered)
      connections [].

(** [applyConnStateFilter] applies connection state filtering to
    connections. *)
Definition applyConnStateFilter (connections : list Connection.t)
    (connState : string) : list Connection.t :=
  if bool_decide (connState = "") || bool_decide (connState = allProtocol)
  then connections
  else
    fold_left
      (fun filtered conn =>
         if bool_decide (Connection.ConnState conn = connState)
         then filtered ++ [conn] else filtered)
      connections [].

(** The three filters as [GetConnections] and [GetNodes] chain them on the
    query parameters start, end, protocol and conn_state (an absent
    parameter reads as the empty string). *)
Definition filterConnections (connections : list Connection.t)
    (startTime endTime protocol connState : string) : list Connection.t :=
  let filteredConnections := connections in
  let filteredConnections :=
    applyTimeFilter filteredConnections startTime endTime in
  let filteredConnections :=
    applyProtocolFilter filteredConnections protocol in
  applyConnStateFilter filteredConnections connState.

(** [GetConnections] returns all connections with optional filtering. *)
Definition GetConnections (a : API.t)
    (startTime endTime protocol connState : string) : list Connection.t :=
  filterConnections (getCurrentConnections a) startTime endTime protocol connState.

(** [processNode] updates or creates a node in the nodeMap. *)
Definition processNode (nodeMap : gmap string Node.t) (host : string)
    (totalBytes : Z) : gmap string Node.t :=
  let nodeMap :=
    match nodeMap !! host with
    | None =>
        <[host := {| Node.ID := host; Node.Label := host;
                     Node.Connections := 0; Node.TotalBytes := 0;
                     Node.IsLocal := IsLocalIP host;
                     Node.X := 0; Node.Y := 0 |}]> nodeMap
    | Some _ => nodeMap
    end in
  let nodeMap :=
    alter (fun n => {| Node.ID := Node.ID n; Node.Label := Node.Label n;
                       Node.Connections := Go.wrap64 (Node.Connections n + 1);
                       Node.TotalBytes := Node.TotalBytes n;
                       Node.IsLocal := Node.IsLocal n;
                       Node.X := Node.X n; Node.Y := Node.Y n |}) host nodeMap in
  alter (fun n => {| Node.ID := Node.ID n; Node.Label := Node.Label n;
                     Node.Connections := Node.Connections n;
                     Node.TotalBytes := Go.wrap64 (Node.TotalBytes n + totalBytes);
                     Node.IsLocal := Node.IsLocal n;
                     Node.X := Node.X n; Node.Y := Node.Y n |}) host nodeMap.

(** The key [fmt.Sprintf("%s-%s-%s", conn.OrigHost, conn.RespHost,
    conn.Protocol)]. *)
Definition edgeKey (conn : Connection.t) : string :=
  Connection.OrigHost conn +:+ "-" +:+ Connection.RespHost conn +:+ "-" +:+
  Connection.Protocol conn.

(** [processEdge] updates or creates an edge in the edgeMap. *)
Definition processEdge (edgeMap : gmap string Edge.t) (conn : Connection.t)
    : gmap string Edge.t :=
  let edgeKey := edgeKey conn in
  let edgeMap :=
    match edgeMap !! edgeKey with
    | None =>
        <[edgeKey := {| Edge.Source := Connection.OrigHost conn;
                        Edge.Target := Connection.RespHost conn;
                        Edge.Protocol := Connection.Protocol conn;
                        Edge.Service := Connection.Service conn;
                        Edge.Count := 0; Edge.TotalBytes := 0;
                        Edge.Weight := 0 |}]> edgeMap
    | Some _ => edgeMap
    end in
  let edgeMap :=
    alter (fun e => {| Edge.Source := Edge.Source e; Edge.Target := Edge.Target e;
                       Edge.Protocol := Edge.Protocol e;
                       Edge.Service := Edge.Service e;
                       Edge.Count := Go.wrap64 (Edge.Count e + 1);
                       Edge.TotalBytes := Edge.TotalBytes e;
                       Edge.Weight := Edge.Weight e |}) edgeKey edgeMap in
  let edgeMap :=
    alter (fun e => {| Edge.Source := Edge.Source e; Edge.Target := Edge.Target e;
                       Edge.Protocol := Edge.Protocol e;
                       Edge.Service := Edge.Service e;
                       Edge.Count := Edge.Count e;
                       Edge.TotalBytes :=
                         Go.wrap64 (Edge.TotalBytes e + Connection.TotalBytes conn);
                       Edge.Weight := Edge.Weight e |}) edgeKey edgeMap in
  alter (fun e => {| Edge.Source := Edge.Source e; Edge.Target := Edge.Target e;
                     Edge.Protocol := Edge.Protocol e;
                     Edge.Service := Edge.Service e;
                     Edge.Count := Edge.Count e;
                     Edge.TotalBytes := Edge.TotalBytes e;
                     Edge.Weight :=
                       F64.div (F64.of_int (Edge.TotalBytes e)) bytesScaleFactor |})
        edgeKey edgeMap.

(** The loop of [buildNodesAndEdges]: the two accumulators after the
    connections have been processed in order. *)
Definition accumulate (connections : list Connection.t)
    : gmap string Node.t * gmap string Edge.t :=
  fold_left
    (fun maps conn =>
       let totalBytes := Connection.TotalBytes conn in
       let nodeMap := processNode maps.1 (Connection.OrigHost conn) totalBytes in
       let nodeMap := processNode nodeMap (Connection.RespHost conn) totalBytes in
       (nodeMap, processEdge maps.2 conn))
    connections (∅, ∅).

(** [buildNodesAndEdges] processes connections to build the network graph
    data; the two maps are emptied into slices in the order the runtime
    ranges over them. *)
Definition buildNodesAndEdges (rho : Go.shuffle)
    (connections : list Connection.t) : list Node.t * list Edge.t :=
  let '(nodeMap, edgeMap) := accumulate connections in
  ((Go.range rho nodeMap).*2, (Go.range rho edgeMap).*2).

(** [GetNodes] returns network nodes for graph visualization. *)
Definition GetNodes (rho : Go.shuffle) (a : API.t)
    (startTime endTime protocol connState : string) : NetworkGraph.t :=
  let connections :=
    filterConnections (getCurrentConnections a)
      startTime endTime protocol connState in
  let '(nodes, edges) := buildNodesAndEdges rho connections in
  {| NetworkGraph.Nodes := nodes; NetworkGraph.Edges := edges |}.

(** The bucket of a connection:
    [(int64(conn.Timestamp) / bucketSize) * bucketSize], with Go's integer
    division, which truncates toward zero. *)
Definition bucketOf (conn : Connection.t) : Z :=
  let bucketSize := timelineBucketSec in
  Z.quot (F64.to_int64 (Connection.Timestamp conn)) bucketSize * bucketSize.

(** One turn of the loop that populates the buckets. *)
Definition addToBucket (timelineMap : gmap Z TimelinePoint.t)
    (conn : Connection.t) : gmap Z TimelinePoint.t :=
  let bucket := bucketOf conn in
  match timelineMap !! bucket with
  | Some point =>
      <[bucket := {| TimelinePoint.Timestamp := TimelinePoint.Timestamp point;
                     TimelinePoint.Count := Go.wrap64 (TimelinePoint.Count point + 1);
                     TimelinePoint.Bytes :=
                       Go.wrap64 (TimelinePoint.Bytes point + Connection.TotalBytes conn);
                     TimelinePoint.Protocol := TimelinePoint.Protocol point;
                     TimelinePoint.Connections := TimelinePoint.Connections point |}]>
        timelineMap
  | None =>
      <[bucket := {| TimelinePoint.Timestamp := bucket;
                     TimelinePoint.Count := 1;
                     TimelinePoint.Bytes := Connection.TotalBytes conn;
                     TimelinePoint.Protocol := "";
                     TimelinePoint.Connections := [] |}]> timelineMap
  end.

#[global] Instance Connection_inhabited : Inhabited Connection.t :=
  populate Connection.zero.

(** The order [sort.Slice] is asked for: [less] is
    [sortedConns[i].Timestamp < sortedConns[j].Timestamp]. *)
Definition byTimestamp (x y : Connection.t) : Prop :=
  Connection.Timestamp x ≤ Connection.Timestamp y.

#[global] Instance byTimestamp_dec : RelDecision byTimestamp :=
  fun x y => Z_le_dec (Connection.Timestamp x) (Connection.Timestamp y).

(** [less] is [points[i].Timestamp < points[j].Timestamp]. *)
Definition byBucket (p q : TimelinePoint.t) : Prop :=
  TimelinePoint.Timestamp p ≤ TimelinePoint.Timestamp q.

#[global] Instance byBucket_dec : RelDecision byBucket :=
  fun p q => Z_le_dec (TimelinePoint.Timestamp p) (TimelinePoint.Timestamp q).

(** The body of [GetTimeline] once [connections] holds
    [a.getCurrentConnections()]. *)
Definition timelineOf (rho : Go.shuffle) (connections : list Connection.t)
    : TimelineData.t :=
  if bool_decide (length connections = 0%nat)
  then {| TimelineData.Points := []; TimelineData.Start := 0;
          TimelineData.End_ := 0 |}
  else
    let sortedConns :=
      Go.sort_Slice rho byTimestamp connections in
    let startTime :=
      F64.to_int64 (Connection.Timestamp (sortedConns !!! 0%nat)) in
    let endTime :=
      F64.to_int64
        (Connection.Timestamp (sortedConns !!! (length sortedConns - 1)%nat)) in
    let timelineMap := fold_left addToBucket sortedConns ∅ in
    let points := (Go.range rho timelineMap).*2 in
    let points := Go.sort_Slice rho byBucket points in
    {| TimelineData.Points := points; TimelineData.Start := startTime;
       TimelineData.End_ := endTime |}.

(** [GetTimeline] returns timeline data for temporal visualization. *)
Definition GetTimeline (rho : Go.shuffle) (a : API.t) : TimelineData.t :=
  timelineOf rho (getCurrentConnections a).

Definition descriptions : list (string * string) :=
  [("SF", "Normal Established - Successful connection that was properly closed");
   ("S0", "Connection Attempt Rejected - Initial SYN was not acknowledged");
   ("S1", "Connection Established, Not Terminated - Connection established but not cleanly closed");
   ("S2", "Connection Established, Originator Aborted - Connection established but originator aborted");
   ("S3", "Connection Established, Responder Aborted - Connection established but responder aborted");
   ("REJ", "Connection Rejected - Connection attempt was explicitly rejected");
   ("RSTO", "Connection Reset by Originator - Originator sent RST");
   ("RSTR", "Connection Reset by Responder - Responder sent RST");
   ("RSTOS0", "Originator Sent SYN+RST - Connection attempt with immediate reset");
   ("RSTRH", "Responder Sent RST after Handshake - Reset after successful handshake");
   ("SH", "Originator Sent SYN+FIN - Unusual SYN+FIN combination");
   ("SHR", "Responder Sent SYN+FIN after SYN - Response with SYN+FIN");
   ("OTH", "Other/No Further Info - No additional information available")].

(** [getConnStateDescription] returns a human-readable description for
    connection states. *)
Definition getConnStateDescription (state : string) : string :=
  match (list_to_map descriptions : gmap string string) !! state with
  | Some desc => desc
  | None => state +:+ " - Unknown connection state"
  end.

(** What [processConnectionStats] returns, under the names of its local
    variables. *)
Module ConnectionStats.
Record t : Type := Make {
  protocols : gmap string Z;
  services : gmap string Z;
  connStates : gmap string Z;
  uniqueIPs : gmap string bool;
  totalBytes : Z;
  startTime : Z;
  endTime : Z
}.
End ConnectionStats.

(** [m[k]++] on a [map[string]int]. *)
Definition incr (m : gmap string Z) (k : string) : gmap string Z :=
  <[k := Go.wrap64 (default 0 (m !! k) + 1)]> m.

Definition unset : Z := F64.of_int (-1).

(** [processConnectionStats] processes connections and calculates
    statistics. *)
Definition processConnectionStats (connections : list Connection.t)
    : ConnectionStats.t :=
  fold_left
    (fun st conn =>
       let protocols := incr (ConnectionStats.protocols st) (Connection.Protocol conn) in
       let services :=
         if negb (bool_decide (Connection.Service conn = ""))
         then incr (ConnectionStats.services st) (Connection.Service conn)
         else ConnectionStats.services st in
       let connStates := incr (ConnectionStats.connStates st) (Connection.ConnState conn) in
       let uniqueIPs := <[Connection.OrigHost conn := true]> (ConnectionStats.uniqueIPs st) in
       let uniqueIPs := <[Connection.RespHost conn := true]> uniqueIPs in
       let totalBytes :=
         Go.wrap64 (ConnectionStats.totalBytes st + Connection.TotalBytes conn) in
       let startTime :=
         if F64.eqb (ConnectionStats.startTime st) unset ||
            F64.ltb (Connection.Timestamp conn) (ConnectionStats.startTime st)
         then Connection.Timestamp conn else ConnectionStats.startTime st in
       let endTime :=
         if F64.eqb (ConnectionStats.endTime st) unset ||
            F64.ltb (ConnectionStats.endTime st) (Connection.Timestamp conn)
         then Connection.Timestamp conn else ConnectionStats.endTime st in
       {| ConnectionStats.protocols := protocols;
          ConnectionStats.services := services;
          ConnectionStats.connStates := connStates;
          ConnectionStats.uniqueIPs := uniqueIPs;
          ConnectionStats.totalBytes := totalBytes;
          ConnectionStats.startTime := startTime;
          ConnectionStats.endTime := endTime |})
    connections
    {| ConnectionStats.protocols := ∅; ConnectionStats.services := ∅;
       ConnectionStats.connStates := ∅; ConnectionStats.uniqueIPs := ∅;
       ConnectionStats.totalBytes := 0;
       ConnectionStats.startTime := unset; ConnectionStats.endTime := unset |}.

(** One entry of available_conn_states. *)
Module StateDescription.
Record t : Type := Make {
  code : string;
  description : string;
  count : Z
}.
End StateDescription.

(** [less] is [countI > countJ]. *)
Definition byCountDesc (x y : StateDescription.t) : Prop :=
  StateDescription.count y ≤ StateDescription.count x.

#[global] Instance byCountDesc_dec : RelDecision byCountDesc :=
  fun x y => Z_le_dec (StateDescription.count y) (StateDescription.count x).

(** [buildConnStateDescriptions] builds the available connection states
    with descriptions, sorted by count (descending). *)
Definition buildConnStateDescriptions (rho : Go.shuffle)
    (connStates : gmap string Z) : list StateDescription.t :=
  let availableStates :=
    (fun kv : string * Z =>
       {| StateDescription.code := kv.1;
          StateDescription.description := getConnStateDescription kv.1;
          StateDescription.count := kv.2 |}) <$> Go.range rho connStates in
  Go.sort_Slice rho byCountDesc availableStates.

Module TimeRange.
Record t : Type := Make {
  start : Z;
  end_ : Z;
  (** [endTime - startTime]; [None] when the difference is an
      infinity. *)
  duration : option Z
}.
End TimeRange.

Module CurrentFile.
Record t : Type := Make {
  id : string;
  filename : string;
  upload_time : Z;
  size : Z
}.
End CurrentFile.

Module Stats.
Record t : Type := Make {
  total_connections : Z;
  protocols : gmap string Z;
  services : gmap string Z;
  conn_states : gmap string Z;
  total_bytes : Z;
  unique_ip_count : Z;
  time_range : TimeRange.t;
  available_conn_states : list StateDescription.t;
  current_file : option CurrentFile.t;
  total_files : Z
}.
End Stats.

(** [GetStats] returns summary statistics. *)
Definition GetStats (rho : Go.shuffle) (a : API.t) : Stats.t :=
  let connections := getCurrentConnections a in
  let st := processConnectionStats connections in
  {| Stats.total_connections := Z.of_nat (length connections);
     Stats.protocols := ConnectionStats.protocols st;
     Stats.services := ConnectionStats.services st;
     Stats.conn_states := ConnectionStats.connStates st;
     Stats.total_bytes := ConnectionStats.totalBytes st;
     Stats.unique_ip_count := Z.of_nat (size (ConnectionStats.uniqueIPs st));
     Stats.time_range :=
       {| TimeRange.start := ConnectionStats.startTime st;
          TimeRange.end_ := ConnectionStats.endTime st;
          TimeRange.duration :=
            F64.sub (ConnectionStats.endTime st) (ConnectionStats.startTime st) |};
     Stats.available_conn_states :=
       buildConnStateDescriptions rho (ConnectionStats.connStates st);
     Stats.current_file :=
       if bool_decide (API.currentFileID a = "") then None
       else
         (fun currentFile =>
            {| CurrentFile.id := API.currentFileID a;
               CurrentFile.filename := FileData.Filename currentFile;
               CurrentFile.upload_time := FileData.UploadTime currentFile;
               CurrentFile.size := FileData.Size currentFile |})
         <$> API.files a !! API.currentFileID a;
     Stats.total_files := Z.of_nat (size (API.files a)) |}.

Module FileInfo.
Record t : Type := Make {
  ID : string;
  Filename : string;
  UploadTime : Z;
  Size : Z;
  ConnectionCount : Z;
  IsCurrent : bool
}.
End FileInfo.

(** [less] is [files[i].UploadTime > files[j].UploadTime]. *)
Definition byUploadTimeDesc (x y : FileInfo.t) : Prop :=
  FileInfo.UploadTime y ≤ FileInfo.UploadTime x.

#[global] Instance byUploadTimeDesc_dec : RelDecision byUploadTimeDesc :=
  fun x y => Z_le_dec (FileInfo.UploadTime y) (FileInfo.UploadTime x).

Module FilesResponse.
Record t : Type := Make {
  files : list FileInfo.t;
  current_file : string;
  total_files : Z
}.
End FilesResponse.

(** [GetFiles] returns list of all uploaded files, most recent first. *)
Definition GetFiles (rho : Go.shuffle) (a : API.t) : FilesResponse.t :=
  let files :=
    (fun kv : string * FileData.t =>
       {| FileInfo.ID := kv.1;
          FileInfo.Filename := FileData.Filename kv.2;
          FileInfo.UploadTime := FileData.UploadTime kv.2;
          FileInfo.Size := FileData.Size kv.2;
          FileInfo.ConnectionCount :=
            Z.of_nat (length (FileData.Connections kv.2));
          FileInfo.IsCurrent := bool_decide (kv.1 = API.currentFileID a) |})
    <$> Go.range rho (API.files a) in
  let files := Go.sort_Slice rho byUploadTimeDesc files in
  {| FilesResponse.files := files;
     FilesResponse.current_file := API.currentFileID a;
     FilesResponse.total_files := Z.of_nat (length files) |}.

(** The body of a switch or delete request as
    [json.NewDecoder(r.Body).Decode(&request)] leaves it: an error, or the
    request with its [FileID] (empty when the body has no file_id). *)
Inductive requestBody : Type :=
| InvalidJSON
| Request (FileID : string).

Module SwitchResponse.
Record t : Type := Make {
  success : bool;
  message : string;
  current_file : string;
  filename : string;
  connections_count : Z
}.
End SwitchResponse.

(** [SwitchFile] changes the currently active file. *)
Definition SwitchFile (a : API.t) (method : string) (body : requestBody)
    : API.t * response SwitchResponse.t :=
  if negb (bool_decide (method = "POST"))
  then (a, HttpError StatusMethodNotAllowed "Method not allowed")
  else
    match body with
    | InvalidJSON => (a, HttpError StatusBadRequest "Invalid JSON body")
    | Request FileID =>
        if bool_decide (FileID = "")
        then (a, HttpError StatusBadRequest "File ID is required")
        else
          match API.files a !! FileID with
          | None => (a, HttpError StatusNotFound "File not found")
          | Some currentFile =>
              ({| API.files := API.files a;
                  API.currentFileID := FileID;
                  API.logPath := API.logPath a |},
               Json {| SwitchResponse.success := true;
                       SwitchResponse.message :=
                         "Switched to " +:+ FileData.Filename currentFile;
                       SwitchResponse.current_file := FileID;
                       SwitchResponse.filename := FileData.Filename currentFile;
                       SwitchResponse.connections_count :=
                         Z.of_nat (length (FileData.Connections currentFile)) |})
          end
    end.

Module DeleteResponse.
Record t : Type := Make {
  success : bool;
  message : string;
  current_file : string;
  total_files : Z
}.
End DeleteResponse.

(** [DeleteFile] removes a file from memory.  When the deleted file was
    the current one, the first key the runtime ranges over becomes
    current. *)
Definition DeleteFile (rho : Go.shuffle) (a : API.t) (method : string)
    (body : requestBody) : API.t * response DeleteResponse.t :=
  if negb (bool_decide (method = "DELETE")) && negb (bool_decide (method = "POST"))
  then (a, HttpError StatusMethodNotAllowed "Method not allowed")
  else
    match body with
    | InvalidJSON => (a, HttpError StatusBadRequest "Invalid JSON body")
    | Request FileID =>
        if bool_decide (FileID = "")
        then (a, HttpError StatusBadRequest "File ID is required")
        else
          match API.files a !! FileID with
          | None => (a, HttpError StatusNotFound "File not found")
          | Some fileData =>
              if bool_decide (size (API.files a) ≤ 1)%nat
              then (a, HttpError StatusBadRequest
                         "Cannot delete the only remaining file")
              else
                let filename := FileData.Filename fileData in
                let files := delete FileID (API.files a) in
                let currentFileID :=
                  if bool_decide (API.currentFileID a = FileID)
                  then
                    match Go.range rho files with
                    | (fileID, _) :: _ => fileID
                    | [] => API.currentFileID a
                    end
                  else API.currentFileID a in
                ({| API.files := files;
                    API.currentFileID := currentFileID;
                    API.logPath := API.logPath a |},
                 Json {| DeleteResponse.success := true;
                         DeleteResponse.message := "Deleted " +:+ filename;
                         DeleteResponse.current_file := currentFileID;
                         DeleteResponse.total_files := Z.of_nat (size files) |})
          end
    end.

(** The stores a running server can hold: [NewAPI], then any sequence of
    loads, uploads, switches and deletions, each with whatever the
    environment supplies (request, clock, iteration order). *)
Inductive reachable : API.t → Prop :=
| reach_NewAPI (logPath : string) :
    reachable (NewAPI logPath)
| reach_LoadConnections (a : API.t) (opened : option bufio.Scanner.t) (now : Z) :
    reachable a → reachable (LoadConnections a opened now).1
| reach_UploadFile (a : API.t) (method : string) (form : uploadForm) (now : Z) :
    reachable a → reachable (UploadFile a method form now).1
| reach_SwitchFile (a : API.t) (method : string) (body : requestBody) :
    reachable a → reachable (SwitchFile a method body).1
| reach_DeleteFile (rho : Go.shuffle) (a : API.t) (method : string)
    (body : requestBody) :
    Go.permutes rho → reachable a → reachable (DeleteFile rho a method body).1.

End handlers.

Import models handlers.

(** Machine arithmetic stays folded under [simpl] and [cbn]. *)
Arguments F64.unit : simpl never.
Arguments F64.round : simpl never.
Arguments F64.of_int : simpl never.
Arguments F64.to_int64 : simpl never.
Arguments F64.div : simpl never.
Arguments F64.sub : simpl never.
Arguments F64.mul : simpl never.
Arguments Go.wrap64 : simpl never.
Arguments generateFileID : simpl never.

(** * Notions the statements use *)

(** [starts_with p s]: the string [s] begins with [p]. *)
Definition starts_with (p s : string) : Prop := ∃ rest, s = p +:+ rest.

(** The locality classes as the specification lists them: the prefixes, the
    loopback address "::1" set apart as an exact literal. *)
Definition listedPrefixes : list string :=
  ["192.168."; "10.";
   "172.16."; "172.17."; "172.18."; "172.19.";
   "172.20."; "172.21."; "172.22."; "172.23.";
   "172.24."; "172.25."; "172.26."; "172.27.";
   "172.28."; "172.29."; "172.30."; "172.31.";
   "127."; "fe80::"].

Definition listedLocal (ip : string) : bool :=
  existsb (fun p => String.prefix p ip) listedPrefixes || String.eqb ip "::1".

(** The whole-second timestamp of a record. *)
Definition wholeSecond (c : Connection.t) : Z :=
  F64.to_int64 (Connection.Timestamp c).

(** "No filter": the empty string and the sentinel "all". *)
Definition noFilter (s : string) : Prop := s = "" ∨ s = "all".

#[global] Instance noFilter_dec s : Decision (noFilter s).
Proof. unfold noFilter. apply _. Defined.

(** No records are current: no session is selected, the selected id names
    no session, or the selected session holds no record. *)
Definition noCurrentRecords (a : API.t) : Prop :=
  API.currentFileID a = "" ∨
  API.files a !! API.currentFileID a = None ∨
  ∃ fileData, API.files a !! API.currentFileID a = Some fileData ∧
              FileData.Connections fileData = [].

(** What a store keeps true: no session is filed under the empty id, and
    the current id names a session as soon as there is one. *)
Definition store_ok (a : API.t) : Prop :=
  API.files a !! "" = None ∧
  (API.files a ≠ ∅ → is_Some (API.files a !! API.currentFileID a)).

(** The empty upload used in the examples. *)
Definition emptyFile : bufio.Scanner.t :=
  {| bufio.Scanner.Lines := []; bufio.Scanner.Err := false |}.

(** A recognized field read on its own: the value under its key when it
    has the expected JSON type, the zero value when the key is absent or
    holds a value of another type. *)
Definition stringField (raw : gmap string json.any) (key : string) : string :=
  match raw !! key with Some (json.Str s) => s | _ => "" end.

Definition floatField (raw : gmap string json.any) (key : string) : Z :=
  match raw !! key with Some (json.Float64 f) => f | _ => 0 end.

Definition intField (raw : gmap string json.any) (key : string) : Z :=
  match raw !! key with Some (json.Float64 f) => F64.to_int64 f | _ => 0 end.

Definition boolField (raw : gmap string json.any) (key : string) : bool :=
  match raw !! key with Some (json.Bool b) => b | _ => false end.

(** The record the specification describes: every recognized field
    extracted independently of the others. *)
Definition fieldwise (raw : gmap string json.any) : Connection.t :=
  {|
     Connection.Timestamp := floatField raw "ts";
     Connection.UID := stringField raw "uid";
     Connection.OrigHost := stringField raw "id.orig_h";
     Connection.OrigPort := intField raw "id.orig_p";
     Connection.RespHost := stringField raw "id.resp_h";
     Connection.RespPort := intField raw "id.resp_p";
     Connection.Protocol := stringField raw "proto";
     Connection.Service := stringField raw "service";
     Connection.Duration := floatField raw "duration";
     Connection.OrigBytes := intField raw "orig_bytes";
     Connection.RespBytes := intField raw "resp_bytes";
     Connection.ConnState := stringField raw "conn_state";
     Connection.LocalOrig := boolField raw "local_orig";
     Connection.LocalResp := boolField raw "local_resp";
     Connection.MissedBytes := intField raw "missed_bytes";
     Connection.History := stringField raw "history";
     Connection.OrigPackets := intField raw "orig_pkts";
     Connection.OrigIPBytes := intField raw "orig_ip_bytes";
     Connection.RespPackets := intField raw "resp_pkts";
     Connection.RespIPBytes := intField raw "resp_ip_bytes";
     Connection.IPProtocol := intField raw "ip_proto" |}.

(** Example lines are written with ' where JSON has its double quote. *)
Fixpoint quoted (s : string) : string :=
  match s with
  | EmptyString => EmptyString
  | String c r =>
      String (if Bytes.code c =? 39 then Bytes.char 34 else c) (quoted r)
  end.

(** A line that is a JSON object, by the grammar alone. *)
Definition isJSONObject (line : string) : bool :=
  match json.parse line with Some (json.VObject _) => true | _ => false end.

(** What the scanning loop makes of one line: a record, a logged failure,
    or nothing. *)
Definition recordOf (line : string) : option Connection.t :=
  if strings.TrimSpace_is_empty line then None
  else match UnmarshalConnection line with inr c => Some c | inl _ => None end.

Definition failureOf (line : string) : option logEvent :=
  if strings.TrimSpace_is_empty line then None
  else match UnmarshalConnection line with
       | inr _ => None
       | inl err => Some (LogFailedToParse err)
       end.

(** The two records of the worked example: A to B over tcp at 100 s and
    105 s, 10 and 5 bytes sent. *)
Definition exampleRecord (ts bytes : Z) : Connection.t :=
  {| Connection.Timestamp := F64.of_int ts; Connection.UID := "";
     Connection.OrigHost := "A"; Connection.OrigPort := 0;
     Connection.RespHost := "B"; Connection.RespPort := 0;
     Connection.Protocol := "tcp"; Connection.Service := "";
     Connection.Duration := 0; Connection.OrigBytes := bytes;
     Connection.RespBytes := 0; Connection.ConnState := "SF";
     Connection.LocalOrig := false; Connection.LocalResp := false;
     Connection.MissedBytes := 0; Connection.History := "";
     Connection.OrigPackets := 0; Connection.OrigIPBytes := 0;
     Connection.RespPackets := 0; Connection.RespIPBytes := 0;
     Connection.IPProtocol := 0 |}.

Definition exampleRecords : list Connection.t :=
  [exampleRecord 100 10; exampleRecord 105 5].

(** Two uploads, a second apart: the store the deletion example starts
    from. *)
Definition twoSessions : API.t :=
  (UploadFile
     (UploadFile (NewAPI "") "POST" (FormFile "conn.log" 0 emptyFile) 0).1
     "POST" (FormFile "conn.log" 0 emptyFile) 1).1.

(** The bytes of a group of records, before the wrap-around of the
    accumulator. *)
Definition sumBytes (l : list Connection.t) : Z :=
  foldr (fun c s => Connection.TotalBytes c + s) 0 l.

(** The records of [conns] that fall into bucket [b]. *)
Definition inBucket (b : Z) (conns : list Connection.t) : list Connection.t :=
  filter (fun c => bucketOf c = b) conns.

(** The point of bucket [b]: how many records fall into it and their
    bytes, as 64-bit integers. *)
Definition bucketPoint (b : Z) (conns : list Connection.t) : TimelinePoint.t :=
  {| TimelinePoint.Timestamp := b;
     TimelinePoint.Count := Go.wrap64 (Z.of_nat (length (inBucket b conns)));
     TimelinePoint.Bytes := Go.wrap64 (sumBytes (inBucket b conns));
     TimelinePoint.Protocol := "";
     TimelinePoint.Connections := [] |}.

(** The records of [conns] whose edge key is [k]. *)
Definition withKey (k : string) (conns : list Connection.t) : list Connection.t :=
  filter (fun c => edgeKey c = k) conns.

(** The edge of a group of records: hosts, protocol and service of the
    first one, count and bytes of all. *)
Definition edgeOf (first : Connection.t) (group : list Connection.t) : Edge.t :=
  {| Edge.Source := Connection.OrigHost first;
     Edge.Target := Connection.RespHost first;
     Edge.Protocol := Connection.Protocol first;
     Edge.Service := Connection.Service first;
     Edge.Count := Go.wrap64 (Z.of_nat (length group));
     Edge.TotalBytes := Go.wrap64 (sumBytes group);
     Edge.Weight :=
       F64.div (F64.of_int (Go.wrap64 (sumBytes group))) bytesScaleFactor |}.

Definition edgeFor (k : string) (conns : list Connection.t) : option Edge.t :=
  match withKey k conns with
  | [] => None
  | first :: rest => Some (edgeOf first (first :: rest))
  end.

Definition pointFor (b : Z) (conns : list Connection.t) : option TimelinePoint.t :=
  match inBucket b conns with
  | [] => None
  | _ :: _ => Some (bucketPoint b conns)
  end.

(** A record with the smallest, respectively the largest, timestamp. *)
Definition earliest (conns : list Connection.t) (c : Connection.t) : Prop :=
  c ∈ conns ∧ ∀ d, d ∈ conns → Connection.Timestamp c ≤ Connection.Timestamp d.

Definition latest (conns : list Connection.t) (c : Connection.t) : Prop :=
  c ∈ conns ∧ ∀ d, d ∈ conns → Connection.Timestamp d ≤ Connection.Timestamp c.


(** The identity the specification gives an edge. *)
Definition triple (c : Connection.t) : string * string * string :=
  (Connection.OrigHost c, Connection.RespHost c, Connection.Protocol c).

Fixpoint hasHyphen (s : string) : bool :=
  match s with
  | EmptyString => false
  | String c r => (Bytes.code c =? 45) || hasHyphen r
  end.

(** Neither host of the record holds a hyphen. *)
Definition plainHosts (c : Connection.t) : Prop :=
  hasHyphen (Connection.OrigHost c) = false ∧
  hasHyphen (Connection.RespHost c) = false.

(** Two records over tcp whose hosts hold hyphens: a-b to c, and a to
    b-c. *)
Definition hyphenRecord (orig resp : string) : Connection.t :=
  {| Connection.Timestamp := 0; Connection.UID := "";
     Connection.OrigHost := orig; Connection.OrigPort := 0;
     Connection.RespHost := resp; Connection.RespPort := 0;
     Connection.Protocol := "tcp"; Connection.Service := "";
     Connection.Duration := 0; Connection.OrigBytes := 0;
     Connection.RespBytes := 0; Connection.ConnState := "";
     Connection.LocalOrig := false; Connection.LocalResp := false;
     Connection.MissedBytes := 0; Connection.History := "";
     Connection.OrigPackets := 0; Connection.OrigIPBytes := 0;
     Connection.RespPackets := 0; Connection.RespIPBytes := 0;
     Connection.IPProtocol := 0 |}.

(** The store after the two lines of the worked example have been
    uploaded. *)
Definition exampleStore : API.t :=
  (UploadFile (NewAPI "") "POST"
     (FormFile "conn.log" 0
        {| bufio.Scanner.Lines :=
             [quoted "{'ts':100,'proto':'tcp','id.orig_h':'A','id.resp_h':'B','orig_bytes':10,'resp_bytes':0,'conn_state':'SF'}";
              quoted "{'ts':105,'proto':'tcp','id.orig_h':'A','id.resp_h':'B','orig_bytes':5,'resp_bytes':0,'conn_state':'SF'}"];
           bufio.Scanner.Err := false |})
     0).1.


(** A lower-case hexadecimal digit: 0 to 9, a to f. *)
Definition isLowerHex (c : ascii) : bool :=
  let b := Bytes.code c in
  ((48 <=? b) && (b <=? 57)) || ((97 <=? b) && (b <=? 102)).

(** Every character of [s] satisfies [p]. *)
Fixpoint allOf (p : ascii → bool) (s : string) : bool :=
  match s with
  | EmptyString => true
  | String c r => p c && allOf p r
  end.

(** The string holds an underscore (byte 95). *)
Fixpoint hasUnderscore (s : string) : bool :=
  match s with
  | EmptyString => false
  | String c r => (Bytes.code c =? 95) || hasUnderscore r
  end.

(** Every session is filed under the id derived from its own name and
    upload time. *)
Definition ids_derived (a : API.t) : Prop :=
  ∀ id fileData, API.files a !! id = Some fileData →
    id = generateFileID (FileData.Filename fileData) (FileData.UploadTime fileData).

(** The entry [GetFiles] lists for the session [fileData] filed under
    [id]. *)
Definition fileInfo (a : API.t) (id : string) (fileData : FileData.t) : FileInfo.t :=
  {| FileInfo.ID := id;
     FileInfo.Filename := FileData.Filename fileData;
     FileInfo.UploadTime := FileData.UploadTime fileData;
     FileInfo.Size := FileData.Size fileData;
     FileInfo.ConnectionCount := Z.of_nat (length (FileData.Connections fileData));
     FileInfo.IsCurrent := bool_decide (id = API.currentFileID a) |}.

(** The time window of a query: open when a bound is missing or is no
    decimal int64. *)
Definition inWindow (startTime endTime : string) (c : Connection.t) : Prop :=
  match strconv.ParseInt startTime, strconv.ParseInt endTime with
  | Some start, Some end_ => start ≤ wholeSecond c ≤ end_
  | _, _ => True
  end.

#[global] Instance inWindow_dec startTime endTime c :
  Decision (inWindow startTime endTime c).
Proof.
  unfold inWindow.
  destruct (strconv.ParseInt startTime), (strconv.ParseInt endTime); apply _.
Defined.

(** The records a query selects: inside the window, of the protocol and
    of the state asked for. *)
Definition selected (startTime endTime protocol connState : string)
    (c : Connection.t) : Prop :=
  inWindow startTime endTime c ∧
  (noFilter protocol ∨ Connection.Protocol c = protocol) ∧
  (noFilter connState ∨ Connection.ConnState c = connState).

#[global] Instance selected_dec startTime endTime protocol connState c :
  Decision (selected startTime endTime protocol connState c).
Proof. unfold selected. apply _. Defined.

(** How many records of [conns] have [k] as their [key], as the loop
    [m[key]++] counts them: no entry when there is none. *)
Definition tally (key : Connection.t → string) (conns : list Connection.t)
    (k : string) : option Z :=
  match filter (fun c => key c = k) conns with
  | [] => None
  | (_ :: _) as group => Some (Go.wrap64 (Z.of_nat (length group)))
  end.

(** The hosts of [conns]: every origin and every responder. *)
Definition hostsOf (conns : list Connection.t) : gset string :=
  list_to_set
    (flat_map (fun c => [Connection.OrigHost c; Connection.RespHost c]) conns).

(** What the loop of [processConnectionStats] has computed after the
    records [l], the time range apart. *)
Definition summarizes (l : list Connection.t) (st : ConnectionStats.t) : Prop :=
  (∀ p, ConnectionStats.protocols st !! p = tally Connection.Protocol l p) ∧
  (∀ s, ConnectionStats.services st !! s
        = if decide (s = "") then None else tally Connection.Service l s) ∧
  (∀ s, ConnectionStats.connStates st !! s = tally Connection.ConnState l s) ∧
  ConnectionStats.uniqueIPs st = gset_to_gmap true (hostsOf l) ∧
  ConnectionStats.totalBytes st = Go.wrap64 (sumBytes l).

(** The time range after the records [l]: both ends are timestamps of
    records, they enclose the last record, and they enclose every record
    when no timestamp is the value [unset]. *)
Definition ranges (l : list Connection.t) (st : ConnectionStats.t) : Prop :=
  match last l with
  | None => ConnectionStats.startTime st = unset ∧ ConnectionStats.endTime st = unset
  | Some c =>
      (∃ d, d ∈ l ∧ ConnectionStats.startTime st = Connection.Timestamp d) ∧
      (∃ d, d ∈ l ∧ ConnectionStats.endTime st = Connection.Timestamp d) ∧
      ConnectionStats.startTime st ≤ Connection.Timestamp c
        ≤ ConnectionStats.endTime st ∧
      ((∀ d, d ∈ l → Connection.Timestamp d ≠ unset) →
       ∀ d, d ∈ l → ConnectionStats.startTime st ≤ Connection.Timestamp d
                    ≤ ConnectionStats.endTime st)
  end.

(** The sum of a list of integers. *)
Definition sumZ (l : list Z) : Z := foldr Z.add 0 l.

(** The entry of available_conn_states for a state and its count. *)
Definition stateDescription (code : string) (count : Z) : StateDescription.t :=
  {| StateDescription.code := code;
     StateDescription.description := getConnStateDescription code;
     StateDescription.count := count |}.

(** The records of [conns] that [host] originates, and those it answers. *)
Definition asOrigin (host : string) (conns : list Connection.t)
    : list Connection.t :=
  filter (fun c => Connection.OrigHost c = host) conns.

Definition asResponder (host : string) (conns : list Connection.t)
    : list Connection.t :=
  filter (fun c => Connection.RespHost c = host) conns.

(** The node of [host]: a record counts once for its origin and once for
    its responder, twice for a host that is both. *)
Definition nodeOf (host : string) (conns : list Connection.t) : Node.t :=
  {| Node.ID := host; Node.Label := host;
     Node.Connections :=
       Go.wrap64 (Z.of_nat (length (asOrigin host conns)) +
                  Z.of_nat (length (asResponder host conns)));
     Node.TotalBytes :=
       Go.wrap64 (sumBytes (asOrigin host conns) +
                  sumBytes (asResponder host conns));
     Node.IsLocal := IsLocalIP host;
     Node.X := 0; Node.Y := 0 |}.

Definition nodeFor (host : string) (conns : list Connection.t) : option Node.t :=
  if decide (host ∈ hostsOf conns) then Some (nodeOf host conns) else None.

(** The calls of [processNode], in order: host and bytes. *)
Definition endpoints (conns : list Connection.t) : list (string * Z) :=
  flat_map (fun c => [(Connection.OrigHost c, Connection.TotalBytes c);
                      (Connection.RespHost c, Connection.TotalBytes c)]) conns.

(** The calls that name [host]. *)
Definition visits (host : string) (calls : list (string * Z)) : list (string * Z) :=
  filter (fun e => e.1 = host) calls.

(** The node of [host] after the calls [calls]. *)
Definition nodeVia (host : string) (calls : list (string * Z)) : option Node.t :=
  match visits host calls with
  | [] => None
  | (_ :: _) as v =>
      Some {| Node.ID := host; Node.Label := host;
              Node.Connections := Go.wrap64 (Z.of_nat (length v));
              Node.TotalBytes := Go.wrap64 (sumZ v.*2);
              Node.IsLocal := IsLocalIP host;
              Node.X := 0; Node.Y := 0 |}
  end.

(** The keys [UnmarshalConnection] reads. *)
Definition recognizedKeys : list string :=
  ["ts"; "uid"; "id.orig_h"; "id.orig_p"; "id.resp_h"; "id.resp_p"; "proto";
   "service"; "duration"; "orig_bytes"; "resp_bytes"; "conn_state";
   "local_orig"; "local_resp"; "missed_bytes"; "history"; "orig_pkts";
   "orig_ip_bytes"; "resp_pkts"; "resp_ip_bytes"; "ip_proto"].

(** * The library models on known values *)

Example Sum256_abc :
  hex.EncodeToString (sha256.Sum256 (Bytes.of_string "abc"))
  = "ba7816bf8f01cfea414140de5dae2223b00361a396177a9cb410ff61f20015ad".
Proof. by vm_compute. Qed.

Example generateFileID_conn_log :
  generateFileID "conn.log" 1700000000 = "ab56d431743ec876".
Proof. by vm_compute. Qed.

(** 0.1 is read as the binary64 number 0x1.999999999999ap-4, and 100.5
    truncates to 100. *)
Example convertNumber_tenth :
  json.convertNumber false 1 (-1) = Some (3602879701896397 * 2 ^ (1074 - 55)) ∧
  F64.to_int64 <$> json.convertNumber false 1005 (-1) = Some 100 ∧
  F64.to_int64 <$> json.convertNumber true 1005 (-1) = Some (-100) ∧
  json.convertNumber false 1 999 = None.
Proof. by vm_compute. Qed.

Example of_int_beyond_53_bits :
  F64.of_int (2 ^ 53 + 1) = 2 ^ 53 * F64.unit ∧
  F64.of_int (2 ^ 53 + 3) = (2 ^ 53 + 4) * F64.unit.
Proof. by vm_compute. Qed.

Example ParseInt_values :
  strconv.ParseInt "-12" = Some (-12) ∧ strconv.ParseInt "+007" = Some 7 ∧
  strconv.ParseInt "" = None ∧ strconv.ParseInt "1.5" = None ∧
  strconv.ParseInt "1_0" = None ∧
  strconv.ParseInt "9223372036854775807" = Some Go.maxInt64 ∧
  strconv.ParseInt "9223372036854775808" = None ∧
  strconv.ParseInt "-9223372036854775808" = Some Go.minInt64.
Proof. by vm_compute. Qed.

Example parse_values :
  json.parse (quoted " {'a' : [1.5e2, true, null, 'x\u0041'] } ")
  = Some (json.VObject
            [("a", json.VArray [json.VNumber false 15 1; json.VTrue;
                                json.VNull; json.VString "xA"])]) ∧
  json.parse "01" = None ∧ json.parse "[1,]" = None ∧
  json.parse "nul" = None ∧ json.parse "{} x" = None.
Proof. by vm_compute. Qed.

(** The worked example of the graph: nodes A and B with two connections and
    15 bytes each, one edge from A to B with weight 0.015 (the binary64
    number nearest to it). *)
Example graph_of_the_example :
  buildNodesAndEdges Go.in_order exampleRecords
  = ([{| Node.ID := "A"; Node.Label := "A"; Node.Connections := 2;
         Node.TotalBytes := 15; Node.IsLocal := false;
         Node.X := 0; Node.Y := 0 |};
      {| Node.ID := "B"; Node.Label := "B"; Node.Connections := 2;
         Node.TotalBytes := 15; Node.IsLocal := false;
         Node.X := 0; Node.Y := 0 |}],
     [{| Edge.Source := "A"; Edge.Target := "B"; Edge.Protocol := "tcp";
         Edge.Service := ""; Edge.Count := 2; Edge.TotalBytes := 15;
         Edge.Weight := default 0 (json.convertNumber false 15 (-3)) |}]).
Proof. by vm_compute. Qed.

(** * Lists, strings and machine integers *)

Section loops.
Context {A : Type} (P : A → Prop) `{!∀ x, Decision (P x)}.

(** The Go idiom [for _, x := range l { if P(x) { out = append(out, x) } }]
    computes [filter P l]. *)
Lemma append_loop_filter (cond : A → bool) (l acc : list A) :
  (∀ x, cond x = true ↔ P x) →
  fold_left (fun out x => if cond x then out ++ [x] else out) l acc
  = acc ++ filter P l.
Proof.
  intros Hc. revert acc.
  induction l as [|x l IH]; intros acc; simpl.
  - by rewrite app_nil_r.
  - rewrite IH. destruct (cond x) eqn:E.
    + apply Hc in E. rewrite filter_cons_True by done.
      by rewrite <- app_assoc.
    + rewrite filter_cons_False; [done|].
      intros HP. apply Hc in HP. congruence.
Qed.
End loops.

Lemma substring_prefix (p s : string) :
  (String.length p ≤ String.length s)%nat ∧
  String.substring 0 (String.length p) s = p ↔ starts_with p s.
Proof.
  revert s. induction p as [|c p IH]; intros s.
  - split; [intros _; by exists s|].
    intros _. split; [simpl; lia|]. by destruct s.
  - destruct s as [|d s]; simpl.
    + split; [intros [? _]; lia|]. intros [rest ?]. discriminate.
    + split.
      * intros [Hl He]. injection He as -> He.
        destruct (proj1 (IH s)) as [rest ->]; [split; [lia|done]|].
        by exists rest.
      * intros [rest He]. simpl in He. injection He as -> ->.
        destruct (proj2 (IH (p +:+ rest))) as [Hl Hs]; [by exists rest|].
        split; [lia|]. by rewrite Hs.
Qed.

Lemma matchesPrefix_starts_with (ip p : string) :
  matchesPrefix ip p = true ↔ starts_with p ip.
Proof.
  rewrite <- substring_prefix. unfold matchesPrefix, Go.slice_to, Go.len.
  rewrite Nat2Z.id, andb_true_iff, bool_decide_eq_true, Z.leb_le.
  by rewrite <- Nat2Z.inj_le.
Qed.

Lemma wrap64_add_l (a b : Z) : Go.wrap64 (Go.wrap64 a + b) = Go.wrap64 (a + b).
Proof.
  unfold Go.wrap64.
  replace ((a + 2 ^ 63) mod 2 ^ 64 - 2 ^ 63 + b + 2 ^ 63)
    with ((a + 2 ^ 63) mod 2 ^ 64 + b) by lia.
  rewrite Zplus_mod_idemp_l. f_equal. f_equal. lia.
Qed.

Lemma wrap64_add_r (a b : Z) : Go.wrap64 (a + Go.wrap64 b) = Go.wrap64 (a + b).
Proof. by rewrite Z.add_comm, wrap64_add_l, Z.add_comm. Qed.

Lemma wrap64_idemp (a : Z) : Go.wrap64 (Go.wrap64 a) = Go.wrap64 a.
Proof.
  rewrite <- (Z.add_0_r (Go.wrap64 a)) at 1.
  by rewrite wrap64_add_l, Z.add_0_r.
Qed.

Lemma wrap64_small (a : Z) : - 2 ^ 63 ≤ a < 2 ^ 63 → Go.wrap64 a = a.
Proof. intros. unfold Go.wrap64. rewrite Z.mod_small; lia. Qed.

(** * The locality classifier *)

Lemma IsLocalIP_loop (ip : string) (l : list string) :
  (fix loop (l : list string) : bool :=
     match l with
     | [] => false
     | prefix :: rest => if matchesPrefix ip prefix then true else loop rest
     end) l = true
  ↔ ∃ p, p ∈ l ∧ starts_with p ip.
Proof.
  induction l as [|q l IH].
  - split; [done|]. intros (p & Hp & _). by apply elem_of_nil in Hp.
  - destruct (matchesPrefix ip q) eqn:E.
    + split; [|done]. intros _. exists q. split; [left|].
      by apply matchesPrefix_starts_with.
    + rewrite IH. split.
      * intros (p & Hp & Hs). exists p. split; [by right|done].
      * intros (p & Hp & Hs). apply elem_of_cons in Hp as [->|Hp].
        -- apply matchesPrefix_starts_with in Hs. congruence.
        -- by exists p.
Qed.

(** C8, as amended: [IsLocalIP] holds of exactly the strings that start
    with one of the entries of [localPrefixes], the entry "::1" included:
    "::1" is matched as a prefix like the others, not as an exact literal.
    The empty string is not local. *)
Theorem IsLocalIP_prefixes (ip : string) :
  (IsLocalIP ip = true ↔ ∃ p, p ∈ localPrefixes ∧ starts_with p ip) ∧
  localPrefixes = listedPrefixes ++ ["::1"] ∧
  IsLocalIP "" = false.
Proof.
  split; [|done].
  unfold IsLocalIP. case_bool_decide as He.
  - subst ip. split; [done|]. intros (p & Hp & rest & Hs).
    unfold localPrefixes in Hp.
    repeat (apply elem_of_cons in Hp as [->|Hp]; [discriminate|]).
    by apply elem_of_nil in Hp.
  - apply IsLocalIP_loop.
Qed.

(** C8, counterexample: "::1234" is classified as local although it starts
    with none of the listed prefixes and is not the literal "::1". *)
Lemma IsLocalIP_loopback_is_a_prefix :
  ¬ (∀ ip, IsLocalIP ip = listedLocal ip).
Proof. intros H. specialize (H "::1234"). vm_compute in H. discriminate. Qed.

(** * The filter pipeline *)

Lemma applyProtocolFilter_filter (r : list Connection.t) (P : string) :
  applyProtocolFilter r P
  = if decide (noFilter P) then r
    else filter (fun c => Connection.Protocol c = P) r.
Proof.
  unfold applyProtocolFilter, allProtocol, noFilter.
  destruct (decide _) as [[->| ->]|Hn]; [done..|].
  repeat case_bool_decide; simpl; try tauto.
  rewrite (append_loop_filter (fun c => Connection.Protocol c = P)); [done|].
  intros c. apply bool_decide_eq_true.
Qed.

Lemma applyConnStateFilter_filter (r : list Connection.t) (S : string) :
  applyConnStateFilter r S
  = if decide (noFilter S) then r
    else filter (fun c => Connection.ConnState c = S) r.
Proof.
  unfold applyConnStateFilter, allProtocol, noFilter.
  destruct (decide _) as [[->| ->]|Hn]; [done..|].
  repeat case_bool_decide; simpl; try tauto.
  rewrite (append_loop_filter (fun c => Connection.ConnState c = S)); [done|].
  intros c. apply bool_decide_eq_true.
Qed.

Lemma applyTimeFilter_no_bounds (r : list Connection.t) :
  applyTimeFilter r "" "" = r.
Proof. done. Qed.

(** C7: filtering on protocol and state at once is filtering on the
    protocol and then on the state; "" and "all" switch a criterion off;
    the result is the list of the records that match both criteria, in
    their order, and it is the empty list when none matches. *)
Theorem filter_composition (r : list Connection.t) (P S : string) :
  filterConnections r "" "" P S
  = filterConnections (filterConnections r "" "" P "") "" "" "" S
  ∧ filterConnections r "" "" P S
    = filter (fun c => (noFilter P ∨ Connection.Protocol c = P) ∧
                       (noFilter S ∨ Connection.ConnState c = S)) r
  ∧ applyProtocolFilter r "" = r ∧ applyProtocolFilter r "all" = r
  ∧ applyConnStateFilter r "" = r ∧ applyConnStateFilter r "all" = r
  ∧ filterConnections [] "" "" P S = [].
Proof.
  unfold filterConnections. rewrite !applyTimeFilter_no_bounds.
  change (applyConnStateFilter (applyProtocolFilter r P) "")
    with (applyProtocolFilter r P).
  change (applyProtocolFilter (applyProtocolFilter r P) "")
    with (applyProtocolFilter r P).
  split_and!; try done.
  - rewrite applyProtocolFilter_filter, applyConnStateFilter_filter.
    destruct (decide (noFilter P)) as [HP|HP], (decide (noFilter S)) as [HS|HS].
    + symmetry. induction r as [|c r IH]; [done|].
      rewrite filter_cons_True by tauto. by rewrite IH.
    + apply list_filter_iff. tauto.
    + apply list_filter_iff. tauto.
    + rewrite list_filter_filter. apply list_filter_iff. tauto.
  - rewrite applyProtocolFilter_filter, applyConnStateFilter_filter.
    by destruct (decide (noFilter P)), (decide (noFilter S)).
Qed.

Lemma ParseInt_empty : strconv.ParseInt "" = None.
Proof. done. Qed.


(** * The stats summarizer on an empty record set *)

Lemma getCurrentConnections_empty (a : API.t) :
  getCurrentConnections a = [] ↔ noCurrentRecords a.
Proof.
  unfold getCurrentConnections, noCurrentRecords.
  case_bool_decide as Hc; [by split; [left|]|].
  destruct (API.files a !! API.currentFileID a) as [fileData|] eqn:E.
  - split; [intros H; right; right; by exists fileData|].
    intros [?|[?|(fd & [= <-] & ?)]]; done.
  - split; [by right; left|done].
Qed.

(** C10: when no records are current (no current session, or a session
    with zero records) the summary has start = end = -1, duration 0, all
    counters 0 and empty distributions. *)
Theorem GetStats_no_records (rho : Go.shuffle) (a : API.t) :
  noCurrentRecords a →
  let stats := GetStats rho a in
  TimeRange.start (Stats.time_range stats) = F64.of_int (-1) ∧
  TimeRange.end_ (Stats.time_range stats) = F64.of_int (-1) ∧
  TimeRange.duration (Stats.time_range stats) = Some (F64.of_int 0) ∧
  Stats.total_connections stats = 0 ∧
  Stats.total_bytes stats = 0 ∧
  Stats.unique_ip_count stats = 0 ∧
  Stats.protocols stats = ∅ ∧
  Stats.services stats = ∅ ∧
  Stats.conn_states stats = ∅.
Proof.
  intros H. apply getCurrentConnections_empty in H.
  unfold GetStats. rewrite H. simpl. by split_and!.
Qed.

(** * The session store *)

Lemma generateFileID_length (filename : string) (uploadTime : Z) :
  String.length (generateFileID filename uploadTime) = 16%nat.
Proof.
  unfold generateFileID, sha256.Sum256.
  generalize (sha256.blocks
    (length (sha256.pad (Bytes.of_string
       (filename +:+ "_" +:+ strconv.FormatInt uploadTime))))
    sha256.init
    (sha256.pad (Bytes.of_string
       (filename +:+ "_" +:+ strconv.FormatInt uploadTime)))).
  intros st. unfold Go.slice_to, fileIDLength.
  change (Z.to_nat 16) with 16%nat.
  cbn [sha256.digest sha256.be_bytes app hex.EncodeToString String.substring].
  reflexivity.
Qed.

Lemma generateFileID_nonempty (filename : string) (uploadTime : Z) :
  generateFileID filename uploadTime ≠ "".
Proof.
  intros H. pose proof (generateFileID_length filename uploadTime) as Hl.
  rewrite H in Hl. discriminate.
Qed.

Lemma range_head `{Countable K} {V : Type} (rho : Go.shuffle) (m : gmap K V) :
  Go.permutes rho → m ≠ ∅ →
  ∃ k v rest, Go.range rho m = (k, v) :: rest ∧ m !! k = Some v.
Proof.
  intros Hp Hm. unfold Go.range.
  pose proof (Hp _ (map_to_list m)) as Hperm.
  destruct (rho _ (map_to_list m)) as [|[k v] rest].
  - exfalso. apply Hm, map_to_list_empty_iff.
    by apply Permutation_nil_r.
  - exists k, v, rest. split; [done|].
    apply elem_of_map_to_list. rewrite <- Hperm. left.
Qed.

Lemma size_ge_2_delete_nonempty {V : Type} (m : gmap string V) (k : string) :
  ¬ (size m ≤ 1)%nat → delete k m ≠ ∅.
Proof.
  intros Hs He. apply Hs.
  destruct (m !! k) as [v|] eqn:E.
  - rewrite <- (insert_delete_id m k v E), He.
    by rewrite insert_empty, map_size_singleton.
  - rewrite delete_id in He by done. rewrite He, map_size_empty. lia.
Qed.

Lemma store_ok_insert (a : API.t) (id : string) (fd : FileData.t) (lp : string) :
  id ≠ "" → store_ok a →
  store_ok {| API.files := <[id := fd]> (API.files a);
              API.currentFileID := id; API.logPath := lp |}.
Proof.
  intros Hid [H0 _]. split; simpl.
  - by rewrite lookup_insert_ne.
  - intros _. rewrite lookup_insert_eq. by eexists.
Qed.

Lemma reachable_store_ok (a : API.t) : reachable a → store_ok a.
Proof.
  induction 1 as [lp|a opened now _ IH|a method form now _ IH
                 |a method body _ IH|rho a method body Hp _ IH].
  - split; [done|]. by intros [].
  - unfold LoadConnections. destruct opened as [file|]; [|done].
    destruct (LoadConnectionsFromReader file).1; [done|]. simpl.
    apply store_ok_insert; [apply generateFileID_nonempty|done].
  - unfold UploadFile. case_bool_decide; [|done]. simpl.
    destruct form as [| |Filename Size file]; [done..|].
    destruct (LoadConnectionsFromReader file).1; [done|]. simpl.
    apply store_ok_insert; [apply generateFileID_nonempty|done].
  - unfold SwitchFile. case_bool_decide; [|done]. simpl.
    destruct body as [|FileID]; [done|]. case_bool_decide; [done|].
    destruct (API.files a !! FileID) eqn:E; [|done]. simpl.
    destruct IH as [Hz _]. split; simpl; [done|]. intros _. by rewrite E.
  - unfold DeleteFile. destruct (_ && _); [done|].
    destruct body as [|FileID]; [done|]. case_bool_decide as Hne; [done|].
    destruct (API.files a !! FileID) as [fd|] eqn:E; [|done].
    case_bool_decide as Hsz; [done|]. simpl.
    destruct IH as [Hz Hcur]. split; simpl.
    + by rewrite lookup_delete_ne.
    + intros _. case_bool_decide as Hc.
      * destruct (range_head rho (delete FileID (API.files a)) Hp)
          as (k & v & rest & -> & Hk); [by apply size_ge_2_delete_nonempty|].
        by eexists.
      * rewrite lookup_delete_ne by done. apply Hcur.
        intros He. rewrite He in E. by rewrite lookup_empty in E.
Qed.



(** C5, as amended: a successful upload files the parsed records under
    [generateFileID filename now], an id that depends on the file name and
    the second of the upload only, and makes that id current; the other
    sessions are untouched.  The store holds one more session than before
    when the id was free; when it was taken (the same name within the same
    second) the session filed under it is replaced and the count stays. *)
Theorem UploadFile_spec (a : API.t) (filename : string) (size_ : Z)
    (file : bufio.Scanner.t) (now : Z) :
  bufio.Scanner.Err file = false →
  let a' := (UploadFile a "POST" (FormFile filename size_ file) now).1 in
  let resp := (UploadFile a "POST" (FormFile filename size_ file) now).2 in
  let id := generateFileID filename now in
  API.currentFileID a' = id ∧
  (∃ records,
     (LoadConnectionsFromReader file).1 = inr records ∧
     API.files a' !! id
     = Some {| FileData.Filename := filename; FileData.UploadTime := now;
               FileData.Size := size_; FileData.Connections := records |}) ∧
  (∀ k, k ≠ id → API.files a' !! k = API.files a !! k) ∧
  (API.files a !! id = None → size (API.files a') = S (size (API.files a))) ∧
  (is_Some (API.files a !! id) → size (API.files a') = size (API.files a)) ∧
  (∃ body, resp = Json body ∧ UploadResponse.file_id body = id ∧
           UploadResponse.total_files body = Z.of_nat (size (API.files a'))).
Proof.
  intros Herr. unfold UploadFile. simpl.
  unfold LoadConnectionsFromReader. rewrite Herr.
  destruct (fold_left scanLine _ _) as [records log]. simpl.
  split_and!.
  - done.
  - eexists. split; [done|]. by rewrite lookup_insert_eq.
  - intros k Hk. by rewrite lookup_insert_ne.
  - intros Hn. by rewrite map_size_insert_None.
  - intros Hs. by rewrite map_size_insert_Some.
  - by eexists.
Qed.

(** C5, counterexample: uploading conn.log twice within the same second
    leaves one session in the store, not two. *)
Lemma UploadFile_same_second_replaces :
  ¬ (∀ (a : API.t) (filename : string) (size_ : Z) (file : bufio.Scanner.t)
       (now : Z),
       reachable a → bufio.Scanner.Err file = false →
       size (API.files (UploadFile a "POST" (FormFile filename size_ file) now).1)
       = S (size (API.files a))).
Proof.
  intros H.
  specialize (H (UploadFile (NewAPI "") "POST" (FormFile "conn.log" 0 emptyFile) 0).1
                "conn.log" 0 emptyFile 0
                (reach_UploadFile _ _ _ _ (reach_NewAPI "")) eq_refl).
  vm_compute in H. discriminate H.
Qed.

(** * The record parser *)

Lemma Connection_ext (c d : Connection.t) :
  Connection.Timestamp c = Connection.Timestamp d →
  Connection.UID c = Connection.UID d →
  Connection.OrigHost c = Connection.OrigHost d →
  Connection.OrigPort c = Connection.OrigPort d →
  Connection.RespHost c = Connection.RespHost d →
  Connection.RespPort c = Connection.RespPort d →
  Connection.Protocol c = Connection.Protocol d →
  Connection.Service c = Connection.Service d →
  Connection.Duration c = Connection.Duration d →
  Connection.OrigBytes c = Connection.OrigBytes d →
  Connection.RespBytes c = Connection.RespBytes d →
  Connection.ConnState c = Connection.ConnState d →
  Connection.LocalOrig c = Connection.LocalOrig d →
  Connection.LocalResp c = Connection.LocalResp d →
  Connection.MissedBytes c = Connection.MissedBytes d →
  Connection.History c = Connection.History d →
  Connection.OrigPackets c = Connection.OrigPackets d →
  Connection.OrigIPBytes c = Connection.OrigIPBytes d →
  Connection.RespPackets c = Connection.RespPackets d →
  Connection.RespIPBytes c = Connection.RespIPBytes d →
  Connection.IPProtocol c = Connection.IPProtocol d →
  c = d.
Proof. destruct c, d; simpl; intros; by subst. Qed.

Lemma UnmarshalConnection_fieldwise (line : string) (c : Connection.t) :
  UnmarshalConnection line = inr c ↔
  ∃ raw, json.Unmarshal line = inr raw ∧ c = fieldwise raw.
Proof.
  unfold UnmarshalConnection.
  destruct (json.Unmarshal line) as [err|raw].
  - split; [done|]. by intros (? & ? & ?).
  - assert (parseBooleanFields raw (parseFloatFields raw
              (parseIntegerFields raw (parseStringFields raw Connection.zero)))
            = fieldwise raw) as ->.
    { apply Connection_ext;
        lazy beta iota zeta delta
          [parseBooleanFields parseFloatFields parseIntegerFields
           parsePacketFields parseByteFields parseTimestampAndPorts
           parseStringFields fieldwise stringField floatField intField
           boolField assertString assertFloat64 assertBool default
           Connection.zero fmap option_fmap option_map
           Connection.Timestamp Connection.UID Connection.OrigHost Connection.OrigPort
           Connection.RespHost Connection.RespPort Connection.Protocol Connection.Service Connection.Duration
           Connection.OrigBytes Connection.RespBytes Connection.ConnState Connection.LocalOrig Connection.LocalResp Connection.MissedBytes
           Connection.History Connection.OrigPackets Connection.OrigIPBytes Connection.RespPackets Connection.RespIPBytes Connection.IPProtocol];
        match goal with
        | |- context [raw !! ?k] => by destruct (raw !! k) as [[]|]
        end. }
    split.
    + intros [= <-]. by exists raw.
    + by intros (? & [= <-] & ->).
Qed.

Lemma Unmarshal_accepts (line : string) :
  (∃ raw, json.Unmarshal line = inr raw) ↔
  json.parse line = Some json.VNull ∨
  ∃ l, json.parse line = Some (json.VObject l) ∧
       is_Some (json.valueInterface (json.VObject l)).
Proof.
  unfold json.Unmarshal.
  destruct (json.parse line) as [[| | | | | |l]|]; split;
    try (by intros [? ?]); try (by intros [?|(? & ? & ?)]); try by eauto.
  - intros [raw H]. right. exists l. split; [done|].
    by destruct (json.valueInterface (json.VObject l)).
  - intros [?|(l' & [= <-] & [a Ha])]; [done|].
    rewrite Ha. simpl in Ha.
    destruct ((fix members (l : list (string * json.value)) := _) l); [|done].
    injection Ha as <-. by eexists.
Qed.

Lemma scanLine_eq (line : string) (records : list Connection.t)
    (log : list logEvent) :
  scanLine (records, log) line
  = (records ++ omap recordOf [line], log ++ omap failureOf [line]).
Proof.
  unfold scanLine, recordOf, failureOf. simpl.
  destruct (strings.TrimSpace_is_empty line); [by rewrite !app_nil_r|].
  destruct (UnmarshalConnection line); by rewrite ?app_nil_r.
Qed.

Lemma scan_lines (lines : list string) (records : list Connection.t)
    (log : list logEvent) :
  fold_left scanLine lines (records, log)
  = (records ++ omap recordOf lines, log ++ omap failureOf lines).
Proof.
  revert records log. induction lines as [|line lines IH]; intros records log.
  - by rewrite !app_nil_r.
  - change (fold_left scanLine (line :: lines) (records, log))
      with (fold_left scanLine lines (scanLine (records, log) line)).
    rewrite scanLine_eq, IH, <- !app_assoc.
    change (line :: lines) with ([line] ++ lines).
    by rewrite !omap_app.
Qed.

Lemma length_omap_filter {A B : Type} (f : A → option B) (l : list A) :
  length (omap f l) = length (filter (fun x => is_Some (f x)) l).
Proof.
  induction l as [|x l IH]; [done|].
  change (omap f (x :: l))
    with (match f x with Some y => y :: omap f l | None => omap f l end).
  destruct (f x) as [y|] eqn:E.
  - rewrite filter_cons_True by (by rewrite E). simpl. by rewrite IH.
  - rewrite filter_cons_False; [done|]. rewrite E. by intros [].
Qed.

(** A line that holds a JSON value is not blank: the value starts with a
    character that is no white space. *)
Lemma value_starts_with_no_space (fuel : nat) (depth : Z) (c : ascii)
    (r : string) (x : json.value * string) :
  json.parseValue (S fuel) depth (String c r) = Some x →
  strings.dropSpaceRune (Bytes.code c :: Bytes.of_string r) = None.
Proof.
  intros H.
  destruct c as [[] [] [] [] [] [] [] []];
    first [ by vm_compute | by vm_compute in H ].
Qed.

Lemma trimLeftSpace_skipSpace (line : string) (fuel : nat) :
  (String.length line ≤ fuel)%nat →
  (∀ c r, json.skipSpace line = String c r →
          strings.dropSpaceRune (Bytes.code c :: Bytes.of_string r) = None) →
  json.skipSpace line ≠ EmptyString →
  strings.trimLeftSpace fuel (Bytes.of_string line) ≠ [].
Proof.
  revert fuel. induction line as [|c r IH]; intros fuel Hf Hd Hne; [done|].
  destruct fuel as [|fuel]; [simpl in Hf; lia|].
  change (json.skipSpace (String c r))
    with (if json.isSpace c then json.skipSpace r else String c r) in Hd, Hne.
  change (strings.trimLeftSpace (S fuel) (Bytes.of_string (String c r)))
    with (match strings.dropSpaceRune (Bytes.code c :: Bytes.of_string r) with
          | Some r' => strings.trimLeftSpace fuel r'
          | None => Bytes.code c :: Bytes.of_string r
          end).
  destruct (json.isSpace c) eqn:Hsp.
  - assert (strings.dropSpaceRune (Bytes.code c :: Bytes.of_string r)
            = Some (Bytes.of_string r)) as ->.
    { unfold json.isSpace in Hsp. rewrite !orb_true_iff, !Z.eqb_eq in Hsp.
      by destruct Hsp as [[[-> | ->] | ->] | ->]. }
    apply IH; [simpl in Hf; lia|done..].
  - by rewrite (Hd c r eq_refl).
Qed.

Lemma parse_not_blank (line : string) (v : json.value) :
  json.parse line = Some v → strings.TrimSpace_is_empty line = false.
Proof.
  unfold json.parse, strings.TrimSpace_is_empty. intros H.
  destruct (json.parseValue _ 0 (json.skipSpace line)) as [[v' r]|] eqn:E;
    [|done].
  assert (strings.trimLeftSpace (String.length line) (Bytes.of_string line) ≠ [])
    as Hne.
  { apply trimLeftSpace_skipSpace; [done| |].
    - intros c r' Hs. rewrite Hs in E. simpl in E.
      replace (String.length line + (String.length line + 0) + 1)%nat
        with (S (String.length line + (String.length line + 0)))%nat in E by lia.
      by eapply value_starts_with_no_space.
    - intros Hs. rewrite Hs in E.
      replace (2 * String.length line + 1)%nat
        with (S (2 * String.length line))%nat in E by lia.
      done. }
  by destruct (strings.trimLeftSpace _ _).
Qed.

(** C2, as amended: when the scanner ends without an error, the records
    are, in line order, those of the lines that [json.Unmarshal] decodes
    into a map: the JSON objects whose numbers fit a float64, and the
    literal null (which gives the all-zero record).
    Their number is the number of such lines.  The other non-blank lines are
    skipped with one logged failure each, blank lines without any.  A record
    is read field by field: a recognized field that is absent or holds
    another JSON type is left at its zero value. *)
Theorem LoadConnectionsFromReader_spec (file : bufio.Scanner.t) :
  bufio.Scanner.Err file = false →
  let lines := bufio.Scanner.Lines file in
  LoadConnectionsFromReader file
  = (inr (omap recordOf lines),
     omap failureOf lines ++ [LogParsed (Z.of_nat (length (omap recordOf lines)))])
  ∧ length (omap recordOf lines)
    = length (filter (fun line => is_Some (recordOf line)) lines)
  ∧ (∀ line,
       is_Some (recordOf line) ↔
       json.parse line = Some json.VNull ∨
       ∃ l, json.parse line = Some (json.VObject l) ∧
            is_Some (json.valueInterface (json.VObject l)))
  ∧ (∀ line c,
       recordOf line = Some c →
       ∃ raw, json.Unmarshal line = inr raw ∧ c = fieldwise raw)
  ∧ (∀ line,
       strings.TrimSpace_is_empty line = false →
       is_Some (recordOf line) ∨ is_Some (failureOf line))
  ∧ (∀ line,
       strings.TrimSpace_is_empty line = true →
       recordOf line = None ∧ failureOf line = None).
Proof.
  intros Herr lines. split_and!.
  - unfold LoadConnectionsFromReader. fold lines.
    rewrite scan_lines, Herr. done.
  - apply length_omap_filter.
  - intros line. rewrite <- Unmarshal_accepts. unfold recordOf. split.
    + destruct (strings.TrimSpace_is_empty line); [by intros []|].
      intros [c Hc].
      destruct (UnmarshalConnection line) as [|c'] eqn:E; [done|].
      apply UnmarshalConnection_fieldwise in E as (raw & ? & _). by exists raw.
    + intros [raw Hraw].
      assert (strings.TrimSpace_is_empty line = false) as ->.
      { unfold json.Unmarshal in Hraw.
        destruct (json.parse line) as [v|] eqn:E; [|done].
        by apply (parse_not_blank line v). }
      unfold UnmarshalConnection. by rewrite Hraw.
  - intros line c. unfold recordOf.
    destruct (strings.TrimSpace_is_empty line); [done|].
    destruct (UnmarshalConnection line) as [|c'] eqn:E; [done|].
    intros [= <-]. by apply UnmarshalConnection_fieldwise.
  - intros line Hb. unfold recordOf, failureOf. rewrite Hb.
    destruct (UnmarshalConnection line); [right|left]; by eexists.
  - intros line Hb. unfold recordOf, failureOf. by rewrite Hb.
Qed.

(** C2, counterexample: the line null is valid JSON but not a JSON object,
    and yet it yields a record. *)
Lemma null_line_yields_a_record :
  ¬ (∀ file : bufio.Scanner.t,
       bufio.Scanner.Err file = false →
       ∀ records, (LoadConnectionsFromReader file).1 = inr records →
       length records
       = length (filter (fun line => isJSONObject line = true)
                   (bufio.Scanner.Lines file))).
Proof.
  intros H.
  specialize (H {| bufio.Scanner.Lines := ["null"]; bufio.Scanner.Err := false |}
                eq_refl [Connection.zero] eq_refl).
  vm_compute in H. discriminate H.
Qed.

(** A JSON object with a number beyond the float64 range is valid JSON and
    is skipped all the same. *)
Lemma out_of_range_number_is_skipped :
  isJSONObject (quoted "{'ts':1e999}") = true ∧
  UnmarshalConnection (quoted "{'ts':1e999}") = inl json.UnmarshalTypeError.
Proof. by vm_compute. Qed.

(** * Witnesses *)

Lemma permutes_in_order : Go.permutes Go.in_order.
Proof. intros A l. reflexivity. Defined.


Lemma GetStats_no_records_witness :
  TimeRange.start (Stats.time_range (GetStats Go.in_order (NewAPI "")))
  = F64.of_int (-1).
Proof.
  exact (proj1 (GetStats_no_records Go.in_order (NewAPI "") (or_introl eq_refl))).
Defined.

Lemma UploadFile_spec_witness :
  API.currentFileID
    (UploadFile (NewAPI "") "POST" (FormFile "conn.log" 0 emptyFile) 0).1
  = generateFileID "conn.log" 0.
Proof.
  exact (proj1 (UploadFile_spec (NewAPI "") "conn.log" 0 emptyFile 0 eq_refl)).
Defined.

Lemma LoadConnectionsFromReader_spec_witness :
  length (omap recordOf ["null"; " "; "{}"; "nope"])
  = length (filter (fun line => is_Some (recordOf line))
              ["null"; " "; "{}"; "nope"]).
Proof.
  exact (proj1 (proj2 (LoadConnectionsFromReader_spec
    {| bufio.Scanner.Lines := ["null"; " "; "{}"; "nope"];
       bufio.Scanner.Err := false |} eq_refl))).
Defined.

Lemma twoSessions_reachable : reachable twoSessions.
Proof. do 2 apply reach_UploadFile. apply reach_NewAPI. Defined.


(** * Grouping records: buckets and edges *)

Lemma sumBytes_app (l1 l2 : list Connection.t) :
  sumBytes (l1 ++ l2) = sumBytes l1 + sumBytes l2.
Proof.
  unfold sumBytes. induction l1 as [|c l1 IH]; simpl; [done|]. rewrite IH. lia.
Qed.

Lemma sumBytes_Permutation (l1 l2 : list Connection.t) :
  l1 ≡ₚ l2 → sumBytes l1 = sumBytes l2.
Proof.
  unfold sumBytes. induction 1; simpl; lia.
Qed.

Lemma TotalBytes_wrapped (c : Connection.t) :
  Go.wrap64 (Connection.TotalBytes c) = Connection.TotalBytes c.
Proof. unfold Connection.TotalBytes. apply wrap64_idemp. Qed.

Lemma addToBucket_lookup (m : gmap Z TimelinePoint.t) (l : list Connection.t)
    (c : Connection.t) :
  (∀ b, m !! b = pointFor b l) →
  ∀ b, addToBucket m c !! b = pointFor b (l ++ [c]).
Proof.
  intros Hm b. unfold addToBucket.
  assert (pointFor b (l ++ [c])
          = if decide (bucketOf c = b) then Some (bucketPoint b (l ++ [c]))
            else pointFor b l) as ->.
  { unfold pointFor, bucketPoint, inBucket. rewrite filter_app.
    destruct (decide (bucketOf c = b)) as [Hb|Hb].
    - rewrite (filter_cons_True _ c) by done.
      by destruct (filter _ l).
    - rewrite (filter_cons_False _ c) by done.
      by rewrite filter_nil, app_nil_r. }
  destruct (decide (bucketOf c = b)) as [<-|Hb].
  - rewrite (Hm (bucketOf c)). unfold pointFor, bucketPoint, inBucket.
    rewrite filter_app, (filter_cons_True _ c), filter_nil by done.
    destruct (filter _ l) as [|c0 l0] eqn:E; rewrite lookup_insert_eq; simpl.
    + by rewrite Z.add_0_r, TotalBytes_wrapped.
    + rewrite length_app, sumBytes_app. simpl.
      rewrite wrap64_add_l, wrap64_add_l. do 3 f_equal; [f_equal; lia|].
      unfold sumBytes. simpl. lia.
  - rewrite <- Hm. by destruct (m !! bucketOf c); rewrite lookup_insert_ne.
Qed.

Lemma buckets_lookup (conns : list Connection.t) (b : Z) :
  fold_left addToBucket conns ∅ !! b = pointFor b conns.
Proof.
  enough (∀ l1 l0 m, (∀ b, m !! b = pointFor b l0) →
            ∀ b, fold_left addToBucket l1 m !! b = pointFor b (l0 ++ l1)) as H.
  { apply (H conns [] ∅). intros b'. by rewrite lookup_empty. }
  clear. induction l1 as [|c l1 IH]; intros l0 m Hm b; simpl.
  - by rewrite app_nil_r.
  - rewrite (IH (l0 ++ [c])); [by rewrite <- app_assoc|].
    by apply addToBucket_lookup.
Qed.

Lemma inBucket_Permutation (b : Z) (l1 l2 : list Connection.t) :
  l1 ≡ₚ l2 → inBucket b l1 ≡ₚ inBucket b l2.
Proof. intros H. unfold inBucket. by rewrite H. Qed.

Lemma pointFor_Permutation (b : Z) (l1 l2 : list Connection.t) :
  l1 ≡ₚ l2 → pointFor b l1 = pointFor b l2.
Proof.
  intros H. pose proof (inBucket_Permutation b _ _ H) as Hb.
  unfold pointFor, bucketPoint.
  rewrite (sumBytes_Permutation _ _ Hb), (Permutation_length Hb).
  destruct (inBucket b l1) as [|c l] eqn:E1.
  - apply Permutation_nil_l in Hb. by rewrite <- Hb.
  - destruct (inBucket b l2); [|done].
    symmetry in Hb. by apply Permutation_nil_cons in Hb.
Qed.

Lemma buckets_Permutation (l1 l2 : list Connection.t) :
  l1 ≡ₚ l2 → fold_left addToBucket l1 ∅ = fold_left addToBucket l2 ∅.
Proof.
  intros H. apply map_eq. intros b.
  rewrite !buckets_lookup. by apply pointFor_Permutation.
Qed.

(** The edge accumulator on its own. *)
Lemma accumulate_edges (conns : list Connection.t) :
  (accumulate conns).2 = fold_left processEdge conns ∅.
Proof.
  unfold accumulate. generalize (∅ : gmap string Node.t).
  generalize (∅ : gmap string Edge.t).
  induction conns as [|c conns IH]; intros em nm; simpl; [done|].
  apply IH.
Qed.

Lemma processEdge_lookup (m : gmap string Edge.t) (l : list Connection.t)
    (c : Connection.t) :
  (∀ k, m !! k = edgeFor k l) →
  ∀ k, processEdge m c !! k = edgeFor k (l ++ [c]).
Proof.
  intros Hm k. unfold processEdge.
  destruct (decide (edgeKey c = k)) as [<-|Hk].
  - rewrite !lookup_alter_eq. rewrite (Hm (edgeKey c)).
    unfold edgeFor, withKey.
    rewrite filter_app, (filter_cons_True _ c), filter_nil by done.
    destruct (filter _ l) as [|c0 l0] eqn:E; simpl.
    + rewrite lookup_insert_eq. simpl. unfold edgeOf. simpl.
      by rewrite !Z.add_0_r.
    + rewrite (Hm (edgeKey c)). unfold edgeFor, withKey. rewrite E. simpl.
      unfold edgeOf. simpl.
      rewrite length_app, (sumBytes_app l0 [c]), !wrap64_add_l.
      assert (sumBytes [c] = Connection.TotalBytes c) as ->
        by (unfold sumBytes; simpl; lia).
      replace (Z.of_nat (S (length l0)) + 1)
        with (Z.of_nat (S (length l0 + length [c]))) by (simpl; lia).
      by replace (Connection.TotalBytes c0 + sumBytes l0 + Connection.TotalBytes c)
        with (Connection.TotalBytes c0 + (sumBytes l0 + Connection.TotalBytes c))
        by lia.
  - rewrite !lookup_alter_ne by done.
    assert (edgeFor k (l ++ [c]) = edgeFor k l) as ->.
    { unfold edgeFor, withKey.
      by rewrite filter_app, (filter_cons_False _ c), filter_nil, app_nil_r. }
    rewrite <- Hm. by destruct (m !! edgeKey c); rewrite ?lookup_insert_ne.
Qed.

Lemma edges_lookup (conns : list Connection.t) (k : string) :
  (accumulate conns).2 !! k = edgeFor k conns.
Proof.
  rewrite accumulate_edges.
  enough (∀ l1 l0 m, (∀ k, m !! k = edgeFor k l0) →
            ∀ k, fold_left processEdge l1 m !! k = edgeFor k (l0 ++ l1)) as H.
  { apply (H conns [] ∅). intros k'. by rewrite lookup_empty. }
  clear. induction l1 as [|c l1 IH]; intros l0 m Hm k; simpl.
  - by rewrite app_nil_r.
  - rewrite (IH (l0 ++ [c])); [by rewrite <- app_assoc|].
    by apply processEdge_lookup.
Qed.

(** * Sorting and ranging, whatever the runtime chooses *)

#[global] Instance byTimestamp_refl : Reflexive byTimestamp.
Proof. intros x. unfold byTimestamp. lia. Qed.
#[global] Instance byTimestamp_trans : Transitive byTimestamp.
Proof. intros x y z. unfold byTimestamp. lia. Qed.
#[global] Instance byTimestamp_total : Total byTimestamp.
Proof. intros x y. unfold byTimestamp. lia. Qed.

#[global] Instance byBucket_trans : Transitive byBucket.
Proof. intros x y z. unfold byBucket. lia. Qed.
#[global] Instance byBucket_total : Total byBucket.
Proof. intros x y. unfold byBucket. lia. Qed.

#[global] Instance byCountDesc_trans : Transitive byCountDesc.
Proof. intros x y z. unfold byCountDesc. lia. Qed.
#[global] Instance byCountDesc_total : Total byCountDesc.
Proof. intros x y. unfold byCountDesc. lia. Qed.

Section sort_Slice.
Context {A : Type} (R : relation A) `{!RelDecision R}.

Lemma sort_Slice_Permutation (rho : Go.shuffle) (l : list A) :
  Go.permutes rho → Go.sort_Slice rho R l ≡ₚ l.
Proof.
  intros Hp. unfold Go.sort_Slice. by rewrite merge_sort_Permutation, (Hp A l).
Qed.

Lemma sort_Slice_Sorted `{!Total R} (rho : Go.shuffle) (l : list A) :
  Sorted R (Go.sort_Slice rho R l).
Proof. apply Sorted_merge_sort, _. Qed.

Lemma sorted_head_min `{!Reflexive R} (x : A) (l : list A) :
  StronglySorted R (x :: l) → ∀ y, y ∈ x :: l → R x y.
Proof.
  intros Hs y Hy. apply StronglySorted_inv in Hs as [_ Hall].
  apply elem_of_cons in Hy as [->|Hy]; [done|].
  by apply (proj1 (Forall_forall _ _) Hall).
Qed.

Lemma sorted_last_max `{!Reflexive R} (l : list A) (x : A) :
  StronglySorted R l → last l = Some x → ∀ y, y ∈ l → R y x.
Proof.
  induction 1 as [|a l Hs IH Hall]; intros Hl y Hy; [done|].
  destruct l as [|b l].
  - simpl in Hl. injection Hl as <-.
    apply list_elem_of_singleton in Hy as ->. done.
  - change (last (a :: b :: l)) with (last (b :: l)) in Hl.
    apply elem_of_cons in Hy as [->|Hy]; [|by apply IH].
    apply (proj1 (Forall_forall _ _) Hall). by apply last_Some_elem_of.
Qed.
End sort_Slice.

Lemma range_Permutation `{Countable K} {V : Type} (rho : Go.shuffle)
    (m : gmap K V) :
  Go.permutes rho → Go.range rho m ≡ₚ map_to_list m.
Proof. intros Hp. apply Hp. Qed.

Lemma permutes_backwards : Go.permutes Go.backwards.
Proof. intros A l. apply reverse_Permutation. Qed.

(** * The timeline *)

Lemma timelineOf_nonempty (rho : Go.shuffle) (conns : list Connection.t) :
  conns ≠ [] →
  timelineOf rho conns
  = let sortedConns := Go.sort_Slice rho byTimestamp conns in
    {| TimelineData.Points :=
         Go.sort_Slice rho byBucket
           (Go.range rho (fold_left addToBucket sortedConns ∅)).*2;
       TimelineData.Start :=
         F64.to_int64 (Connection.Timestamp (sortedConns !!! 0%nat));
       TimelineData.End_ :=
         F64.to_int64
           (Connection.Timestamp
              (sortedConns !!! (length sortedConns - 1)%nat)) |}.
Proof.
  intros Hne. unfold timelineOf. case_bool_decide as Hl; [|done].
  by destruct conns.
Qed.

Lemma sorted_ends (rho : Go.shuffle) (conns : list Connection.t) :
  Go.permutes rho → conns ≠ [] →
  let sortedConns := Go.sort_Slice rho byTimestamp conns in
  earliest conns (sortedConns !!! 0%nat) ∧
  latest conns (sortedConns !!! (length sortedConns - 1)%nat).
Proof.
  intros Hp Hne sortedConns.
  pose proof (sort_Slice_Permutation byTimestamp rho conns Hp) as Hperm.
  pose proof (sort_Slice_Sorted byTimestamp rho conns) as Hs.
  apply Sorted_StronglySorted in Hs; [|apply _].
  fold sortedConns in Hperm, Hs.
  destruct sortedConns as [|x l] eqn:E.
  { by apply Permutation_nil_l in Hperm. }
  split.
  - split; [rewrite <- Hperm; left|].
    intros d Hd. rewrite <- Hperm in Hd.
    by apply (sorted_head_min byTimestamp x l).
  - destruct (last (x :: l)) as [y|] eqn:El; [|by apply last_None in El].
    assert ((x :: l) !!! (length (x :: l) - 1)%nat = y) as ->.
    { apply list_lookup_total_correct. rewrite last_lookup in El.
      rewrite <- El. f_equal. simpl. lia. }
    split; [rewrite <- Hperm; by apply last_Some_elem_of|].
    intros d Hd. rewrite <- Hperm in Hd.
    by apply (sorted_last_max byTimestamp (x :: l) y).
Qed.

(** The values of the bucket map: one point per bucket that holds a
    record, each determined by its bucket. *)
Lemma bucket_values (conns : list Connection.t) (p : TimelinePoint.t) :
  p ∈ (map_to_list (fold_left addToBucket conns ∅)).*2 ↔
  ∃ c, c ∈ conns ∧ p = bucketPoint (bucketOf c) conns.
Proof.
  rewrite list_elem_of_fmap. split.
  - intros ([b p'] & -> & Hin). simpl.
    apply elem_of_map_to_list in Hin. rewrite buckets_lookup in Hin.
    unfold pointFor in Hin.
    destruct (inBucket b conns) as [|c l] eqn:E; [done|].
    injection Hin as <-.
    assert (c ∈ inBucket b conns) as Hc by (rewrite E; left).
    apply list_elem_of_filter in Hc as [<- Hc]. by exists c.
  - intros (c & Hc & ->). exists (bucketOf c, bucketPoint (bucketOf c) conns).
    split; [done|]. apply elem_of_map_to_list. rewrite buckets_lookup.
    unfold pointFor.
    destruct (inBucket (bucketOf c) conns) as [|c' l] eqn:E; [|done].
    assert (c ∈ inBucket (bucketOf c) conns) as Hin
      by by apply list_elem_of_filter.
    rewrite E in Hin. by apply elem_of_nil in Hin.
Qed.


Lemma timeline_points (rho : Go.shuffle) (conns : list Connection.t) :
  Go.permutes rho → conns ≠ [] →
  TimelineData.Points (timelineOf rho conns)
    ≡ₚ (map_to_list (fold_left addToBucket conns ∅)).*2 ∧
  Sorted byBucket (TimelineData.Points (timelineOf rho conns)).
Proof.
  intros Hp Hne. rewrite timelineOf_nonempty by done. simpl. split.
  - rewrite sort_Slice_Permutation by done.
    rewrite (range_Permutation rho) by done.
    by rewrite (buckets_Permutation _ conns)
      by by apply sort_Slice_Permutation.
  - apply sort_Slice_Sorted, _.
Qed.


(** The timeline does not depend on what the runtime chooses. *)
Lemma timeline_deterministic (rho rho' : Go.shuffle) (conns : list Connection.t) :
  Go.permutes rho → Go.permutes rho' →
  timelineOf rho conns = timelineOf rho' conns.
Proof.
  intros Hp Hp'. destruct (decide (conns = [])) as [->|Hne]; [done|].
  destruct (timeline_points rho conns Hp Hne) as [Hperm Hs].
  destruct (timeline_points rho' conns Hp' Hne) as [Hperm' Hs'].
  destruct (sorted_ends rho conns Hp Hne) as [[Hf Hfmin] [Hl Hlmax]].
  destruct (sorted_ends rho' conns Hp' Hne) as [[Hf' Hfmin'] [Hl' Hlmax']].
  assert (TimelineData.Points (timelineOf rho conns)
          = TimelineData.Points (timelineOf rho' conns)) as HP.
  { apply (Sorted_unique_strong byBucket); [|done|done|by rewrite Hperm, Hperm'].
    intros p q Hin Hin' Hpq Hqp.
    rewrite Hperm in Hin. rewrite Hperm' in Hin'.
    apply bucket_values in Hin as (c & _ & ->).
    apply bucket_values in Hin' as (d & _ & ->).
    unfold byBucket in Hpq, Hqp. simpl in Hpq, Hqp.
    by replace (bucketOf d) with (bucketOf c) by lia. }
  rewrite !timelineOf_nonempty in * by done. simpl in *.
  rewrite HP. f_equal; f_equal.
  - specialize (Hfmin _ Hf'). specialize (Hfmin' _ Hf). lia.
  - specialize (Hlmax _ Hl'). specialize (Hlmax' _ Hl). lia.
Qed.





(** Why the whole seconds have to fit: a record at 2^64 seconds has the
    largest timestamp and becomes the end, but its whole second is the one
    the conversion gives for a value out of range, below that of the record
    at second 5. *)
Lemma end_of_a_timestamp_beyond_int64 :
  TimelineData.End_
    (timelineOf Go.in_order [exampleRecord 5 0; exampleRecord (2 ^ 64) 0])
  = Go.minInt64 ∧
  wholeSecond (exampleRecord 5 0) = 5.
Proof. by vm_compute. Qed.

(** * The graph builder *)

Lemma split_at_hyphen (a1 a2 r1 r2 : string) :
  hasHyphen a1 = false → hasHyphen a2 = false →
  a1 +:+ "-" +:+ r1 = a2 +:+ "-" +:+ r2 → a1 = a2 ∧ r1 = r2.
Proof.
  revert a2. induction a1 as [|c a1 IH]; intros [|d a2] H1 H2 He.
  - change (String "-" r1 = String "-" r2) in He. by injection He as ->.
  - change (String "-" r1 = String d (a2 +:+ "-" +:+ r2)) in He.
    injection He as <- _. by vm_compute in H2.
  - change (String c (a1 +:+ "-" +:+ r1) = String "-" r2) in He.
    injection He as -> _. by vm_compute in H1.
  - change (String c (a1 +:+ "-" +:+ r1) = String d (a2 +:+ "-" +:+ r2)) in He.
    injection He as -> He. simpl in H1, H2.
    apply orb_false_iff in H1 as [_ H1].
    apply orb_false_iff in H2 as [_ H2].
    destruct (IH a2 H1 H2 He) as [-> ->]. done.
Qed.

Lemma edgeKey_plain_inj (c d : Connection.t) :
  plainHosts c → plainHosts d → edgeKey c = edgeKey d → triple c = triple d.
Proof.
  intros [Hc1 Hc2] [Hd1 Hd2] He. unfold edgeKey in He.
  apply split_at_hyphen in He as [Ho He]; [|done..].
  apply split_at_hyphen in He as [Hr Hp]; [|done..].
  unfold triple. by rewrite Ho, Hr, Hp.
Qed.

Lemma edge_values (conns : list Connection.t) (e : Edge.t) :
  e ∈ (map_to_list (accumulate conns).2).*2 ↔
  ∃ c, c ∈ conns ∧ edgeFor (edgeKey c) conns = Some e.
Proof.
  rewrite list_elem_of_fmap. split.
  - intros ([k e'] & -> & Hin). simpl.
    apply elem_of_map_to_list in Hin. rewrite edges_lookup in Hin.
    pose proof Hin as Hin'. unfold edgeFor in Hin'.
    destruct (withKey k conns) as [|c l] eqn:E; [done|].
    assert (c ∈ withKey k conns) as Hc by (rewrite E; left).
    apply list_elem_of_filter in Hc as [<- Hc]. by exists c.
  - intros (c & Hc & He). exists (edgeKey c, e). split; [done|].
    apply elem_of_map_to_list. by rewrite edges_lookup.
Qed.

Lemma edgeFor_first (conns : list Connection.t) (c : Connection.t) :
  c ∈ conns →
  ∃ first rest,
    withKey (edgeKey c) conns = first :: rest ∧
    edgeKey first = edgeKey c ∧
    edgeFor (edgeKey c) conns = Some (edgeOf first (first :: rest)).
Proof.
  intros Hc. unfold edgeFor.
  destruct (withKey (edgeKey c) conns) as [|first rest] eqn:E.
  - assert (c ∈ withKey (edgeKey c) conns) as Hin
      by by apply list_elem_of_filter.
    rewrite E in Hin. by apply elem_of_nil in Hin.
  - exists first, rest. split_and!; [done| |done].
    assert (first ∈ withKey (edgeKey c) conns) as Hin by (rewrite E; left).
    by apply list_elem_of_filter in Hin as [? _].
Qed.

(** C4, as amended: the edges are keyed by the string "orig-resp-proto".
    There is one edge per key that occurs; records that agree on the triple
    (origin host, responder host, protocol) have the same key and
    accumulate into the same edge; records whose hosts hold no hyphen have
    equal keys only when their triples are equal, so that distinct triples
    give distinct edges.  An edge carries the hosts, the protocol and the
    service of the first record with its key, the number of the records
    with its key and their bytes (as 64-bit integers), and the weight
    float64(total bytes) / 1000. *)
Theorem buildNodesAndEdges_edges (rho : Go.shuffle) (conns : list Connection.t) :
  Go.permutes rho →
  let edges := (buildNodesAndEdges rho conns).2 in
  (∀ e, e ∈ edges ↔ ∃ c, c ∈ conns ∧ edgeFor (edgeKey c) conns = Some e) ∧
  (∀ c, c ∈ conns →
        ∃ first rest,
          withKey (edgeKey c) conns = first :: rest ∧
          edgeKey first = edgeKey c ∧
          edgeFor (edgeKey c) conns = Some (edgeOf first (first :: rest))) ∧
  (∀ c d, triple c = triple d → edgeKey c = edgeKey d) ∧
  (∀ c d, plainHosts c → plainHosts d →
          edgeKey c = edgeKey d → triple c = triple d) ∧
  (∀ e, e ∈ edges →
        Edge.Weight e = F64.div (F64.of_int (Edge.TotalBytes e)) (F64.of_int 1000)) ∧
  NoDup edges.
Proof.
  intros Hp edges.
  assert (edges ≡ₚ (map_to_list (accumulate conns).2).*2) as Hperm.
  { unfold edges, buildNodesAndEdges.
    destruct (accumulate conns) as [nm em]. simpl.
    by rewrite (range_Permutation rho). }
  split_and!.
  - intros e. rewrite Hperm. apply edge_values.
  - apply edgeFor_first.
  - intros c d [= Ho Hr Hpr]. unfold edgeKey. by rewrite Ho, Hr, Hpr.
  - apply edgeKey_plain_inj.
  - intros e. rewrite Hperm. intros (c & Hc & He)%edge_values.
    destruct (edgeFor_first conns c Hc) as (first & rest & _ & _ & He').
    rewrite He' in He. by injection He as <-.
  - rewrite Hperm. apply NoDup_fmap_2_strong, NoDup_map_to_list.
    intros [k1 e1] [k2 e2] H1 H2 He. simpl in He. subst e2.
    apply elem_of_map_to_list in H1, H2.
    rewrite edges_lookup in H1, H2. f_equal.
    assert (∀ k e, edgeFor k conns = Some e →
              k = Edge.Source e +:+ "-" +:+ Edge.Target e +:+ "-" +:+
                  Edge.Protocol e) as Hkey.
    { intros k e He. unfold edgeFor in He.
      destruct (withKey k conns) as [|c l] eqn:E; [done|].
      injection He as <-. simpl.
      assert (c ∈ withKey k conns) as Hc by (rewrite E; left).
      by apply list_elem_of_filter in Hc as [<- _]. }
    by rewrite (Hkey k1 e1), (Hkey k2 e1).
Qed.

(** C4, counterexample: the records a-b to c and a to b-c have distinct
    triples and the same key "a-b-c-tcp"; the graph has a single edge, from
    a-b to c, and none from a to b-c. *)
Lemma hyphen_hosts_share_an_edge :
  ¬ (∀ (rho : Go.shuffle) (conns : list Connection.t) (c : Connection.t),
       Go.permutes rho → c ∈ conns →
       ∃ e, e ∈ (buildNodesAndEdges rho conns).2 ∧
            (Edge.Source e, Edge.Target e, Edge.Protocol e) = triple c).
Proof.
  intros H.
  destruct (H Go.in_order [hyphenRecord "a-b" "c"; hyphenRecord "a" "b-c"]
              (hyphenRecord "a" "b-c"))
    as (e & Hin & He); [by intros ??|right; left|].
  assert ((buildNodesAndEdges Go.in_order
             [hyphenRecord "a-b" "c"; hyphenRecord "a" "b-c"]).2
          = [{| Edge.Source := "a-b"; Edge.Target := "c";
                Edge.Protocol := "tcp"; Edge.Service := "";
                Edge.Count := 2; Edge.TotalBytes := 0;
                Edge.Weight := 0 |}]) as E by by vm_compute.
  rewrite E in Hin. apply list_elem_of_singleton in Hin. subst e.
  discriminate He.
Qed.

(** * Computing a view twice *)

(** C9, as amended: whatever the runtime chooses, the timeline is the same,
    and so is the summary but for its table of connection states; the graph
    holds the same nodes and the same edges, the table the same entries,
    possibly in another order (the table is sorted by descending count in
    both). *)
Theorem views_deterministic_up_to_order (rho rho' : Go.shuffle) (a : API.t) :
  Go.permutes rho → Go.permutes rho' →
  GetTimeline rho a = GetTimeline rho' a ∧
  NetworkGraph.Nodes (GetNodes rho a "" "" "" "")
    ≡ₚ NetworkGraph.Nodes (GetNodes rho' a "" "" "" "") ∧
  NetworkGraph.Edges (GetNodes rho a "" "" "" "")
    ≡ₚ NetworkGraph.Edges (GetNodes rho' a "" "" "" "") ∧
  Stats.total_connections (GetStats rho a)
    = Stats.total_connections (GetStats rho' a) ∧
  Stats.protocols (GetStats rho a) = Stats.protocols (GetStats rho' a) ∧
  Stats.services (GetStats rho a) = Stats.services (GetStats rho' a) ∧
  Stats.conn_states (GetStats rho a) = Stats.conn_states (GetStats rho' a) ∧
  Stats.total_bytes (GetStats rho a) = Stats.total_bytes (GetStats rho' a) ∧
  Stats.unique_ip_count (GetStats rho a)
    = Stats.unique_ip_count (GetStats rho' a) ∧
  Stats.time_range (GetStats rho a) = Stats.time_range (GetStats rho' a) ∧
  Stats.current_file (GetStats rho a) = Stats.current_file (GetStats rho' a) ∧
  Stats.total_files (GetStats rho a) = Stats.total_files (GetStats rho' a) ∧
  Stats.available_conn_states (GetStats rho a)
    ≡ₚ Stats.available_conn_states (GetStats rho' a) ∧
  Sorted byCountDesc (Stats.available_conn_states (GetStats rho a)) ∧
  Sorted byCountDesc (Stats.available_conn_states (GetStats rho' a)).
Proof.
  intros Hp Hp'. split_and!; try done.
  - by apply timeline_deterministic.
  - unfold GetNodes, buildNodesAndEdges.
    destruct (accumulate _) as [nm em]. simpl.
    by rewrite !range_Permutation.
  - unfold GetNodes, buildNodesAndEdges.
    destruct (accumulate _) as [nm em]. simpl.
    by rewrite !range_Permutation.
  - unfold GetStats, buildConnStateDescriptions. simpl.
    rewrite !sort_Slice_Permutation by done.
    by rewrite !range_Permutation.
  - apply sort_Slice_Sorted, _.
  - apply sort_Slice_Sorted, _.
Qed.

(** C9, counterexample: ranging over the node map in one order and in the
    reverse order gives the nodes A, B and B, A. *)
Lemma graph_order_is_the_runtime_s :
  ¬ (∀ (rho rho' : Go.shuffle) (a : API.t),
       Go.permutes rho → Go.permutes rho' →
       GetNodes rho a "" "" "" "" = GetNodes rho' a "" "" "" "").
Proof.
  intros H.
  specialize (H Go.in_order Go.backwards exampleStore
                permutes_in_order permutes_backwards).
  vm_compute in H. discriminate H.
Qed.

Lemma exampleStore_records :
  getCurrentConnections exampleStore = exampleRecords.
Proof. by vm_compute. Qed.


Lemma buildNodesAndEdges_edges_witness :
  NoDup (buildNodesAndEdges Go.in_order exampleRecords).2.
Proof.
  exact (proj2 (proj2 (proj2 (proj2 (proj2
    (buildNodesAndEdges_edges Go.in_order exampleRecords permutes_in_order)))))).
Defined.

Lemma views_deterministic_up_to_order_witness :
  GetTimeline Go.in_order exampleStore = GetTimeline Go.backwards exampleStore.
Proof.
  exact (proj1 (views_deterministic_up_to_order Go.in_order Go.backwards
    exampleStore permutes_in_order permutes_backwards)).
Defined.

(** * Strings, sums and numbers *)

Lemma string_app_cons (c : ascii) (s t : string) :
  String c s +:+ t = String c (s +:+ t).
Proof. done. Qed.

Lemma string_app_assoc (s1 s2 s3 : string) :
  (s1 +:+ s2) +:+ s3 = s1 +:+ (s2 +:+ s3).
Proof.
  induction s1 as [|c s1 IH]; [done|]. by rewrite !string_app_cons, IH.
Qed.

Lemma string_app_nil_r (s : string) : s +:+ "" = s.
Proof. induction s as [|c s IH]; [done|]. by rewrite string_app_cons, IH. Qed.

Lemma filter_none {A : Type} (P : A → Prop) `{!∀ x, Decision (P x)} (l : list A) :
  (∀ x, x ∈ l → ¬ P x) → filter P l = [].
Proof.
  induction l as [|x l IH]; intros Hn; [done|].
  rewrite filter_cons_False by (apply Hn; left).
  apply IH. intros y Hy. apply Hn. by right.
Qed.

Lemma filter_all {A : Type} (P : A → Prop) `{!∀ x, Decision (P x)} (l : list A) :
  (∀ x, x ∈ l → P x) → filter P l = l.
Proof.
  induction l as [|x l IH]; intros Ha; [done|].
  rewrite filter_cons_True by (apply Ha; left).
  f_equal. apply IH. intros y Hy. apply Ha. by right.
Qed.

Lemma Permutation_elem_of {A : Type} (l l' : list A) (x : A) :
  l ≡ₚ l' → x ∈ l → x ∈ l'.
Proof. intros H. by rewrite H. Qed.

Lemma sumZ_cons (x : Z) (l : list Z) : sumZ (x :: l) = x + sumZ l.
Proof. done. Qed.

Lemma sumZ_app (l1 l2 : list Z) : sumZ (l1 ++ l2) = sumZ l1 + sumZ l2.
Proof. unfold sumZ. induction l1 as [|x l1 IH]; simpl; lia. Qed.

Lemma sumZ_Permutation (l1 l2 : list Z) : l1 ≡ₚ l2 → sumZ l1 = sumZ l2.
Proof. unfold sumZ. induction 1; simpl; lia. Qed.

Section counting.
Context {A K : Type} `{EqDecision K} (key : A → K).

Lemma sumZ_zero (ks : list K) : sumZ ((fun _ => 0) <$> ks) = 0.
Proof.
  induction ks as [|k ks IH]; [done|]. by rewrite fmap_cons, sumZ_cons, IH.
Qed.

Lemma sumZ_add (f g : K → Z) (ks : list K) :
  sumZ ((fun k => f k + g k) <$> ks) = sumZ (f <$> ks) + sumZ (g <$> ks).
Proof.
  induction ks as [|k ks IH]; [done|]. rewrite !fmap_cons, !sumZ_cons, IH. lia.
Qed.

Lemma count_one (ks : list K) (k0 : K) :
  NoDup ks → k0 ∈ ks →
  sumZ ((fun k => if decide (k0 = k) then 1 else 0) <$> ks) = 1.
Proof.
  induction 1 as [|k ks Hk Hn IH]; intros Hin.
  - by apply elem_of_nil in Hin.
  - rewrite fmap_cons, sumZ_cons. destruct (decide (k0 = k)) as [->|Hne].
    + assert (sumZ ((fun k' => if decide (k = k') then 1 else 0) <$> ks) = 0)
        as ->; [|done].
      clear IH Hin Hn. induction ks as [|k' ks IH]; [done|].
      rewrite fmap_cons, sumZ_cons.
      rewrite decide_False by (intros ->; apply Hk; left).
      rewrite IH; [done|]. intros Hin. apply Hk. by right.
    + apply elem_of_cons in Hin as [?|Hin]; [done|]. rewrite IH by done. lia.
Qed.

Lemma count_by_key (l : list A) (ks : list K) :
  NoDup ks → (∀ x, x ∈ l → key x ∈ ks) →
  sumZ ((fun k => Z.of_nat (length (filter (fun x => key x = k) l))) <$> ks)
  = Z.of_nat (length l).
Proof.
  intros Hn. induction l as [|x l IH]; intros Hin.
  - apply sumZ_zero.
  - assert (sumZ ((fun k => Z.of_nat (length (filter (fun x => key x = k) (x :: l)))) <$> ks)
            = sumZ ((fun k => Z.of_nat (length (filter (fun x => key x = k) l)) +
                              (if decide (key x = k) then 1 else 0)) <$> ks)) as ->.
    { f_equal. apply list_fmap_ext. intros _ k _. rewrite filter_cons.
      destruct (decide (key x = k)); simpl; lia. }
    rewrite sumZ_add, IH, count_one; [simpl; lia|done| |].
    + apply Hin. left.
    + intros y Hy. apply Hin. by right.
Qed.
End counting.

Section weighing.
Context {A K : Type} `{EqDecision K} (key : A → K) (weight : A → Z).

Lemma weigh_one (ks : list K) (k0 : K) (w : Z) :
  NoDup ks → k0 ∈ ks →
  sumZ ((fun k => if decide (k0 = k) then w else 0) <$> ks) = w.
Proof.
  induction 1 as [|k ks Hk Hn IH]; intros Hin.
  - by apply elem_of_nil in Hin.
  - rewrite fmap_cons, sumZ_cons. destruct (decide (k0 = k)) as [->|Hne].
    + assert (sumZ ((fun k' => if decide (k = k') then w else 0) <$> ks) = 0)
        as ->; [|lia].
      clear IH Hin Hn. induction ks as [|k' ks IH]; [done|].
      rewrite fmap_cons, sumZ_cons.
      rewrite decide_False by (intros ->; apply Hk; left).
      rewrite IH; [done|]. intros Hin. apply Hk. by right.
    + apply elem_of_cons in Hin as [?|Hin]; [done|]. rewrite IH by done. lia.
Qed.

Lemma weigh_by_key (l : list A) (ks : list K) :
  NoDup ks → (∀ x, x ∈ l → key x ∈ ks) →
  sumZ ((fun k => sumZ (weight <$> filter (fun x => key x = k) l)) <$> ks)
  = sumZ (weight <$> l).
Proof.
  intros Hn. induction l as [|x l IH]; intros Hin.
  - apply sumZ_zero.
  - assert (sumZ ((fun k => sumZ (weight <$> filter (fun x => key x = k) (x :: l))) <$> ks)
            = sumZ ((fun k => sumZ (weight <$> filter (fun x => key x = k) l) +
                              (if decide (key x = k) then weight x else 0)) <$> ks))
      as ->.
    { f_equal. apply list_fmap_ext. intros _ k _. rewrite filter_cons.
      destruct (decide (key x = k)); [|lia].
      rewrite fmap_cons, sumZ_cons. lia. }
    rewrite sumZ_add, IH, weigh_one, fmap_cons, sumZ_cons; [lia|done| |].
    + apply Hin. left.
    + intros y Hy. apply Hin. by right.
Qed.
End weighing.

Lemma sumBytes_sumZ (l : list Connection.t) :
  sumBytes l = sumZ (Connection.TotalBytes <$> l).
Proof.
  induction l as [|c l IH]; [done|]. rewrite fmap_cons, sumZ_cons, <- IH. done.
Qed.

Lemma wrap64_sumZ {B : Type} (f : B → Z) (l : list B) :
  Go.wrap64 (sumZ ((fun x => Go.wrap64 (f x)) <$> l)) = Go.wrap64 (sumZ (f <$> l)).
Proof.
  induction l as [|x l IH]; [done|].
  rewrite !fmap_cons, !sumZ_cons, wrap64_add_l.
  rewrite <- (wrap64_add_r _ (sumZ ((fun x => Go.wrap64 (f x)) <$> l))), IH.
  by rewrite wrap64_add_r.
Qed.

Lemma map_counts_add_up {A V : Type} `{Countable K} (key : A → K)
    (count : V → Z) (m : gmap K V) (l : list A) :
  Z.of_nat (length l) < 2 ^ 63 →
  (∀ k v, m !! k = Some v →
     count v = Go.wrap64 (Z.of_nat (length (filter (fun x => key x = k) l)))) →
  (∀ x, x ∈ l → is_Some (m !! key x)) →
  sumZ (count <$> (map_to_list m).*2) = Z.of_nat (length l).
Proof.
  intros Hlen Hv Hk.
  assert (count <$> (map_to_list m).*2
          = (fun k => Z.of_nat (length (filter (fun x => key x = k) l)))
              <$> (map_to_list m).*1) as ->.
  { rewrite <- !list_fmap_compose. apply Forall_fmap_ext_1, Forall_forall.
    intros [k v] Hin. simpl. apply elem_of_map_to_list in Hin.
    rewrite (Hv k v Hin). apply wrap64_small.
    pose proof (length_filter (fun x => key x = k) l). lia. }
  apply count_by_key; [apply NoDup_fst_map_to_list|].
  intros x Hx. destruct (Hk x Hx) as [v Hv'].
  apply list_elem_of_fmap. exists (key x, v). split; [done|].
  by apply elem_of_map_to_list.
Qed.

Lemma map_bytes_add_up {V : Type} `{Countable K} (key : Connection.t → K)
    (bytes : V → Z) (m : gmap K V) (l : list Connection.t) :
  (∀ k v, m !! k = Some v →
     bytes v = Go.wrap64 (sumBytes (filter (fun x => key x = k) l))) →
  (∀ x, x ∈ l → is_Some (m !! key x)) →
  Go.wrap64 (sumZ (bytes <$> (map_to_list m).*2)) = Go.wrap64 (sumBytes l).
Proof.
  intros Hv Hk.
  assert (bytes <$> (map_to_list m).*2
          = (fun k => Go.wrap64 (sumZ (Connection.TotalBytes <$>
                                         filter (fun x => key x = k) l)))
              <$> (map_to_list m).*1) as ->.
  { rewrite <- !list_fmap_compose. apply Forall_fmap_ext_1, Forall_forall.
    intros [k v] Hin. simpl. apply elem_of_map_to_list in Hin.
    by rewrite (Hv k v Hin), sumBytes_sumZ. }
  rewrite (wrap64_sumZ (fun k => sumZ (Connection.TotalBytes <$>
                                         filter (fun x => key x = k) l))).
  rewrite sumBytes_sumZ. f_equal.
  apply weigh_by_key; [apply NoDup_fst_map_to_list|].
  intros x Hx. destruct (Hk x Hx) as [v Hv'].
  apply list_elem_of_fmap. exists (key x, v). split; [done|].
  by apply elem_of_map_to_list.
Qed.

Lemma to_int64_range (f : Z) : Go.inInt64 (F64.to_int64 f) = true.
Proof.
  unfold F64.to_int64.
  destruct (Go.inInt64 (Z.quot f F64.unit)) eqn:E; [done|reflexivity].
Qed.

Lemma round_pos_nonneg (n d : Z) : 0 ≤ n → 0 < d → 0 ≤ F64.round_pos n d.
Proof.
  intros Hn Hd. unfold F64.round_pos, F64.rne.
  set (s := Z.max 0 (Z.log2 (n / d) - 52)).
  assert (0 < d * 2 ^ s) as Hpos.
  { apply Z.mul_pos_pos; [done|]. apply Z.pow_pos_nonneg; lia. }
  assert (0 ≤ n / (d * 2 ^ s)) by (apply Z.div_pos; lia).
  assert (0 ≤ 2 ^ s) by (apply Z.pow_nonneg; lia).
  repeat destruct (_ <? _); try destruct (Z.even _); nia.
Qed.

Lemma of_int_exact (n : Z) : Z.abs n < 2 ^ 53 → F64.of_int n = n * F64.unit.
Proof.
  intros Hn. unfold F64.of_int, F64.round.
  assert (∀ m, 0 ≤ m < 2 ^ 53 → F64.round_pos (m * F64.unit) 1 = m * F64.unit) as H.
  { intros m Hm. unfold F64.round_pos, F64.rne. rewrite Z.div_1_r, Z.mul_1_l.
    destruct (decide (m = 0)) as [->|Hnz]; [done|].
    set (s := Z.max 0 (Z.log2 (m * F64.unit) - 52)).
    assert (Z.log2 (m * F64.unit) = Z.log2 m + 1074) as Hlog.
    { unfold F64.unit. rewrite Z.log2_mul_pow2; lia. }
    assert (Z.log2 m < 53) as Hl by (apply Z.log2_lt_pow2; lia).
    pose proof (Z.log2_nonneg m).
    assert (s = Z.log2 m + 1022) as Hs by (unfold s; lia).
    assert (m * F64.unit = (m * 2 ^ (52 - Z.log2 m)) * 2 ^ s) as Hm'.
    { unfold F64.unit. rewrite Hs, <- Z.mul_assoc, <- Z.pow_add_r by lia.
      do 2 f_equal. lia. }
    assert (0 < 2 ^ s) as Hpos by (apply Z.pow_pos_nonneg; lia).
    assert ((m * F64.unit) mod 2 ^ s = 0) as ->
      by (rewrite Hm'; apply Z.mod_mul; lia).
    assert ((2 * 0 <? 2 ^ s) = true) as -> by (apply Z.ltb_lt; lia).
    rewrite Hm' at 1. rewrite Z.div_mul by lia. lia. }
  destruct (n * F64.unit <? 0) eqn:E.
  - apply Z.ltb_lt in E. assert (n < 0) as Hneg.
    { unfold F64.unit in E. pose proof (Z.pow_pos_nonneg 2 1074). nia. }
    replace (- (n * F64.unit)) with ((- n) * F64.unit) by lia.
    rewrite H by lia. lia.
  - apply Z.ltb_ge in E. assert (0 ≤ n) as Hpos.
    { unfold F64.unit in E. pose proof (Z.pow_pos_nonneg 2 1074). nia. }
    apply H. lia.
Qed.

Lemma digit_char (d : Z) :
  0 ≤ d < 10 → strconv.digit (Bytes.char (48 + d)) = Some d.
Proof.
  intros H.
  assert (d = 0 ∨ d = 1 ∨ d = 2 ∨ d = 3 ∨ d = 4 ∨ d = 5 ∨ d = 6 ∨ d = 7 ∨
          d = 8 ∨ d = 9) as Hd by lia.
  repeat destruct Hd as [->|Hd]; try subst d; reflexivity.
Qed.

Lemma fmtDigits_digits (fuel : nat) (n : Z) (acc : string) :
  0 ≤ n < 2 ^ Z.of_nat (S fuel) →
  ∃ c D, strconv.fmtDigits (S fuel) n acc = String c D +:+ acc ∧
         is_Some (strconv.digit c) ∧
         ∀ a r, ∃ k, 0 ≤ k ∧
           strconv.digits a (String c D +:+ r) = strconv.digits (a * 10 ^ k + n) r.
Proof.
  revert n acc. induction fuel as [|fuel IH]; intros n acc Hn.
  - assert (n < 10) as Hlt by (change (2 ^ Z.of_nat 1) with 2 in Hn; lia).
    exists (Bytes.char (48 + n mod 10)), "".
    change (strconv.fmtDigits 1 n acc)
      with (let acc' := String (Bytes.char (48 + n mod 10)) acc in
            if n <? 10 then acc' else acc').
    simpl. rewrite Z.mod_small by lia.
    split_and!.
    + by destruct (n <? 10).
    + rewrite digit_char by lia. by eexists.
    + intros a r. exists 1. split; [lia|].
      rewrite digit_char by lia. f_equal; lia.
  - change (strconv.fmtDigits (S (S fuel)) n acc)
      with (let acc' := String (Bytes.char (48 + n mod 10)) acc in
            if n <? 10 then acc' else strconv.fmtDigits (S fuel) (n / 10) acc').
    cbv zeta. destruct (n <? 10) eqn:E.
    + apply Z.ltb_lt in E.
      exists (Bytes.char (48 + n mod 10)), "".
      rewrite Z.mod_small by lia. split_and!.
      * done.
      * rewrite digit_char by lia. by eexists.
      * intros a r. exists 1. split; [lia|]. simpl.
        rewrite digit_char by lia. f_equal; lia.
    + apply Z.ltb_ge in E.
      destruct (IH (n / 10) (String (Bytes.char (48 + n mod 10)) acc))
        as (c & D & HD & Hc & Hdig).
      { split; [apply Z.div_pos; lia|].
        apply Z.div_lt_upper_bound; [lia|].
        rewrite Nat2Z.inj_succ, Z.pow_succ_r in Hn by lia. lia. }
      exists c, (D +:+ String (Bytes.char (48 + n mod 10)) "").
      split_and!.
      * rewrite HD, !string_app_cons. f_equal. by rewrite string_app_assoc.
      * done.
      * intros a r.
        destruct (Hdig a (String (Bytes.char (48 + n mod 10)) r)) as (k & Hk & Hd).
        exists (k + 1). split; [lia|].
        change (String c (D +:+ String (Bytes.char (48 + n mod 10)) "") +:+ r)
          with (String c ((D +:+ String (Bytes.char (48 + n mod 10)) "") +:+ r)).
        rewrite string_app_assoc.
        change (String c (D +:+ String (Bytes.char (48 + n mod 10)) "" +:+ r))
          with (String c D +:+ String (Bytes.char (48 + n mod 10)) r).
        rewrite Hd. simpl.
        rewrite digit_char by (apply Z.mod_pos_bound; lia).
        f_equal. rewrite Z.pow_add_r by lia.
        pose proof (Z.div_mod n 10). lia.
Qed.

Lemma ParseInt_FormatInt (z : Z) :
  Go.inInt64 z = true →
  strconv.ParseInt (strconv.FormatInt z) = Some z ∧ strconv.FormatInt z ≠ "".
Proof.
  unfold Go.inInt64, Go.minInt64, Go.maxInt64.
  rewrite andb_true_iff, !Z.leb_le. intros [Hlo Hhi].
  unfold strconv.FormatInt.
  destruct (fmtDigits_digits (Z.to_nat (Z.log2 (Z.abs z))) (Z.abs z) "")
    as (c & D & HD & [d Hc] & Hdig).
  { split; [lia|]. rewrite Nat2Z.inj_succ, Z2Nat.id by apply Z.log2_nonneg.
    destruct (decide (Z.abs z = 0)) as [->|Hnz]; [done|].
    apply Z.log2_spec. lia. }
  rewrite HD. destruct (Hdig 0 "") as (k & Hk & Hd).
  rewrite string_app_nil_r in *.
  assert (strconv.ParseUint10 (String c D) = Some (Z.abs z)) as HU.
  { change (strconv.ParseUint10 (String c D)) with (strconv.digits 0 (String c D)).
    rewrite Hd. simpl. f_equal; lia. }
  assert (c ≠ "+"%char ∧ c ≠ "-"%char) as [Hp Hm].
  { split; intros ->; vm_compute in Hc; discriminate. }
  destruct (z <? 0) eqn:E.
  - apply Z.ltb_lt in E. split; [|done].
    change (strconv.ParseInt (String "-" (String c D)))
      with (match strconv.ParseUint10 (String c D) with
            | None => None
            | Some un => if un <=? 2 ^ 63 then Some (- un) else None
            end).
    rewrite HU. assert ((Z.abs z <=? 2 ^ 63) = true) as -> by (apply Z.leb_le; lia).
    f_equal; lia.
  - apply Z.ltb_ge in E. split; [|done].
    assert (strconv.ParseInt (String c D)
            = match strconv.ParseUint10 (String c D) with
              | None => None
              | Some un => if un <? 2 ^ 63 then Some un else None
              end) as ->.
    { unfold strconv.ParseInt.
      destruct c as [[] [] [] [] [] [] [] []]; try done. }
    rewrite HU. assert ((Z.abs z <? 2 ^ 63) = true) as -> by (apply Z.ltb_lt; lia).
    f_equal; lia.
Qed.

Lemma digits_no_underscore (s : string) (acc z : Z) :
  strconv.digits acc s = Some z → hasUnderscore s = false.
Proof.
  revert acc. induction s as [|c s IH]; intros acc; [done|]. simpl.
  destruct (strconv.digit c) as [d|] eqn:E; [|done].
  intros H. rewrite (IH _ H), orb_false_r.
  unfold strconv.digit in E.
  destruct (Bytes.code c =? 95) eqn:E95; [|done].
  apply Z.eqb_eq in E95. rewrite E95 in E. done.
Qed.

Lemma FormatInt_no_underscore (z : Z) :
  hasUnderscore (strconv.FormatInt z) = false.
Proof.
  unfold strconv.FormatInt.
  destruct (fmtDigits_digits (Z.to_nat (Z.log2 (Z.abs z))) (Z.abs z) "")
    as (c & D & HD & _ & Hdig).
  { split; [lia|]. rewrite Nat2Z.inj_succ, Z2Nat.id by apply Z.log2_nonneg.
    destruct (decide (Z.abs z = 0)) as [->|Hnz]; [done|].
    apply Z.log2_spec. lia. }
  rewrite HD, string_app_nil_r. destruct (Hdig 0 "") as (k & _ & Hd).
  rewrite string_app_nil_r in Hd.
  assert (hasUnderscore (String c D) = false) as Hu
    by by eapply digits_no_underscore.
  by destruct (z <? 0).
Qed.

Lemma split_at_underscore (a1 a2 r1 r2 : string) :
  hasUnderscore r1 = false → hasUnderscore r2 = false →
  a1 +:+ "_" +:+ r1 = a2 +:+ "_" +:+ r2 → a1 = a2 ∧ r1 = r2.
Proof.
  assert (∀ a r, hasUnderscore (a +:+ "_" +:+ r) = true) as Hu.
  { intros a r. induction a as [|c a IH]; [done|].
    rewrite string_app_cons. simpl. by rewrite IH, orb_true_r. }
  revert a2. induction a1 as [|c a1 IH]; intros [|d a2] H1 H2 He.
  - change (String "_" r1 = String "_" r2) in He. by injection He as ->.
  - change (String "_" r1 = String d (a2 +:+ "_" +:+ r2)) in He.
    injection He as <- ->. by rewrite Hu in H1.
  - change (String c (a1 +:+ "_" +:+ r1) = String "_" r2) in He.
    injection He as -> <-. by rewrite Hu in H2.
  - change (String c (a1 +:+ "_" +:+ r1) = String d (a2 +:+ "_" +:+ r2)) in He.
    injection He as -> He.
    destruct (IH a2 H1 H2 He) as [-> ->]. done.
Qed.

(** * Session ids *)

Lemma hexdigit_lower (n : Z) : 0 ≤ n < 16 → isLowerHex (hex.hexdigit n) = true.
Proof.
  intros H.
  assert (n = 0 ∨ n = 1 ∨ n = 2 ∨ n = 3 ∨ n = 4 ∨ n = 5 ∨ n = 6 ∨ n = 7 ∨
          n = 8 ∨ n = 9 ∨ n = 10 ∨ n = 11 ∨ n = 12 ∨ n = 13 ∨ n = 14 ∨ n = 15)
    as Hn by lia.
  repeat destruct Hn as [->|Hn]; try subst n; reflexivity.
Qed.

Lemma byte_high (x : Z) : isLowerHex (hex.hexdigit (x mod 256 / 16)) = true.
Proof.
  apply hexdigit_lower.
  pose proof (Z.mod_pos_bound x 256 eq_refl).
  split; [apply Z.div_pos; lia|apply Z.div_lt_upper_bound; lia].
Qed.

Lemma byte_low (x : Z) : isLowerHex (hex.hexdigit (x mod 256 mod 16)) = true.
Proof. apply hexdigit_lower. apply Z.mod_pos_bound. lia. Qed.

(** X1: a session id is always sixteen characters long, each of them a
    lower-case hexadecimal digit. *)
Theorem generateFileID_format (filename : string) (uploadTime : Z) :
  String.length (generateFileID filename uploadTime) = 16%nat ∧
  allOf isLowerHex (generateFileID filename uploadTime) = true.
Proof.
  unfold generateFileID, sha256.Sum256.
  generalize (sha256.blocks
    (length (sha256.pad (Bytes.of_string
       (filename +:+ "_" +:+ strconv.FormatInt uploadTime))))
    sha256.init
    (sha256.pad (Bytes.of_string
       (filename +:+ "_" +:+ strconv.FormatInt uploadTime)))).
  intros st. unfold Go.slice_to, fileIDLength.
  change (Z.to_nat 16) with 16%nat.
  cbn [sha256.digest sha256.be_bytes app hex.EncodeToString String.substring allOf].
  split; [reflexivity|].
  by rewrite !byte_high, !byte_low.
Qed.

(** X2: the id is the first sixteen hexadecimal digits of the SHA-256 of
    "<name>_<time>", a string from which the name and the time can be read
    back: two uploads hash the same string only when they agree on both. *)
Theorem generateFileID_input_is_unambiguous (filename filename' : string)
    (uploadTime uploadTime' : Z) :
  Go.inInt64 uploadTime = true → Go.inInt64 uploadTime' = true →
  generateFileID filename uploadTime
  = Go.slice_to
      (hex.EncodeToString
         (sha256.Sum256
            (Bytes.of_string (filename +:+ "_" +:+ strconv.FormatInt uploadTime))))
      16 ∧
  (filename +:+ "_" +:+ strconv.FormatInt uploadTime
   = filename' +:+ "_" +:+ strconv.FormatInt uploadTime' →
   filename = filename' ∧ uploadTime = uploadTime').
Proof.
  intros Ht Ht'. split; [done|]. intros He.
  apply split_at_underscore in He as [-> He];
    [|apply FormatInt_no_underscore..].
  split; [done|].
  pose proof (proj1 (ParseInt_FormatInt uploadTime Ht)) as H1.
  pose proof (proj1 (ParseInt_FormatInt uploadTime' Ht')) as H2.
  rewrite He in H1. congruence.
Qed.

(** * The session store: invariants and requests *)

Lemma ids_derived_insert (a : API.t) (name : string) (now size_ : Z)
    (records : list Connection.t) (cur lp : string) :
  ids_derived a →
  ids_derived
    {| API.files :=
         <[generateFileID name now :=
             {| FileData.Filename := name; FileData.UploadTime := now;
                FileData.Size := size_; FileData.Connections := records |}]>
           (API.files a);
       API.currentFileID := cur; API.logPath := lp |}.
Proof.
  intros H id fd. simpl.
  destruct (decide (id = generateFileID name now)) as [->|Hne].
  - rewrite lookup_insert_eq. by intros [= <-].
  - rewrite lookup_insert_ne by done. apply H.
Qed.

(** X3: in every store the server can reach, each session is filed under
    the id derived from its own file name and upload time; the id has
    sixteen characters and is never empty. *)
Theorem reachable_ids_derived (a : API.t) (id : string) (fileData : FileData.t) :
  reachable a → API.files a !! id = Some fileData →
  id = generateFileID (FileData.Filename fileData) (FileData.UploadTime fileData) ∧
  String.length id = 16%nat ∧ id ≠ "".
Proof.
  intros Hr Hid.
  enough (ids_derived a) as H.
  { rewrite (H id fileData Hid).
    split_and!; [done|apply generateFileID_length|apply generateFileID_nonempty]. }
  clear id fileData Hid.
  induction Hr as [lp|a opened now _ IH|a method form now _ IH
                  |a method body _ IH|rho a method body Hp _ IH].
  - intros id fd. simpl. by rewrite lookup_empty.
  - unfold LoadConnections. destruct opened as [file|]; [|done].
    destruct (LoadConnectionsFromReader file).1; [done|].
    by apply ids_derived_insert.
  - unfold UploadFile. case_bool_decide; [|done]. simpl.
    destruct form as [| |Filename Size file]; [done..|].
    destruct (LoadConnectionsFromReader file).1; [done|].
    by apply ids_derived_insert.
  - unfold SwitchFile. case_bool_decide; [|done]. simpl.
    destruct body as [|FileID]; [done|]. case_bool_decide; [done|].
    by destruct (API.files a !! FileID).
  - unfold DeleteFile. destruct (_ && _); [done|].
    destruct body as [|FileID]; [done|]. case_bool_decide; [done|].
    destruct (API.files a !! FileID) as [fd|] eqn:E; [|done].
    case_bool_decide; [done|].
    intros id fd'. simpl. intros [_ Hl]%lookup_delete_Some. by apply IH.
Qed.



(** X5: a store that holds a session still holds one after any upload,
    switch, delete or load request, whatever the request is. *)
Theorem store_is_never_emptied (rho : Go.shuffle) (a : API.t) :
  API.files a ≠ ∅ →
  (∀ method form now, API.files (UploadFile a method form now).1 ≠ ∅) ∧
  (∀ method body, API.files (SwitchFile a method body).1 ≠ ∅) ∧
  (∀ method body, API.files (DeleteFile rho a method body).1 ≠ ∅) ∧
  (∀ opened now, API.files (LoadConnections a opened now).1 ≠ ∅).
Proof.
  intros Hne. split_and!.
  - intros method form now. unfold UploadFile. case_bool_decide; [|done]. simpl.
    destruct form as [| |Filename Size file]; [done..|].
    destruct (LoadConnectionsFromReader file).1; [done|]. simpl.
    apply insert_non_empty.
  - intros method body. unfold SwitchFile. case_bool_decide; [|done]. simpl.
    destruct body as [|FileID]; [done|]. case_bool_decide; [done|].
    by destruct (API.files a !! FileID).
  - intros method body. unfold DeleteFile. destruct (_ && _); [done|].
    destruct body as [|FileID]; [done|]. case_bool_decide; [done|].
    destruct (API.files a !! FileID) as [fd|] eqn:E; [|done].
    case_bool_decide as Hsz; [done|]. simpl.
    by apply size_ge_2_delete_nonempty.
  - intros opened now. unfold LoadConnections. destruct opened as [file|]; [|done].
    destruct (LoadConnectionsFromReader file).1; [done|]. simpl.
    apply insert_non_empty.
Qed.


Lemma getCurrentConnections_insert (a : API.t) (id lp : string) (fd : FileData.t) :
  id ≠ "" →
  getCurrentConnections
    {| API.files := <[id := fd]> (API.files a);
       API.currentFileID := id; API.logPath := lp |}
  = FileData.Connections fd.
Proof.
  intros Hid. unfold getCurrentConnections. simpl.
  case_bool_decide; [done|]. by rewrite lookup_insert_eq.
Qed.


(** X8: when the scanner ends with an error, the records parsed before it
    are dropped: the reader returns the error with the failures it logged,
    no record and no final count, and the upload is refused with status 400
    without touching the store. *)
Theorem read_error_discards_the_records (a : API.t) (lines : list string)
    (filename : string) (size_ now : Z) :
  let file := {| bufio.Scanner.Lines := lines; bufio.Scanner.Err := true |} in
  LoadConnectionsFromReader file
  = (inl errErrorReadingData, omap failureOf lines) ∧
  UploadFile a "POST" (FormFile filename size_ file) now
  = (a, HttpError StatusBadRequest "Failed to parse connection log file").
Proof.
  intros file. unfold UploadFile, LoadConnectionsFromReader. simpl.
  rewrite scan_lines. done.
Qed.

(** X9: [LoadConnections] returns an error and leaves the store alone when
    the log file cannot be opened or read.  Otherwise it files the parsed
    records under the id of the log path and the current second, with size
    0, makes that session current and leaves the other sessions as they
    were. *)
Theorem LoadConnections_spec (a : API.t) (file : bufio.Scanner.t) (now : Z) :
  LoadConnections a None now = (a, Some errFailedToOpenLogFile) ∧
  (bufio.Scanner.Err file = true →
     LoadConnections a (Some file) now = (a, Some errErrorReadingData)) ∧
  (bufio.Scanner.Err file = false →
     let a' := (LoadConnections a (Some file) now).1 in
     let id := generateFileID (API.logPath a) now in
     (LoadConnections a (Some file) now).2 = None ∧
     API.currentFileID a' = id ∧
     API.logPath a' = API.logPath a ∧
     API.files a' !! id
     = Some {| FileData.Filename := API.logPath a; FileData.UploadTime := now;
               FileData.Size := 0;
               FileData.Connections := omap recordOf (bufio.Scanner.Lines file) |} ∧
     (∀ k, k ≠ id → API.files a' !! k = API.files a !! k) ∧
     GetConnections a' "" "" "" "" = omap recordOf (bufio.Scanner.Lines file)).
Proof.
  split_and!.
  - done.
  - intros Herr. unfold LoadConnections, LoadConnectionsFromReader.
    rewrite scan_lines, Herr. done.
  - intros Herr. unfold LoadConnections, LoadConnectionsFromReader.
    rewrite scan_lines, Herr. simpl. split_and!; try done.
    + by rewrite lookup_insert_eq.
    + intros k Hk. by rewrite lookup_insert_ne.
    + unfold GetConnections.
      rewrite getCurrentConnections_insert; [done|apply generateFileID_nonempty].
Qed.

(** X10: a switch request is refused with status 405 unless it is a POST,
    with status 400 for a body that is no JSON or names no id, with status
    404 for an id that names no session; the store is then unchanged.  A
    POST for a stored id makes that session current and changes nothing
    else: its records are the ones served afterwards, the response carries
    its name and the number of its records, and the same request once more
    gives the same store and the same response. *)
Theorem SwitchFile_spec (a : API.t) (method id : string) :
  (∀ body, method ≠ "POST" →
     SwitchFile a method body = (a, HttpError StatusMethodNotAllowed "Method not allowed")) ∧
  SwitchFile a "POST" InvalidJSON = (a, HttpError StatusBadRequest "Invalid JSON body") ∧
  SwitchFile a "POST" (Request "") = (a, HttpError StatusBadRequest "File ID is required") ∧
  (id ≠ "" → API.files a !! id = None →
     SwitchFile a "POST" (Request id) = (a, HttpError StatusNotFound "File not found")) ∧
  (∀ fileData, id ≠ "" → API.files a !! id = Some fileData →
     let a' := (SwitchFile a "POST" (Request id)).1 in
     let resp := (SwitchFile a "POST" (Request id)).2 in
     API.files a' = API.files a ∧
     API.currentFileID a' = id ∧
     API.logPath a' = API.logPath a ∧
     GetConnections a' "" "" "" "" = FileData.Connections fileData ∧
     resp = Json {| SwitchResponse.success := true;
                    SwitchResponse.message :=
                      "Switched to " +:+ FileData.Filename fileData;
                    SwitchResponse.current_file := id;
                    SwitchResponse.filename := FileData.Filename fileData;
                    SwitchResponse.connections_count :=
                      Z.of_nat (length (FileData.Connections fileData)) |} ∧
     SwitchFile a' "POST" (Request id) = (a', resp)).
Proof.
  split_and!.
  - intros body Hm. unfold SwitchFile. by case_bool_decide.
  - done.
  - done.
  - intros Hid Hn. unfold SwitchFile. simpl. case_bool_decide; [done|].
    by rewrite Hn.
  - intros fd Hid Hfd. unfold SwitchFile. simpl. case_bool_decide; [done|].
    rewrite Hfd. simpl. split_and!; try done.
    + unfold GetConnections, getCurrentConnections. simpl.
      case_bool_decide; [done|]. by rewrite Hfd.
    + by rewrite Hfd.
Qed.

#[global] Instance byUploadTimeDesc_trans : Transitive byUploadTimeDesc.
Proof. intros x y z. unfold byUploadTimeDesc. lia. Qed.
#[global] Instance byUploadTimeDesc_total : Total byUploadTimeDesc.
Proof. intros x y. unfold byUploadTimeDesc. lia. Qed.

Lemma GetFiles_Permutation (rho : Go.shuffle) (a : API.t) :
  Go.permutes rho →
  FilesResponse.files (GetFiles rho a)
  ≡ₚ (fun kv => fileInfo a kv.1 kv.2) <$> map_to_list (API.files a).
Proof.
  intros Hp. unfold GetFiles. simpl.
  rewrite sort_Slice_Permutation by done.
  by rewrite (range_Permutation rho).
Qed.

(** X11: once a session has been deleted it is gone: the other sessions are
    unchanged, a switch to the deleted id and a second delete of it are
    answered with status 404, and the file list does not show it. *)
Theorem deleted_session_is_gone (rho rho' : Go.shuffle) (a : API.t)
    (method id : string) (fileData : FileData.t) :
  Go.permutes rho' →
  method = "DELETE" ∨ method = "POST" →
  id ≠ "" → API.files a !! id = Some fileData → (2 ≤ size (API.files a))%nat →
  let a' := (DeleteFile rho a method (Request id)).1 in
  (DeleteFile rho a method (Request id)).2
  = Json {| DeleteResponse.success := true;
            DeleteResponse.message := "Deleted " +:+ FileData.Filename fileData;
            DeleteResponse.current_file := API.currentFileID a';
            DeleteResponse.total_files := Z.of_nat (size (API.files a')) |} ∧
  API.files a' !! id = None ∧
  (∀ k, k ≠ id → API.files a' !! k = API.files a !! k) ∧
  SwitchFile a' "POST" (Request id) = (a', HttpError StatusNotFound "File not found") ∧
  DeleteFile rho' a' method (Request id) = (a', HttpError StatusNotFound "File not found") ∧
  id ∉ FileInfo.ID <$> FilesResponse.files (GetFiles rho' a').
Proof.
  intros Hp Hm Hid Hfd Hsz a'.
  assert (negb (bool_decide (method = "DELETE")) &&
          negb (bool_decide (method = "POST")) = false) as Hmeth.
  { destruct Hm as [->| ->]; done. }
  assert (API.files a' = delete id (API.files a)) as Hfiles.
  { unfold a', DeleteFile. rewrite Hmeth. cbv iota.
    rewrite (bool_decide_eq_false_2 _ Hid), Hfd.
    by rewrite bool_decide_eq_false_2 by lia. }
  assert (API.files a' !! id = None) as Hgone
    by (rewrite Hfiles; apply lookup_delete_eq).
  split_and!.
  - unfold a', DeleteFile. rewrite Hmeth. cbv iota.
    rewrite (bool_decide_eq_false_2 _ Hid), Hfd.
    by rewrite bool_decide_eq_false_2 by lia.
  - done.
  - intros k Hk. rewrite Hfiles. by apply lookup_delete_ne.
  - unfold SwitchFile. simpl.
    by rewrite (bool_decide_eq_false_2 _ Hid), Hgone.
  - unfold DeleteFile. rewrite Hmeth. cbv iota.
    by rewrite (bool_decide_eq_false_2 _ Hid), Hgone.
  - rewrite (GetFiles_Permutation rho' a' Hp), <- list_fmap_compose.
    intros ([k fd] & Hk & Hin)%list_elem_of_fmap. simpl in Hk. subst k.
    apply elem_of_map_to_list in Hin. congruence.
Qed.

(** X12: the file list holds one entry per stored session, with its id,
    name, upload time, size and number of records; the entries come most
    recent upload first, and the response carries their number and the
    current id. *)
Theorem GetFiles_spec (rho : Go.shuffle) (a : API.t) :
  Go.permutes rho →
  let r := GetFiles rho a in
  (∀ info, info ∈ FilesResponse.files r ↔
     ∃ id fileData, API.files a !! id = Some fileData ∧
                    info = fileInfo a id fileData) ∧
  NoDup (FileInfo.ID <$> FilesResponse.files r) ∧
  StronglySorted (fun x y => FileInfo.UploadTime y ≤ FileInfo.UploadTime x)
    (FilesResponse.files r) ∧
  FilesResponse.total_files r = Z.of_nat (size (API.files a)) ∧
  FilesResponse.current_file r = API.currentFileID a.
Proof.
  intros Hp r. pose proof (GetFiles_Permutation rho a Hp) as Hperm.
  fold r in Hperm. split_and!.
  - intros info. rewrite Hperm, list_elem_of_fmap. split.
    + intros ([id fd] & -> & Hin). apply elem_of_map_to_list in Hin.
      by exists id, fd.
    + intros (id & fd & Hin & ->). exists (id, fd). split; [done|].
      by apply elem_of_map_to_list.
  - rewrite Hperm, <- list_fmap_compose.
    apply (NoDup_fst_map_to_list (API.files a)).
  - apply (Sorted_StronglySorted byUploadTimeDesc).
    unfold r, GetFiles. simpl. apply sort_Slice_Sorted, _.
  - unfold r, GetFiles. cbn [FilesResponse.total_files].
    change (length (Go.sort_Slice rho byUploadTimeDesc ?l)) with (length (FilesResponse.files r)).
    rewrite Hperm, length_fmap. by rewrite length_map_to_list.
  - done.
Qed.

(** X13: in a store the server can reach the file list marks exactly one
    entry as current, the entry of the current id; the list of the empty
    store is empty. *)
Theorem GetFiles_marks_the_current_session (rho : Go.shuffle) (a : API.t) :
  Go.permutes rho → reachable a →
  let listed := FilesResponse.files (GetFiles rho a) in
  (∀ fileData, API.files a !! API.currentFileID a = Some fileData →
     filter (fun info => FileInfo.IsCurrent info = true) listed
     = [fileInfo a (API.currentFileID a) fileData]) ∧
  (API.files a ≠ ∅ →
     length (filter (fun info => FileInfo.IsCurrent info = true) listed) = 1%nat) ∧
  (API.files a = ∅ → listed = []).
Proof.
  intros Hp Hr listed.
  pose proof (GetFiles_Permutation rho a Hp) as Hperm. fold listed in Hperm.
  assert (∀ fd, API.files a !! API.currentFileID a = Some fd →
            filter (fun info => FileInfo.IsCurrent info = true) listed
            = [fileInfo a (API.currentFileID a) fd]) as Hone.
  { intros fd Hfd. apply Permutation_singleton_r.
    rewrite Hperm.
    rewrite <- (insert_delete_id (API.files a) _ _ Hfd) at 1.
    rewrite map_to_list_insert by apply lookup_delete_eq.
    rewrite fmap_cons, filter_cons_True by (simpl; by case_bool_decide).
    simpl. apply Permutation_skip.
    rewrite filter_none; [done|].
    intros info ([id fd'] & -> & Hin)%list_elem_of_fmap. simpl.
    apply elem_of_map_to_list, lookup_delete_Some in Hin as [Hne _].
    by case_bool_decide. }
  split_and!.
  - done.
  - intros Hne. destruct (reachable_store_ok a Hr) as [_ Hcur].
    destruct (Hcur Hne) as [fd Hfd]. by rewrite (Hone fd Hfd).
  - intros He. apply Permutation_nil_r. rewrite Hperm, He.
    by rewrite map_to_list_empty.
Qed.

(** * The filter pipeline as a whole *)

Lemma applyTimeFilter_filter (r : list Connection.t) (startTime endTime : string) :
  applyTimeFilter r startTime endTime = filter (inWindow startTime endTime) r.
Proof.
  unfold applyTimeFilter.
  assert (∀ s e, strconv.ParseInt s = None ∨ strconv.ParseInt e = None →
            filter (inWindow s e) r = r) as Hoff.
  { intros s e Hn. apply filter_all. intros c _. unfold inWindow.
    destruct Hn as [-> | ->]; [done|]. by destruct (strconv.ParseInt s). }
  case_bool_decide as Hs; [subst; by rewrite Hoff by by left|].
  case_bool_decide as He; [subst; by rewrite Hoff by by right|].
  simpl.
  destruct (strconv.ParseInt startTime) as [start|] eqn:E1;
    [|by rewrite Hoff by (left; by rewrite E1)].
  destruct (strconv.ParseInt endTime) as [end_|] eqn:E2;
    [|by rewrite Hoff by (right; by rewrite E2)].
  rewrite (append_loop_filter (inWindow startTime endTime)); [done|].
  intros c. unfold inWindow, wholeSecond. rewrite E1, E2.
  by rewrite andb_true_iff, !Z.leb_le.
Qed.

Lemma filterConnections_filter (r : list Connection.t)
    (startTime endTime protocol connState : string) :
  filterConnections r startTime endTime protocol connState
  = filter (selected startTime endTime protocol connState) r.
Proof.
  unfold filterConnections.
  rewrite applyTimeFilter_filter, applyProtocolFilter_filter,
          applyConnStateFilter_filter.
  destruct (decide (noFilter protocol)) as [HP|HP],
           (decide (noFilter connState)) as [HS|HS];
    rewrite ?list_filter_filter; apply list_filter_iff;
    intros c; unfold selected; tauto.
Qed.

(** X14: the three filters together keep, in order, exactly the records
    inside the time window (open when a bound is missing or unparsable), of
    the protocol asked for and of the state asked for ("" and "all" ask for
    none); [GetConnections] serves these records of the current session and
    [GetNodes] builds its graph from them. *)
Theorem filterConnections_selects (rho : Go.shuffle) (a : API.t)
    (r : list Connection.t) (startTime endTime protocol connState : string) :
  filterConnections r startTime endTime protocol connState
  = filter (selected startTime endTime protocol connState) r ∧
  GetConnections a startTime endTime protocol connState
  = filter (selected startTime endTime protocol connState)
      (getCurrentConnections a) ∧
  (let graph := GetNodes rho a startTime endTime protocol connState in
   (NetworkGraph.Nodes graph, NetworkGraph.Edges graph)
   = buildNodesAndEdges rho
       (filter (selected startTime endTime protocol connState)
          (getCurrentConnections a))).
Proof.
  split_and!.
  - apply filterConnections_filter.
  - apply filterConnections_filter.
  - unfold GetNodes. rewrite filterConnections_filter.
    by destruct (buildNodesAndEdges _ _).
Qed.

(** X15: filtering never adds, repeats or reorders records; filtering twice
    by the same query is filtering once; the filter of a concatenation is
    the concatenation of the filters; two queries can be applied in either
    order, and so can the three stages of one query. *)
Theorem filterConnections_algebra (r r' : list Connection.t)
    (s e p st s' e' p' st' : string) :
  filterConnections r s e p st `sublist_of` r ∧
  filterConnections (filterConnections r s e p st) s e p st
  = filterConnections r s e p st ∧
  filterConnections (r ++ r') s e p st
  = filterConnections r s e p st ++ filterConnections r' s e p st ∧
  filterConnections (filterConnections r s e p st) s' e' p' st'
  = filterConnections (filterConnections r s' e' p' st') s e p st ∧
  applyConnStateFilter (applyProtocolFilter (applyTimeFilter r s e) p) st
  = applyTimeFilter (applyProtocolFilter (applyConnStateFilter r st) p) s e.
Proof.
  rewrite !filterConnections_filter. split_and!.
  - apply sublist_filter.
  - rewrite list_filter_filter. apply list_filter_iff. tauto.
  - apply filter_app.
  - rewrite !list_filter_filter. apply list_filter_iff. tauto.
  - rewrite !applyTimeFilter_filter, !applyProtocolFilter_filter,
            !applyConnStateFilter_filter.
    destruct (decide (noFilter p)), (decide (noFilter st));
      rewrite ?list_filter_filter; apply list_filter_iff; tauto.
Qed.


(** * The summary *)

Lemma incr_lookup (m : gmap string Z) (k k' : string) :
  incr m k !! k'
  = if decide (k' = k) then Some (Go.wrap64 (default 0 (m !! k) + 1)) else m !! k'.
Proof.
  unfold incr. destruct (decide (k' = k)) as [->|Hne].
  - by rewrite lookup_insert_eq.
  - by rewrite lookup_insert_ne.
Qed.

Lemma tally_snoc (key : Connection.t → string) (l : list Connection.t)
    (c : Connection.t) (k : string) :
  tally key (l ++ [c]) k
  = if decide (k = key c)
    then Some (Go.wrap64 (default 0 (tally key l (key c)) + 1))
    else tally key l k.
Proof.
  unfold tally. rewrite filter_app.
  destruct (decide (k = key c)) as [->|Hne].
  - rewrite (filter_cons_True _ c), filter_nil by done.
    destruct (filter _ l) as [|c0 l0]; simpl; [done|].
    rewrite length_app, wrap64_add_l. simpl. do 2 f_equal. lia.
  - rewrite (filter_cons_False _ c), filter_nil, app_nil_r by done. done.
Qed.

Lemma incr_tally (key : Connection.t → string) (m : gmap string Z)
    (l : list Connection.t) (c : Connection.t) :
  (∀ k, m !! k = tally key l k) →
  ∀ k, incr m (key c) !! k = tally key (l ++ [c]) k.
Proof.
  intros Hm k. rewrite incr_lookup, tally_snoc, !Hm. done.
Qed.

Lemma hostsOf_snoc (l : list Connection.t) (c : Connection.t) :
  hostsOf (l ++ [c])
  = {[Connection.RespHost c]} ∪ ({[Connection.OrigHost c]} ∪ hostsOf l).
Proof.
  unfold hostsOf. rewrite flat_map_app, list_to_set_app_L. simpl.
  apply set_eq. intros x.
  rewrite !elem_of_union, !elem_of_singleton, elem_of_empty. tauto.
Qed.

Lemma processConnectionStats_summarizes (conns : list Connection.t) :
  summarizes conns (processConnectionStats conns).
Proof.
  unfold processConnectionStats.
  match goal with |- context [fold_left ?f _ _] => set (step := f) end.
  enough (∀ l1 l0 st, summarizes l0 st →
            summarizes (l0 ++ l1) (fold_left step l1 st)) as H.
  { apply (H conns []). unfold summarizes, tally, hostsOf. simpl.
    split_and!; try done.
    intros s. by destruct (decide _). }
  induction l1 as [|c l1 IH]; intros l0 st Hst.
  - by rewrite app_nil_r.
  - simpl. replace (l0 ++ c :: l1) with ((l0 ++ [c]) ++ l1)
      by by rewrite <- app_assoc.
    apply IH. destruct Hst as (Hp & Hs & Hc & Hu & Hb).
    unfold summarizes, step. simpl. split_and!.
    + by apply incr_tally.
    + intros s. case_bool_decide as Hse; simpl.
      * rewrite Hs, tally_snoc. rewrite Hse.
        destruct (decide (s = "")) as [->|Hne]; [done|].
        destruct (decide (s = "")); done.
      * rewrite incr_lookup, tally_snoc, !Hs.
        destruct (decide (s = Connection.Service c)) as [->|Hne].
        -- by rewrite !decide_False by done.
        -- done.
    + by apply incr_tally.
    + rewrite Hu, hostsOf_snoc.
      by rewrite <- !gset_to_gmap_union_singleton.
    + rewrite Hb, sumBytes_app, wrap64_add_l. f_equal.
      unfold sumBytes. simpl. lia.
Qed.

Lemma processConnectionStats_ranges (conns : list Connection.t) :
  ranges conns (processConnectionStats conns).
Proof.
  unfold processConnectionStats.
  match goal with |- context [fold_left ?f _ _] => set (step := f) end.
  enough (∀ l1 l0 st, ranges l0 st → ranges (l0 ++ l1) (fold_left step l1 st)) as H.
  { by apply (H conns []). }
  induction l1 as [|c l1 IH]; intros l0 st Hst.
  - by rewrite app_nil_r.
  - simpl. replace (l0 ++ c :: l1) with ((l0 ++ [c]) ++ l1)
      by by rewrite <- app_assoc.
    apply IH. clear IH. unfold ranges in *. rewrite last_snoc.
    unfold step, F64.eqb, F64.ltb. cbn [ConnectionStats.startTime ConnectionStats.endTime].
    destruct (last l0) as [c0|] eqn:El.
    + destruct Hst as ((d1 & Hd1 & Hs) & (d2 & Hd2 & He) & Hb & Hall).
      assert (∀ d, d ∈ l0 ++ [c] ↔ d ∈ l0 ∨ d = c) as Hin.
      { intros d. by rewrite elem_of_app, list_elem_of_singleton. }
      split_and!.
      * destruct (_ || _); [exists c|exists d1]; rewrite Hin; auto.
      * destruct (_ || _); [exists c|exists d2]; rewrite Hin; auto.
      * destruct (_ || _) eqn:E1; [lia|].
        apply orb_false_iff in E1 as [_ E1]. lia.
      * destruct (_ || _) eqn:E2; [lia|].
        apply orb_false_iff in E2 as [_ E2]. lia.
      * intros Hno d Hd.
        assert (∀ d, d ∈ l0 → Connection.Timestamp d ≠ unset) as Hno0.
        { intros d' Hd'. apply Hno, Hin. by left. }
        specialize (Hall Hno0).
        assert ((ConnectionStats.startTime st =? unset) = false) as ->.
        { apply Z.eqb_neq. rewrite Hs. by apply Hno0. }
        assert ((ConnectionStats.endTime st =? unset) = false) as ->.
        { apply Z.eqb_neq. rewrite He. by apply Hno0. }
        simpl. apply Hin in Hd as [Hd| ->].
        -- specialize (Hall d Hd).
           destruct (Connection.Timestamp c <? _) eqn:E1;
             destruct (_ <? Connection.Timestamp c) eqn:E2; lia.
        -- destruct (Connection.Timestamp c <? _) eqn:E1;
             destruct (_ <? Connection.Timestamp c) eqn:E2; lia.
    + destruct Hst as [-> ->]. apply last_None in El as ->.
      rewrite Z.eqb_refl. simpl.
      split_and!; try (exists c; split; [left|done]); try lia.
      intros _ d Hd. apply list_elem_of_singleton in Hd as ->. lia.
Qed.


(** X17: the protocol and state distributions count, for each value, the
    records that carry it (as 64-bit integers), with no entry for a value
    that no record carries; the service distribution does the same for the
    non-empty services and never has an entry for the empty one. *)
Theorem processConnectionStats_distributions (conns : list Connection.t) :
  let st := processConnectionStats conns in
  (∀ p, ConnectionStats.protocols st !! p = tally Connection.Protocol conns p) ∧
  (∀ s, s ≠ "" →
        ConnectionStats.services st !! s = tally Connection.Service conns s) ∧
  ConnectionStats.services st !! "" = None ∧
  (∀ s, ConnectionStats.connStates st !! s = tally Connection.ConnState conns s).
Proof.
  destruct (processConnectionStats_summarizes conns) as (Hp & Hs & Hc & _).
  split_and!; [done| |by rewrite Hs|done].
  intros s Hne. rewrite Hs. by destruct (decide (s = "")).
Qed.


(** X19: on a non-empty record set both ends of the time range are
    timestamps of records, start is at most end, and the duration is never
    negative.  Start is the smallest and end the largest timestamp when no
    record has the timestamp -1, the value the code uses for "not set
    yet". *)
Theorem processConnectionStats_time_range (conns : list Connection.t) :
  conns ≠ [] →
  let st := processConnectionStats conns in
  let start := ConnectionStats.startTime st in
  let end_ := ConnectionStats.endTime st in
  (∃ c, c ∈ conns ∧ start = Connection.Timestamp c) ∧
  (∃ c, c ∈ conns ∧ end_ = Connection.Timestamp c) ∧
  start ≤ end_ ∧
  (∀ duration, F64.sub end_ start = Some duration → 0 ≤ duration) ∧
  ((∀ c, c ∈ conns → Connection.Timestamp c ≠ F64.of_int (-1)) →
   ∀ c, c ∈ conns → start ≤ Connection.Timestamp c ≤ end_).
Proof.
  intros Hne st start end_.
  pose proof (processConnectionStats_ranges conns) as H. unfold ranges in H.
  destruct (last conns) as [c|] eqn:El; [|by apply last_None in El].
  destruct H as (Hs & He & Hb & Hall). fold st in Hs, He, Hb, Hall.
  fold start in Hs, Hb, Hall. fold end_ in He, Hb, Hall.
  split_and!; [done|done|lia| |done].
  intros duration. unfold F64.sub, F64.round.
  destruct (F64.overflows _); [done|]. intros [= <-].
  assert ((end_ - start <? 0) = false) as -> by (apply Z.ltb_ge; lia).
  apply round_pos_nonneg; lia.
Qed.

Example timestamp_minus_one_restarts_the_range :
  ConnectionStats.startTime
    (processConnectionStats [exampleRecord (-1) 0; exampleRecord 5 0])
  = F64.of_int 5.
Proof. by vm_compute. Qed.

(** X20: the table of connection states has one entry per state of the
    distribution, with its count and its description, sorted by count,
    largest first. *)
Theorem buildConnStateDescriptions_spec (rho : Go.shuffle)
    (connStates : gmap string Z) :
  Go.permutes rho →
  let table := buildConnStateDescriptions rho connStates in
  (∀ entry, entry ∈ table ↔
     ∃ code count, connStates !! code = Some count ∧
                   entry = stateDescription code count) ∧
  NoDup (StateDescription.code <$> table) ∧
  length table = size connStates ∧
  StronglySorted
    (fun x y => StateDescription.count y ≤ StateDescription.count x) table.
Proof.
  intros Hp table.
  assert (table ≡ₚ (fun kv => stateDescription kv.1 kv.2) <$> map_to_list connStates)
    as Hperm.
  { unfold table, buildConnStateDescriptions.
    rewrite sort_Slice_Permutation by done.
    by rewrite (range_Permutation rho). }
  split_and!.
  - intros entry. rewrite Hperm, list_elem_of_fmap. split.
    + intros ([code n] & -> & Hin). apply elem_of_map_to_list in Hin.
      by exists code, n.
    + intros (code & n & Hin & ->). exists (code, n). split; [done|].
      by apply elem_of_map_to_list.
  - rewrite Hperm, <- list_fmap_compose.
    apply (NoDup_fst_map_to_list connStates).
  - by rewrite Hperm, length_fmap, length_map_to_list.
  - apply (Sorted_StronglySorted byCountDesc).
    unfold table, buildConnStateDescriptions. apply sort_Slice_Sorted, _.
Qed.

(** * The nodes of the graph *)

Lemma processNode_lookup (m : gmap string Node.t) (calls : list (string * Z))
    (h : string) (b : Z) :
  (∀ k, m !! k = nodeVia k calls) →
  ∀ k, processNode m h b !! k = nodeVia k (calls ++ [(h, b)]).
Proof.
  intros Hm k. unfold processNode.
  destruct (decide (h = k)) as [->|Hk].
  - rewrite !lookup_alter_eq, (Hm k). unfold nodeVia, visits.
    rewrite filter_app, (filter_cons_True _ (k, b)), filter_nil by done.
    destruct (filter _ calls) as [|e0 l0] eqn:E; simpl.
    + rewrite lookup_insert_eq. simpl. unfold sumZ. simpl. by rewrite Z.add_0_r.
    + rewrite (Hm k). unfold nodeVia, visits. rewrite E. simpl.
      rewrite length_app, fmap_app, sumZ_app, !wrap64_add_l. simpl.
      do 2 f_equal.
      * f_equal. lia.
      * f_equal. unfold sumZ. simpl.
        change (list_fmap (string * Z)%type Z snd l0) with (l0.*2). lia.
  - rewrite !lookup_alter_ne by done.
    assert (nodeVia k (calls ++ [(h, b)]) = nodeVia k calls) as ->.
    { unfold nodeVia, visits.
      by rewrite filter_app, (filter_cons_False _ (h, b)), filter_nil, app_nil_r. }
    rewrite <- Hm. by destruct (m !! h); rewrite ?lookup_insert_ne.
Qed.

Lemma accumulate_nodes (conns : list Connection.t) :
  (accumulate conns).1
  = fold_left (fun m e => processNode m e.1 e.2) (endpoints conns) ∅.
Proof.
  unfold accumulate. generalize (∅ : gmap string Node.t).
  generalize (∅ : gmap string Edge.t).
  induction conns as [|c conns IH]; intros em nm; simpl; [done|].
  apply IH.
Qed.

Lemma nodes_via (conns : list Connection.t) (k : string) :
  (accumulate conns).1 !! k = nodeVia k (endpoints conns).
Proof.
  rewrite accumulate_nodes.
  enough (∀ l1 l0 m, (∀ k, m !! k = nodeVia k l0) →
            ∀ k, fold_left (fun m e => processNode m e.1 e.2) l1 m !! k
                 = nodeVia k (l0 ++ l1)) as H.
  { apply (H (endpoints conns) [] ∅). intros k'. by rewrite lookup_empty. }
  clear. induction l1 as [|[h b] l1 IH]; intros l0 m Hm k; simpl.
  - by rewrite app_nil_r.
  - rewrite (IH (l0 ++ [(h, b)])); [by rewrite <- app_assoc|].
    by apply processNode_lookup.
Qed.

Lemma visits_endpoints (k : string) (conns : list Connection.t) :
  Z.of_nat (length (visits k (endpoints conns)))
  = Z.of_nat (length (asOrigin k conns)) + Z.of_nat (length (asResponder k conns)) ∧
  sumZ (visits k (endpoints conns)).*2
  = sumBytes (asOrigin k conns) + sumBytes (asResponder k conns) ∧
  (visits k (endpoints conns) = [] ↔ k ∉ hostsOf conns).
Proof.
  unfold visits, asOrigin, asResponder.
  induction conns as [|c conns (IH1 & IH2 & IH3)].
  - split_and!; [done..|]. split; [|done]. intros _. unfold hostsOf. simpl.
    apply not_elem_of_empty.
  - change (endpoints (c :: conns))
      with ((Connection.OrigHost c, Connection.TotalBytes c) ::
            (Connection.RespHost c, Connection.TotalBytes c) :: endpoints conns).
    assert (k ∈ hostsOf (c :: conns) ↔
            Connection.OrigHost c = k ∨ Connection.RespHost c = k ∨ k ∈ hostsOf conns)
      as Hh.
    { unfold hostsOf. simpl. rewrite !elem_of_union, !elem_of_singleton.
      split; intros; intuition congruence. }
    rewrite Hh.
    rewrite (filter_cons (fun c0 => Connection.OrigHost c0 = k)),
            (filter_cons (fun c0 => Connection.RespHost c0 = k)).
    rewrite !filter_cons. simpl.
    destruct (decide (Connection.OrigHost c = k)) as [Ho|Ho],
             (decide (Connection.RespHost c = k)) as [Hr|Hr];
      simpl; unfold sumZ, sumBytes in *; simpl;
      change (list_fmap (string * Z)%type Z snd ?l) with (l.*2);
      (split_and!; [lia|lia|]); try (split; [done|tauto]).
    rewrite IH3. tauto.
Qed.

Lemma nodes_lookup (conns : list Connection.t) (k : string) :
  (accumulate conns).1 !! k = nodeFor k conns.
Proof.
  rewrite nodes_via. unfold nodeVia, nodeFor, nodeOf.
  destruct (visits_endpoints k conns) as (Hl & Hs & He).
  destruct (visits k (endpoints conns)) as [|e v] eqn:E.
  - rewrite decide_False; [done|]. by apply He.
  - rewrite decide_True.
    + by rewrite Hl, Hs.
    + destruct (decide (k ∈ hostsOf conns)) as [|Hn]; [done|].
      by apply He in Hn.
Qed.

Lemma node_values (conns : list Connection.t) (n : Node.t) :
  n ∈ (map_to_list (accumulate conns).1).*2 ↔
  ∃ host, host ∈ hostsOf conns ∧ n = nodeOf host conns.
Proof.
  rewrite list_elem_of_fmap. split.
  - intros ([k n'] & -> & Hin). simpl.
    apply elem_of_map_to_list in Hin. rewrite nodes_lookup in Hin.
    unfold nodeFor in Hin. destruct (decide _) as [Hk|]; [|done].
    injection Hin as <-. by exists k.
  - intros (k & Hk & ->). exists (k, nodeOf k conns). split; [done|].
    apply elem_of_map_to_list. rewrite nodes_lookup. unfold nodeFor.
    by rewrite decide_True.
Qed.

Lemma node_keys (conns : list Connection.t) :
  Node.ID <$> (map_to_list (accumulate conns).1).*2
  = (map_to_list (accumulate conns).1).*1.
Proof.
  rewrite <- list_fmap_compose. apply Forall_fmap_ext_1, Forall_forall.
  intros [k n] Hin. simpl.
  apply elem_of_map_to_list in Hin. rewrite nodes_lookup in Hin.
  unfold nodeFor in Hin. destruct (decide _); [|done]. by injection Hin as <-.
Qed.

Lemma nodes_dom (conns : list Connection.t) :
  dom (accumulate conns).1 = hostsOf conns.
Proof.
  apply set_eq. intros k. rewrite elem_of_dom, nodes_lookup. unfold nodeFor.
  by destruct (decide _) as [Hk|Hk]; split; try done; intros [].
Qed.

Lemma buildNodesAndEdges_Permutation (rho : Go.shuffle) (conns : list Connection.t) :
  Go.permutes rho →
  (buildNodesAndEdges rho conns).1 ≡ₚ (map_to_list (accumulate conns).1).*2 ∧
  (buildNodesAndEdges rho conns).2 ≡ₚ (map_to_list (accumulate conns).2).*2.
Proof.
  intros Hp. unfold buildNodesAndEdges.
  destruct (accumulate conns) as [nm em]. simpl.
  by rewrite !(range_Permutation rho).
Qed.


(** X21: the graph has one node per host that occurs as origin or as
    responder, and no two nodes share an id.  The node of a host carries
    the host as id and label, its locality, and the number and the bytes of
    the records it originates plus those it answers (as 64-bit integers).
    No records give the empty graph. *)
Theorem buildNodesAndEdges_nodes (rho : Go.shuffle) (conns : list Connection.t) :
  Go.permutes rho →
  let nodes := (buildNodesAndEdges rho conns).1 in
  (∀ n, n ∈ nodes ↔ ∃ host, host ∈ hostsOf conns ∧ n = nodeOf host conns) ∧
  (∀ host, host ∈ hostsOf conns ↔
     ∃ c, c ∈ conns ∧ (Connection.OrigHost c = host ∨ Connection.RespHost c = host)) ∧
  NoDup (Node.ID <$> nodes) ∧
  length nodes = size (hostsOf conns) ∧
  (conns = [] → buildNodesAndEdges rho conns = ([], [])).
Proof.
  intros Hp nodes.
  destruct (buildNodesAndEdges_Permutation rho conns Hp) as [Hperm _].
  fold nodes in Hperm. split_and!.
  - intros n. rewrite Hperm. apply node_values.
  - intros host. unfold hostsOf.
    rewrite elem_of_list_to_set, list_elem_of_In, in_flat_map. split.
    + intros (c & Hc & Hin). exists c. rewrite <- list_elem_of_In in Hc.
      split; [done|]. simpl in Hin. tauto.
    + intros (c & Hc & Hh). exists c. rewrite <- list_elem_of_In.
      split; [done|]. simpl. tauto.
  - rewrite Hperm, node_keys. apply NoDup_fst_map_to_list.
  - rewrite Hperm, length_fmap, length_map_to_list, <- nodes_dom.
    by rewrite size_dom.
  - intros ->. unfold buildNodesAndEdges, Go.range. simpl.
    rewrite !map_to_list_empty.
    pose proof (Hp _ (@nil (string * Node.t))) as H1.
    pose proof (Hp _ (@nil (string * Edge.t))) as H2.
    apply Permutation_nil_r in H1, H2. by rewrite H1, H2.
Qed.

(** X22: every edge of the graph joins two of its nodes: the source and
    the target of an edge are ids of nodes. *)
Theorem edges_join_nodes (rho : Go.shuffle) (conns : list Connection.t)
    (e : Edge.t) :
  Go.permutes rho →
  e ∈ (buildNodesAndEdges rho conns).2 →
  Edge.Source e ∈ Node.ID <$> (buildNodesAndEdges rho conns).1 ∧
  Edge.Target e ∈ Node.ID <$> (buildNodesAndEdges rho conns).1.
Proof.
  intros Hp He.
  destruct (buildNodesAndEdges_Permutation rho conns Hp) as [Hn Hperm].
  rewrite Hperm in He. rewrite Hn. clear Hn Hperm.
  apply edge_values in He as (c & Hc & He).
  destruct (edgeFor_first conns c Hc) as (first & rest & Hw & _ & He').
  rewrite He' in He. injection He as <-. simpl.
  assert (first ∈ conns) as Hf.
  { assert (first ∈ withKey (edgeKey c) conns) as Hin by (rewrite Hw; left).
    by apply list_elem_of_filter in Hin as [_ ?]. }
  assert (∀ h, h ∈ hostsOf conns →
            h ∈ Node.ID <$> (map_to_list (accumulate conns).1).*2) as Hnode.
  { intros h Hh. apply list_elem_of_fmap. exists (nodeOf h conns).
    split; [done|]. apply node_values. by exists h. }
  assert (∀ c, c ∈ conns →
            Connection.OrigHost c ∈ hostsOf conns ∧
            Connection.RespHost c ∈ hostsOf conns) as Hhosts.
  { intros c' Hc'. unfold hostsOf.
    rewrite !elem_of_list_to_set, !list_elem_of_In, !in_flat_map.
    rewrite list_elem_of_In in Hc'.
    split; exists c'; (split; [done|]); simpl; tauto. }
  destruct (Hhosts first Hf). split; by apply Hnode.
Qed.

(** * The buckets of the timeline *)

(** X23: every point of the timeline sits on a multiple of 10 and holds at
    least one record; a record belongs to the point whose timestamp has the
    same quotient by 10 as its whole second, less than 10 seconds away; the
    point at 0 collects the seconds -9 to 9.  There are at most as many
    points as records. *)
Theorem timeline_buckets (rho : Go.shuffle) (conns : list Connection.t)
    (p : TimelinePoint.t) :
  Go.permutes rho →
  p ∈ TimelineData.Points (timelineOf rho conns) →
  (10 | TimelinePoint.Timestamp p) ∧
  (∃ c, c ∈ conns ∧ bucketOf c = TimelinePoint.Timestamp p) ∧
  (∀ c, c ∈ conns →
     (bucketOf c = TimelinePoint.Timestamp p ↔
      Z.quot (wholeSecond c) 10 = Z.quot (TimelinePoint.Timestamp p) 10) ∧
     Z.abs (wholeSecond c - bucketOf c) < 10 ∧
     (bucketOf c = 0 ↔ -10 < wholeSecond c < 10)) ∧
  (length (TimelineData.Points (timelineOf rho conns)) ≤ length conns)%nat.
Proof.
  intros Hp Hin.
  destruct (decide (conns = [])) as [->|Hne].
  { by apply elem_of_nil in Hin. }
  destruct (timeline_points rho conns Hp Hne) as [Hperm _].
  rewrite Hperm in Hin. apply bucket_values in Hin as (c0 & Hc0 & ->). simpl.
  assert (∀ c, bucketOf c = Z.quot (wholeSecond c) 10 * 10) as Hb by done.
  split_and!.
  - rewrite Hb. by apply Z.divide_factor_r.
  - by exists c0.
  - intros c Hc. rewrite !Hb.
    pose proof (Z.quot_rem' (wholeSecond c) 10) as Hqr.
    pose proof (Z.rem_bound_abs (wholeSecond c) 10 ltac:(lia)) as Hra.
    pose proof (Z.rem_sign_nz (wholeSecond c) 10 ltac:(lia)) as Hsg.
    split_and!.
    + rewrite Z.quot_mul by lia. lia.
    + lia.
    + split.
      * intros H0. assert (Z.quot (wholeSecond c) 10 = 0) as Hq by lia.
        apply (Z.quot_small_iff (wholeSecond c) 10 ltac:(lia)) in Hq. lia.
      * intros Hw.
        rewrite (proj2 (Z.quot_small_iff (wholeSecond c) 10 ltac:(lia))); lia.
  - rewrite Hperm, length_fmap, length_map_to_list.
    enough (∀ l m, size (fold_left addToBucket l m) ≤ size m + length l)%nat as H.
    { specialize (H conns ∅). by rewrite map_size_empty in H. }
    clear. induction l as [|c l IH]; intros m; simpl; [lia|].
    etrans; [apply IH|]. unfold addToBucket.
    destruct (m !! bucketOf c) eqn:E.
    + rewrite map_size_insert_Some by done. lia.
    + rewrite map_size_insert_None by done. lia.
Qed.

(** * Across the views *)

(** X24: when twice the number of records fits an int64, the connection
    counts of the nodes add up to twice the number of records, and the
    counts of the edges, of the timeline points, of the protocols and of
    the states each add up to the number of records. *)
Theorem counts_add_up (rho : Go.shuffle) (conns : list Connection.t) :
  Go.permutes rho → 2 * Z.of_nat (length conns) < 2 ^ 63 →
  sumZ (Node.Connections <$> (buildNodesAndEdges rho conns).1)
  = 2 * Z.of_nat (length conns) ∧
  sumZ (Edge.Count <$> (buildNodesAndEdges rho conns).2)
  = Z.of_nat (length conns) ∧
  sumZ (TimelinePoint.Count <$> TimelineData.Points (timelineOf rho conns))
  = Z.of_nat (length conns) ∧
  sumZ (map_to_list (ConnectionStats.protocols (processConnectionStats conns))).*2
  = Z.of_nat (length conns) ∧
  sumZ (map_to_list (ConnectionStats.connStates (processConnectionStats conns))).*2
  = Z.of_nat (length conns).
Proof.
  intros Hp Hlen.
  destruct (buildNodesAndEdges_Permutation rho conns Hp) as [Hn He].
  destruct (processConnectionStats_summarizes conns) as (Hpr & _ & Hcs & _).
  split_and!.
  - rewrite (sumZ_Permutation _ _ (fmap_Permutation _ _ _ Hn)).
    assert (Node.Connections <$> (map_to_list (accumulate conns).1).*2
            = (fun k => Z.of_nat (length (asOrigin k conns)) +
                        Z.of_nat (length (asResponder k conns)))
                <$> (map_to_list (accumulate conns).1).*1) as ->.
    { rewrite <- !list_fmap_compose. apply Forall_fmap_ext_1, Forall_forall.
      intros [k n] Hin. simpl. apply elem_of_map_to_list in Hin.
      rewrite nodes_lookup in Hin. unfold nodeFor in Hin.
      destruct (decide _); [|done]. injection Hin as <-. simpl.
      apply wrap64_small.
      pose proof (length_filter (fun c => Connection.OrigHost c = k) conns).
      pose proof (length_filter (fun c => Connection.RespHost c = k) conns).
      unfold asOrigin, asResponder. lia. }
    assert (∀ c, c ∈ conns →
              is_Some ((accumulate conns).1 !! Connection.OrigHost c) ∧
              is_Some ((accumulate conns).1 !! Connection.RespHost c)) as Hh.
    { intros c Hc. rewrite <- !elem_of_dom, nodes_dom. unfold hostsOf.
      rewrite !elem_of_list_to_set, !list_elem_of_In, !in_flat_map.
      rewrite list_elem_of_In in Hc.
      split; exists c; (split; [done|]); simpl; tauto. }
    rewrite sumZ_add. unfold asOrigin, asResponder.
    rewrite !count_by_key; [lia|apply NoDup_fst_map_to_list| |
                            apply NoDup_fst_map_to_list|].
    + intros c Hc. destruct (proj2 (Hh c Hc)) as [n Hn'].
      apply list_elem_of_fmap. exists (Connection.RespHost c, n).
      split; [done|]. by apply elem_of_map_to_list.
    + intros c Hc. destruct (proj1 (Hh c Hc)) as [n Hn'].
      apply list_elem_of_fmap. exists (Connection.OrigHost c, n).
      split; [done|]. by apply elem_of_map_to_list.
  - rewrite (sumZ_Permutation _ _ (fmap_Permutation _ _ _ He)).
    apply (map_counts_add_up edgeKey); [lia| |].
    + intros k e. rewrite edges_lookup. unfold edgeFor. fold (withKey k conns).
      destruct (withKey k conns); [done|]. by intros [= <-].
    + intros c Hc. rewrite edges_lookup.
      destruct (edgeFor_first conns c Hc) as (? & ? & _ & _ & ->). by eexists.
  - destruct (decide (conns = [])) as [->|Hne]; [done|].
    destruct (timeline_points rho conns Hp Hne) as [Hperm _].
    rewrite (sumZ_Permutation _ _ (fmap_Permutation _ _ _ Hperm)).
    apply (map_counts_add_up bucketOf); [lia| |].
    + intros b p. rewrite buckets_lookup. unfold pointFor.
      destruct (inBucket b conns) eqn:E; [done|]. by intros [= <-].
    + intros c Hc. rewrite buckets_lookup. unfold pointFor.
      destruct (inBucket (bucketOf c) conns) eqn:E; [|by eexists].
      assert (c ∈ inBucket (bucketOf c) conns) as Hin
        by by apply list_elem_of_filter.
      rewrite E in Hin. by apply elem_of_nil in Hin.
  - rewrite <- (list_fmap_id (map_to_list _).*2).
    apply (map_counts_add_up Connection.Protocol); [lia| |].
    + intros k v. rewrite Hpr. unfold tally.
      destruct (filter _ conns); [done|]. by intros [= <-].
    + intros c Hc. rewrite Hpr. unfold tally.
      destruct (filter _ conns) eqn:E; [|by eexists].
      assert (c ∈ filter (fun c0 => Connection.Protocol c0 = Connection.Protocol c) conns)
        as Hin by by apply list_elem_of_filter.
      rewrite E in Hin. by apply elem_of_nil in Hin.
  - rewrite <- (list_fmap_id (map_to_list _).*2).
    apply (map_counts_add_up Connection.ConnState); [lia| |].
    + intros k v. rewrite Hcs. unfold tally.
      destruct (filter _ conns); [done|]. by intros [= <-].
    + intros c Hc. rewrite Hcs. unfold tally.
      destruct (filter _ conns) eqn:E; [|by eexists].
      assert (c ∈ filter (fun c0 => Connection.ConnState c0 = Connection.ConnState c) conns)
        as Hin by by apply list_elem_of_filter.
      rewrite E in Hin. by apply elem_of_nil in Hin.
Qed.

(** X25: as 64-bit integers, the bytes of the edges and the bytes of the
    timeline points each add up to the total bytes of the summary, and the
    bytes of the nodes to twice that. *)
Theorem bytes_add_up (rho : Go.shuffle) (conns : list Connection.t) :
  Go.permutes rho →
  let total := ConnectionStats.totalBytes (processConnectionStats conns) in
  total = Go.wrap64 (sumBytes conns) ∧
  Go.wrap64 (sumZ (Edge.TotalBytes <$> (buildNodesAndEdges rho conns).2)) = total ∧
  Go.wrap64 (sumZ (TimelinePoint.Bytes <$>
                     TimelineData.Points (timelineOf rho conns))) = total ∧
  Go.wrap64 (sumZ (Node.TotalBytes <$> (buildNodesAndEdges rho conns).1))
  = Go.wrap64 (2 * total).
Proof.
  intros Hp total.
  destruct (buildNodesAndEdges_Permutation rho conns Hp) as [Hn He].
  destruct (processConnectionStats_summarizes conns) as (_ & _ & _ & _ & Hb).
  assert (total = Go.wrap64 (sumBytes conns)) as Ht by done.
  rewrite Ht. split_and!.
  - done.
  - rewrite (sumZ_Permutation _ _ (fmap_Permutation _ _ _ He)).
    apply (map_bytes_add_up edgeKey).
    + intros k e. rewrite edges_lookup. unfold edgeFor. fold (withKey k conns).
      destruct (withKey k conns); [done|]. by intros [= <-].
    + intros c Hc. rewrite edges_lookup.
      destruct (edgeFor_first conns c Hc) as (? & ? & _ & _ & ->). by eexists.
  - destruct (decide (conns = [])) as [->|Hne]; [done|].
    destruct (timeline_points rho conns Hp Hne) as [Hperm _].
    rewrite (sumZ_Permutation _ _ (fmap_Permutation _ _ _ Hperm)).
    apply (map_bytes_add_up bucketOf).
    + intros b p. rewrite buckets_lookup. unfold pointFor.
      destruct (inBucket b conns) eqn:E; [done|]. by intros [= <-].
    + intros c Hc. rewrite buckets_lookup. unfold pointFor.
      destruct (inBucket (bucketOf c) conns) eqn:E; [|by eexists].
      assert (c ∈ inBucket (bucketOf c) conns) as Hin
        by by apply list_elem_of_filter.
      rewrite E in Hin. by apply elem_of_nil in Hin.
  - rewrite (sumZ_Permutation _ _ (fmap_Permutation _ _ _ Hn)).
    assert (Node.TotalBytes <$> (map_to_list (accumulate conns).1).*2
            = (fun k => Go.wrap64
                 (sumZ (Connection.TotalBytes <$> asOrigin k conns) +
                  sumZ (Connection.TotalBytes <$> asResponder k conns)))
                <$> (map_to_list (accumulate conns).1).*1) as ->.
    { rewrite <- !list_fmap_compose. apply Forall_fmap_ext_1, Forall_forall.
      intros [k n] Hin. simpl. apply elem_of_map_to_list in Hin.
      rewrite nodes_lookup in Hin. unfold nodeFor in Hin.
      destruct (decide _); [|done]. injection Hin as <-. simpl.
      by rewrite !sumBytes_sumZ. }
    rewrite (wrap64_sumZ (fun k => sumZ (Connection.TotalBytes <$> asOrigin k conns) +
                                   sumZ (Connection.TotalBytes <$> asResponder k conns))).
    assert (∀ c, c ∈ conns →
              is_Some ((accumulate conns).1 !! Connection.OrigHost c) ∧
              is_Some ((accumulate conns).1 !! Connection.RespHost c)) as Hh.
    { intros c Hc. rewrite <- !elem_of_dom, nodes_dom. unfold hostsOf.
      rewrite !elem_of_list_to_set, !list_elem_of_In, !in_flat_map.
      rewrite list_elem_of_In in Hc.
      split; exists c; (split; [done|]); simpl; tauto. }
    rewrite sumZ_add. unfold asOrigin, asResponder.
    rewrite !(weigh_by_key _ Connection.TotalBytes);
      [|apply NoDup_fst_map_to_list| |apply NoDup_fst_map_to_list|].
    + rewrite <- sumBytes_sumZ.
      replace (2 * Go.wrap64 (sumBytes conns))
        with (Go.wrap64 (sumBytes conns) + Go.wrap64 (sumBytes conns)) by lia.
      by rewrite wrap64_add_l, wrap64_add_r.
    + intros c Hc. destruct (proj2 (Hh c Hc)) as [n Hn'].
      apply list_elem_of_fmap. exists (Connection.RespHost c, n).
      split; [done|]. by apply elem_of_map_to_list.
    + intros c Hc. destruct (proj1 (Hh c Hc)) as [n Hn'].
      apply list_elem_of_fmap. exists (Connection.OrigHost c, n).
      split; [done|]. by apply elem_of_map_to_list.
Qed.


Lemma tally_Permutation (key : Connection.t → string) (l l' : list Connection.t)
    (k : string) :
  l ≡ₚ l' → tally key l k = tally key l' k.
Proof.
  intros Hp. unfold tally.
  assert (filter (fun c => key c = k) l ≡ₚ filter (fun c => key c = k) l') as Hf
    by by rewrite Hp.
  destruct (filter _ l) as [|c g] eqn:E, (filter _ l') as [|c' g'] eqn:E'.
  - done.
  - by apply Permutation_nil_cons in Hf.
  - symmetry in Hf. by apply Permutation_nil_cons in Hf.
  - by rewrite (Permutation_length Hf).
Qed.

Lemma hostsOf_Permutation (l l' : list Connection.t) :
  l ≡ₚ l' → hostsOf l = hostsOf l'.
Proof.
  intros Hp. unfold hostsOf. apply set_eq. intros h.
  rewrite !elem_of_list_to_set, !list_elem_of_In, !in_flat_map.
  split; intros (c & Hc & Hin); exists c; (split; [|done]);
    rewrite <- list_elem_of_In in *; [by rewrite <- Hp|by rewrite Hp].
Qed.

Lemma nodeFor_Permutation (l l' : list Connection.t) (k : string) :
  l ≡ₚ l' → nodeFor k l = nodeFor k l'.
Proof.
  intros Hp. unfold nodeFor, nodeOf, asOrigin, asResponder.
  rewrite (hostsOf_Permutation l l' Hp).
  assert (∀ (P : Connection.t → Prop) `{!∀ c, Decision (P c)},
            filter P l ≡ₚ filter P l') as Hf by (intros; by rewrite Hp).
  by rewrite !(Permutation_length (Hf _ _)), !(sumBytes_Permutation _ _ (Hf _ _)).
Qed.

(** X27: the order of the records does not matter to the timeline, to the
    nodes of the graph, nor to the distributions, the hosts and the total
    bytes of the summary; it does not matter to the time range either when
    no record has the timestamp -1. *)
Theorem aggregates_ignore_record_order (rho : Go.shuffle)
    (conns conns' : list Connection.t) :
  Go.permutes rho → conns ≡ₚ conns' →
  let st := processConnectionStats conns in
  let st' := processConnectionStats conns' in
  timelineOf rho conns = timelineOf rho conns' ∧
  (buildNodesAndEdges rho conns).1 = (buildNodesAndEdges rho conns').1 ∧
  ConnectionStats.protocols st = ConnectionStats.protocols st' ∧
  ConnectionStats.services st = ConnectionStats.services st' ∧
  ConnectionStats.connStates st = ConnectionStats.connStates st' ∧
  ConnectionStats.uniqueIPs st = ConnectionStats.uniqueIPs st' ∧
  ConnectionStats.totalBytes st = ConnectionStats.totalBytes st' ∧
  ((∀ c, c ∈ conns → Connection.Timestamp c ≠ F64.of_int (-1)) →
   ConnectionStats.startTime st = ConnectionStats.startTime st' ∧
   ConnectionStats.endTime st = ConnectionStats.endTime st').
Proof.
  intros Hp Hperm st st'.
  destruct (processConnectionStats_summarizes conns) as (Hpr & Hsv & Hcs & Hu & Hb).
  destruct (processConnectionStats_summarizes conns') as (Hpr' & Hsv' & Hcs' & Hu' & Hb').
  split_and!.
  - destruct (decide (conns = [])) as [->|Hne].
    { apply Permutation_nil_l in Hperm. by subst. }
    assert (conns' ≠ []) as Hne'.
    { intros ->. by apply Permutation_nil_r in Hperm. }
    rewrite !timelineOf_nonempty by done. cbv zeta.
    destruct (sorted_ends rho conns Hp Hne) as [[Hf Hfmin] [Hl Hlmax]].
    destruct (sorted_ends rho conns' Hp Hne') as [[Hf' Hfmin'] [Hl' Hlmax']].
    rewrite (buckets_Permutation (Go.sort_Slice rho byTimestamp conns) conns)
      by by apply sort_Slice_Permutation.
    rewrite (buckets_Permutation (Go.sort_Slice rho byTimestamp conns') conns)
      by (rewrite Hperm; by apply sort_Slice_Permutation).
    f_equal; f_equal.
    + apply (Permutation_elem_of _ _ _ (symmetry Hperm)) in Hf'.
      apply (Permutation_elem_of _ _ _ Hperm) in Hf.
      specialize (Hfmin _ Hf'). specialize (Hfmin' _ Hf). lia.
    + apply (Permutation_elem_of _ _ _ (symmetry Hperm)) in Hl'.
      apply (Permutation_elem_of _ _ _ Hperm) in Hl.
      specialize (Hlmax _ Hl'). specialize (Hlmax' _ Hl). lia.
  - unfold buildNodesAndEdges.
    assert ((accumulate conns).1 = (accumulate conns').1) as He.
    { apply map_eq. intros k. rewrite !nodes_lookup.
      by apply nodeFor_Permutation. }
    destruct (accumulate conns) as [nm em], (accumulate conns') as [nm' em'].
    simpl in *. by rewrite He.
  - apply map_eq. intros k. rewrite Hpr, Hpr'. by apply tally_Permutation.
  - apply map_eq. intros k. rewrite Hsv, Hsv'.
    destruct (decide (k = "")); [done|]. by apply tally_Permutation.
  - apply map_eq. intros k. rewrite Hcs, Hcs'. by apply tally_Permutation.
  - fold st in Hu. fold st' in Hu'.
    by rewrite Hu, Hu', (hostsOf_Permutation conns conns' Hperm).
  - fold st in Hb. fold st' in Hb'.
    by rewrite Hb, Hb', (sumBytes_Permutation conns conns' Hperm).
  - intros Hno.
    destruct (decide (conns = [])) as [->|Hne].
    { apply Permutation_nil_l in Hperm. by subst. }
    assert (conns' ≠ []) as Hne'.
    { intros ->. by apply Permutation_nil_r in Hperm. }
    pose proof (processConnectionStats_ranges conns) as H.
    pose proof (processConnectionStats_ranges conns') as H'.
    unfold ranges in H, H'. fold st in H. fold st' in H'.
    destruct (last conns) as [c|] eqn:El; [|by apply last_None in El].
    destruct (last conns') as [c'|] eqn:El'; [|by apply last_None in El'].
    destruct H as ((d1 & Hd1 & Hs) & (d2 & Hd2 & He) & _ & Hall).
    destruct H' as ((d1' & Hd1' & Hs') & (d2' & Hd2' & He') & _ & Hall').
    specialize (Hall Hno).
    assert (∀ d, d ∈ conns' → Connection.Timestamp d ≠ unset) as Hno'.
    { intros d Hd. apply Hno. by rewrite Hperm. }
    specialize (Hall' Hno').
    rewrite <- Hperm in Hd1', Hd2'. rewrite Hperm in Hd1, Hd2.
    pose proof (Hall d1' Hd1'). pose proof (Hall d2' Hd2').
    pose proof (Hall' d1 Hd1). pose proof (Hall' d2 Hd2).
    lia.
Qed.

(** * Records, hosts and times *)

(** X28: the record of a line depends on the values under the twenty-one
    recognized keys only: two lines whose objects agree on them give the
    same record, whatever else they hold and in whatever order. *)
Theorem unrecognized_keys_are_ignored (line1 line2 : string)
    (raw1 raw2 : gmap string json.any) :
  json.Unmarshal line1 = inr raw1 → json.Unmarshal line2 = inr raw2 →
  (∀ key, key ∈ recognizedKeys → raw1 !! key = raw2 !! key) →
  UnmarshalConnection line1 = UnmarshalConnection line2.
Proof.
  intros H1 H2 Hk.
  assert (UnmarshalConnection line1 = inr (fieldwise raw1)) as ->.
  { apply UnmarshalConnection_fieldwise. by exists raw1. }
  assert (UnmarshalConnection line2 = inr (fieldwise raw2)) as ->.
  { apply UnmarshalConnection_fieldwise. by exists raw2. }
  f_equal. unfold fieldwise, stringField, floatField, intField, boolField.
  rewrite !Hk; [done|apply list_elem_of_In; simpl; tauto..].
Qed.

Lemma starts_with_app (p s t : string) :
  starts_with p s → starts_with p (s +:+ t).
Proof.
  intros [rest ->]. exists (rest +:+ t). apply string_app_assoc.
Qed.

(** X29: locality is decided by the beginning of the string alone: a local
    string stays local whatever is appended to it. *)
Theorem IsLocalIP_extends (ip suffix : string) :
  IsLocalIP ip = true → IsLocalIP (ip +:+ suffix) = true.
Proof.
  unfold IsLocalIP. case_bool_decide as He; [done|].
  case_bool_decide as He'.
  { destruct ip; [done|discriminate]. }
  rewrite !IsLocalIP_loop. intros (p & Hp & Hs). exists p.
  split; [done|]. by apply starts_with_app.
Qed.

Lemma Unix_nsec (sec nsec : Z) :
  Go.inInt64 nsec = true →
  0 ≤ time.nsec (time.Unix sec nsec) < 10 ^ 9.
Proof.
  unfold Go.inInt64, Go.minInt64, Go.maxInt64.
  rewrite andb_true_iff, !Z.leb_le. intros [Hlo Hhi].
  unfold time.Unix.
  assert (∀ z, 0 ≤ z < 10 ^ 9 → 0 ≤ Go.wrap32 z < 10 ^ 9) as H32.
  { intros z Hz. unfold Go.wrap32. rewrite Z.mod_small; lia. }
  destruct ((nsec <? 0) || (10 ^ 9 <=? nsec)) eqn:E.
  - pose proof (Z.quot_rem' nsec (10 ^ 9)) as Hqr.
    pose proof (Z.rem_bound_abs nsec (10 ^ 9) ltac:(lia)) as Hra.
    assert (Z.abs (Z.quot nsec (10 ^ 9) * 10 ^ 9) ≤ Z.abs nsec) as Hq.
    { pose proof (Z.rem_sign_mul nsec (10 ^ 9) ltac:(lia)).
      pose proof (Z.quot_rem' nsec (10 ^ 9)). nia. }
    rewrite (wrap64_small (Z.quot nsec (10 ^ 9) * 10 ^ 9)) by lia.
    rewrite (wrap64_small (nsec - _)) by lia.
    destruct (nsec - _ <? 0) eqn:E2; simpl.
    + rewrite wrap64_small by lia. apply H32. lia.
    + apply H32. lia.
  - apply orb_false_iff in E as [E1 E2]. simpl. apply H32. lia.
Qed.

(** X30: the nanoseconds of [GetTime] always lie between 0 and 999999999;
    for a timestamp that is a whole number of seconds (below 2^53 in
    absolute value) [GetTime] is that second, with no nanoseconds. *)
Theorem GetTime_spec (c : Connection.t) :
  0 ≤ time.nsec (Connection.GetTime c) < 10 ^ 9 ∧
  (∀ n, Z.abs n < 2 ^ 53 → Connection.Timestamp c = F64.of_int n →
        Connection.GetTime c = {| time.unixSec := n; time.nsec := 0 |}).
Proof.
  split.
  - unfold Connection.GetTime. apply Unix_nsec.
    destruct (F64.sub _ _); [|done].
    destruct (F64.mul _ _); [|done]. apply to_int64_range.
  - intros n Hn Hts. unfold Connection.GetTime. rewrite Hts, of_int_exact by done.
    assert (F64.to_int64 (n * F64.unit) = n) as ->.
    { unfold F64.to_int64. rewrite Z.quot_mul by done.
      assert (Go.inInt64 n = true) as ->; [|done].
      unfold Go.inInt64, Go.minInt64, Go.maxInt64.
      apply andb_true_iff. rewrite !Z.leb_le. lia. }
    rewrite of_int_exact by done.
    unfold F64.sub. rewrite Z.sub_diag.
    change (F64.round 0 1) with 0. change (F64.overflows 0) with false.
    cbv iota. unfold F64.mul. rewrite Z.mul_0_l.
    change (F64.round 0 F64.unit) with 0. change (F64.overflows 0) with false.
    cbv iota. change (F64.to_int64 0) with 0.
    reflexivity.
Qed.

(** * Witnesses of the further properties *)

Lemma twoSessions_nonempty : API.files twoSessions ≠ ∅.
Proof. unfold twoSessions, UploadFile. simpl. apply insert_non_empty. Defined.

Lemma reachable_ids_derived_witness :
  String.length (generateFileID "conn.log" 0) = 16%nat.
Proof.
  refine (proj1 (proj2 (reachable_ids_derived twoSessions
    (generateFileID "conn.log" 0)
    {| FileData.Filename := "conn.log"; FileData.UploadTime := 0;
       FileData.Size := 0; FileData.Connections := [] |}
    twoSessions_reachable _))).
  vm_compute. reflexivity.
Defined.


Lemma store_is_never_emptied_witness :
  API.files (DeleteFile Go.in_order twoSessions "DELETE"
               (Request (generateFileID "conn.log" 0))).1 ≠ ∅.
Proof.
  exact (proj1 (proj2 (proj2 (store_is_never_emptied Go.in_order twoSessions
                                twoSessions_nonempty)))
           "DELETE" (Request (generateFileID "conn.log" 0))).
Defined.



Lemma SwitchFile_spec_witness :
  API.currentFileID
    (SwitchFile twoSessions "POST" (Request (generateFileID "conn.log" 0))).1
  = generateFileID "conn.log" 0.
Proof.
  refine (proj1 (proj2 (proj2 (proj2 (proj2 (proj2
    (SwitchFile_spec twoSessions "POST" (generateFileID "conn.log" 0)))))
    {| FileData.Filename := "conn.log"; FileData.UploadTime := 0;
       FileData.Size := 0; FileData.Connections := [] |}
    (generateFileID_nonempty "conn.log" 0) _))).
  vm_compute. reflexivity.
Defined.

Lemma GetFiles_spec_witness :
  FilesResponse.total_files (GetFiles Go.in_order twoSessions)
  = Z.of_nat (size (API.files twoSessions)).
Proof.
  exact (proj1 (proj2 (proj2 (proj2
    (GetFiles_spec Go.in_order twoSessions permutes_in_order))))).
Defined.

Lemma GetFiles_marks_the_current_session_witness :
  length (filter (fun info => FileInfo.IsCurrent info = true)
            (FilesResponse.files (GetFiles Go.in_order twoSessions))) = 1%nat.
Proof.
  exact (proj1 (proj2 (GetFiles_marks_the_current_session Go.in_order twoSessions
    permutes_in_order twoSessions_reachable)) twoSessions_nonempty).
Defined.

Lemma processConnectionStats_time_range_witness :
  ConnectionStats.startTime (processConnectionStats exampleRecords)
  ≤ ConnectionStats.endTime (processConnectionStats exampleRecords).
Proof.
  refine (proj1 (proj2 (proj2
    (processConnectionStats_time_range exampleRecords _)))).
  discriminate.
Defined.

Lemma buildConnStateDescriptions_spec_witness :
  length (buildConnStateDescriptions Go.in_order {["SF" := 2]})
  = size ({["SF" := 2]} : gmap string Z).
Proof.
  exact (proj1 (proj2 (proj2
    (buildConnStateDescriptions_spec Go.in_order {["SF" := 2]}
       permutes_in_order)))).
Defined.

Lemma buildNodesAndEdges_nodes_witness :
  length (buildNodesAndEdges Go.in_order exampleRecords).1
  = size (hostsOf exampleRecords).
Proof.
  exact (proj1 (proj2 (proj2 (proj2
    (buildNodesAndEdges_nodes Go.in_order exampleRecords permutes_in_order))))).
Defined.

Lemma edges_join_nodes_witness :
  "A" ∈ Node.ID <$> (buildNodesAndEdges Go.in_order exampleRecords).1.
Proof.
  refine (proj1 (edges_join_nodes Go.in_order exampleRecords
    (edgeOf (exampleRecord 100 10) exampleRecords) permutes_in_order _)).
  vm_compute. left.
Defined.

Lemma counts_add_up_witness :
  sumZ (Node.Connections <$> (buildNodesAndEdges Go.in_order exampleRecords).1)
  = 2 * Z.of_nat (length exampleRecords).
Proof.
  refine (proj1 (counts_add_up Go.in_order exampleRecords permutes_in_order _)).
  reflexivity.
Defined.

Lemma bytes_add_up_witness :
  ConnectionStats.totalBytes (processConnectionStats exampleRecords)
  = Go.wrap64 (sumBytes exampleRecords).
Proof.
  exact (proj1 (bytes_add_up Go.in_order exampleRecords permutes_in_order)).
Defined.



Lemma deleted_session_is_gone_witness :
  API.files (DeleteFile Go.in_order twoSessions "DELETE"
               (Request (generateFileID "conn.log" 1))).1
    !! generateFileID "conn.log" 1 = None.
Proof.
  refine (proj1 (proj2 (deleted_session_is_gone Go.in_order Go.in_order
    twoSessions "DELETE" (generateFileID "conn.log" 1)
    {| FileData.Filename := "conn.log"; FileData.UploadTime := 1;
       FileData.Size := 0; FileData.Connections := [] |}
    permutes_in_order (or_introl eq_refl)
    (generateFileID_nonempty "conn.log" 1) _ _))).
  - vm_compute. reflexivity.
  - vm_compute. lia.
Defined.

Lemma IsLocalIP_extends_witness : IsLocalIP ("10." +:+ "0.0.1") = true.
Proof. exact (IsLocalIP_extends "10." "0.0.1" eq_refl). Defined.

Lemma timeline_buckets_witness : (10 | 100).
Proof.
  refine (proj1 (timeline_buckets Go.in_order exampleRecords
    {| TimelinePoint.Timestamp := 100; TimelinePoint.Count := 2;
       TimelinePoint.Bytes := 15; TimelinePoint.Protocol := "";
       TimelinePoint.Connections := [] |} permutes_in_order _)).
  vm_compute. left.
Defined.

Lemma unrecognized_keys_are_ignored_witness :
  UnmarshalConnection (quoted "{'ts':1,'note':'x','uid':'C1'}")
  = UnmarshalConnection (quoted "{'uid':'C1','ts':1}").
Proof.
  refine (unrecognized_keys_are_ignored _ _
            (<["ts" := json.Float64 (F64.of_int 1)]>
               (<["note" := json.Str "x"]> {["uid" := json.Str "C1"]}))
            (<["uid" := json.Str "C1"]> {["ts" := json.Float64 (F64.of_int 1)]})
            _ _ _).
  - vm_compute. reflexivity.
  - vm_compute. reflexivity.
  - intros key Hk. unfold recognizedKeys in Hk.
    repeat (apply elem_of_cons in Hk as [->|Hk]; [vm_compute; reflexivity|]).
    by apply elem_of_nil in Hk.
Defined.

Lemma GetTime_spec_witness :
  Connection.GetTime (exampleRecord 100 10) = {| time.unixSec := 100; time.nsec := 0 |}.
Proof.
  refine (proj2 (GetTime_spec (exampleRecord 100 10)) 100 _ eq_refl).
  reflexivity.
Defined.

Lemma generateFileID_input_is_unambiguous_witness :
  generateFileID "conn.log" 0
  = Go.slice_to
      (hex.EncodeToString
         (sha256.Sum256
            (Bytes.of_string ("conn.log" +:+ "_" +:+ strconv.FormatInt 0))))
      16.
Proof.
  exact (proj1 (generateFileID_input_is_unambiguous "conn.log" "x" 0 1
                  eq_refl eq_refl)).
Defined.

Lemma aggregates_ignore_record_order_witness :
  timelineOf Go.in_order exampleRecords
  = timelineOf Go.in_order [exampleRecord 105 5; exampleRecord 100 10].
Proof.
  refine (proj1 (aggregates_ignore_record_order Go.in_order exampleRecords
    [exampleRecord 105 5; exampleRecord 100 10] permutes_in_order _)).
  apply perm_swap.
Defined.
